(** * ReviewReap: CSV import, API routes, schema constraints

    A shallow embedding of the parts of the ReviewReap repository that its
    specification talks about:

    - the CSV upload route   ([frontend/src/app/api/upload/csv/upload/route.ts]),
    - the CSV process route  ([frontend/src/pages/api/upload/csv/process/[id].ts]),
    - the CSV preview route  (pages API handler returning a [CSVPreview]),
    - the campaign proxy routes ([frontend/src/app/api/campaigns/[id]/...]),
    - the [CampaignExecution] component's action gating,
    - the constraints of [database_schema.sql] and the migrations,
    - the retry policy of the e-mail integration guide,
    - the routes that ask for a Supabase session (Google connection status,
      guests, upload confirm, conversations) and the WhatsApp configuration
      route,
    - the ensure-org and create-user routes and [signUp] of the AuthContext,
    - the page creating a campaign, the campaign detail page, the pagers,
      the upload page and the star rating of the reviews page,
    - the [campaign_analytics] view.

    JavaScript strings are modelled as [string]; one [ascii] stands for one
    code unit in the range 0..255. *)

From Stdlib Require Import ZArith List Ascii String Bool Lia.
From stdpp Require Import base option list gmap strings.
Import ListNotations.

Local Open Scope string_scope.
Local Open Scope Z_scope.

(* ===================================================================== *)
(** ** JavaScript string primitives used by the routes *)
(* ===================================================================== *)

Module Js.

(** A string is truthy when it is not empty. *)
Definition truthy (s : string) : bool :=
  match s with EmptyString => false | String _ _ => true end.

(** An optional (possibly [undefined]) string is truthy when it is present
    and not empty. *)
Definition truthy_opt (o : option string) : bool :=
  match o with Some s => truthy s | None => false end.

(** [WhiteSpace] and [LineTerminator] code units below 256: TAB, LF, VT, FF,
    CR, SPACE and NBSP. The class [\s] of regular expressions and
    [String.prototype.trim] use the same set. *)
Definition is_space (c : ascii) : bool :=
  let n := nat_of_ascii c in
  (Nat.eqb n 9 || Nat.eqb n 10 || Nat.eqb n 11 || Nat.eqb n 12
   || Nat.eqb n 13 || Nat.eqb n 32 || Nat.eqb n 160)%bool.

Fixpoint trimStart (s : string) : string :=
  match s with
  | EmptyString => EmptyString
  | String c s' => if is_space c then trimStart s' else s
  end.

Fixpoint trimEnd (s : string) : string :=
  match s with
  | EmptyString => EmptyString
  | String c s' =>
      match trimEnd s' with
      | EmptyString => if is_space c then EmptyString else String c EmptyString
      | t => String c t
      end
  end.

(** [s.trim()] *)
Definition trim (s : string) : string := trimEnd (trimStart s).

(** [s.split(sep)] for a separator of one code unit. *)
Fixpoint split (sep : ascii) (s : string) : list string :=
  match s with
  | EmptyString => [EmptyString]
  | String c s' =>
      if Ascii.eqb c sep then EmptyString :: split sep s'
      else match split sep s' with
           | [] => [String c EmptyString]
           | w :: ws => String c w :: ws
           end
  end.

(** [s.replace(/c/g, '')]: every occurrence of the code unit is removed. *)
Fixpoint remove_all (c : ascii) (s : string) : string :=
  match s with
  | EmptyString => EmptyString
  | String d s' => if Ascii.eqb d c then remove_all c s' else String d (remove_all c s')
  end.

(** [s.startsWith(p)] *)
Fixpoint startsWith (s p : string) : bool :=
  match p, s with
  | EmptyString, _ => true
  | String _ _, EmptyString => false
  | String a p', String b s' => Ascii.eqb a b && startsWith s' p'
  end.

Fixpoint rev_onto (s acc : string) : string :=
  match s with
  | EmptyString => acc
  | String c s' => rev_onto s' (String c acc)
  end.

(** [s.endsWith(p)] *)
Definition endsWith (s p : string) : bool :=
  startsWith (rev_onto s EmptyString) (rev_onto p EmptyString).

Definition comma : ascii := ","%char.
Definition newline : ascii := ascii_of_nat 10.
Definition dquote : ascii := ascii_of_nat 34.
Definition blank : ascii := " "%char.
Definition slash : ascii := "/"%char.

(** [l.join(sep)] *)
Fixpoint join (sep : string) (l : list string) : string :=
  match l with
  | [] => ""
  | [x] => x
  | x :: rest => x ++ sep ++ join sep rest
  end.

(** [String(f)] for a built-in function [f] (V8). *)
Definition native (name : string) : string :=
  "function " ++ name ++ "() { [native code] }".

(** The properties an object inherits from [Object.prototype], each with
    the property key its value converts to: the methods are built-in
    functions, and the getter [__proto__] gives [Object.prototype]. *)
Definition Object_prototype : list (string * string) :=
  [ ("constructor", native "Object");
    ("__defineGetter__", native "__defineGetter__");
    ("__defineSetter__", native "__defineSetter__");
    ("hasOwnProperty", native "hasOwnProperty");
    ("__lookupGetter__", native "__lookupGetter__");
    ("__lookupSetter__", native "__lookupSetter__");
    ("isPrototypeOf", native "isPrototypeOf");
    ("propertyIsEnumerable", native "propertyIsEnumerable");
    ("toString", native "toString");
    ("valueOf", native "valueOf");
    ("__proto__", "[object Object]");
    ("toLocaleString", native "toLocaleString") ].

(** The key of the inherited property [p], if there is one. *)
Definition inherited (p : string) : option string :=
  snd <$> List.find (fun e => String.eqb (fst e) p) Object_prototype.

End Js.

(* ===================================================================== *)
(** ** [path.join] of Node (POSIX) *)
(* ===================================================================== *)

Module Path.

(** [normalizeString]: the segments between slashes without the empty ones
    and the [.] ones, each [..] taking away the segment before it; above the
    start a [..] is kept when [allowAboveRoot] and dropped otherwise. [res]
    holds the segments kept so far, the last one first. *)
Fixpoint normalizeString (allowAboveRoot : bool) (segments res : list string)
  : list string :=
  match segments with
  | [] => rev res
  | segment :: rest =>
      if String.eqb segment "" || String.eqb segment "."
      then normalizeString allowAboveRoot rest res
      else if String.eqb segment ".."
      then match res with
           | last :: res' =>
               if String.eqb last ".."
               then normalizeString allowAboveRoot rest
                      (if allowAboveRoot then ".." :: res else res)
               else normalizeString allowAboveRoot rest res'
           | [] =>
               normalizeString allowAboveRoot rest
                 (if allowAboveRoot then [".."] else [])
           end
      else normalizeString allowAboveRoot rest (segment :: res)
  end.

(** [path.normalize(path)] *)
Definition normalize (path : string) : string :=
  if String.eqb path "" then "."
  else
    let isAbsolute := Js.startsWith path "/" in
    let trailingSeparator := Js.endsWith path "/" in
    let p := Js.join "/"
               (normalizeString (negb isAbsolute) (Js.split Js.slash path) []) in
    if String.eqb p ""
    then (if isAbsolute then "/" else if trailingSeparator then "./" else ".")
    else (if isAbsolute then "/" else "") ++ p
           ++ (if trailingSeparator then "/" else "").

(** [path.join(...args)]: the non-empty arguments joined by slashes, then
    normalized. *)
Definition join (args : list string) : string :=
  match List.filter Js.truthy args with
  | [] => "."
  | parts => normalize (Js.join "/" parts)
  end.

End Path.

(* ===================================================================== *)
(** ** Regular expressions, matched by derivatives *)
(* ===================================================================== *)

Module Regex.

Inductive regex : Type :=
| Void                                   (* matches nothing *)
| Eps                                    (* matches the empty string *)
| Class (p : ascii -> bool)              (* one code unit of a class *)
| Cat (r1 r2 : regex)
| Alt (r1 r2 : regex)
| Star (r : regex).

Definition Plus (r : regex) : regex := Cat r (Star r).
Definition Chr (c : ascii) : regex := Class (Ascii.eqb c).

Fixpoint nullable (r : regex) : bool :=
  match r with
  | Void => false
  | Eps => true
  | Class _ => false
  | Cat r1 r2 => nullable r1 && nullable r2
  | Alt r1 r2 => nullable r1 || nullable r2
  | Star _ => true
  end.

Fixpoint deriv (c : ascii) (r : regex) : regex :=
  match r with
  | Void => Void
  | Eps => Void
  | Class p => if p c then Eps else Void
  | Cat r1 r2 =>
      if nullable r1 then Alt (Cat (deriv c r1) r2) (deriv c r2)
      else Cat (deriv c r1) r2
  | Alt r1 r2 => Alt (deriv c r1) (deriv c r2)
  | Star r1 => Cat (deriv c r1) (Star r1)
  end.

(** [/^r$/.test(s)]: the whole string matches. *)
Fixpoint test (r : regex) (s : string) : bool :=
  match s with
  | EmptyString => nullable r
  | String c s' => test (deriv c r) s'
  end.

(** Declarative matching, to state what [test] decides. *)
Inductive matches : regex -> string -> Prop :=
| MEps : matches Eps EmptyString
| MClass p c : p c = true -> matches (Class p) (String c EmptyString)
| MCat r1 r2 s1 s2 : matches r1 s1 -> matches r2 s2 -> matches (Cat r1 r2) (s1 ++ s2)
| MAltL r1 r2 s : matches r1 s -> matches (Alt r1 r2) s
| MAltR r1 r2 s : matches r2 s -> matches (Alt r1 r2) s
| MStar0 r : matches (Star r) EmptyString
| MStarS r s1 s2 : matches r s1 -> matches (Star r) s2 -> matches (Star r) (s1 ++ s2).

(** [[^\s@]]: any code unit that is neither white space nor [@]. *)
Definition not_space_at (c : ascii) : bool :=
  negb (Js.is_space c) && negb (Ascii.eqb c "@"%char).

(** [/^[^\s@]+@[^\s@]+\.[^\s@]+$/] *)
Definition email_re : regex :=
  Cat (Plus (Class not_space_at))
    (Cat (Chr "@"%char)
       (Cat (Plus (Class not_space_at))
          (Cat (Chr "."%char) (Plus (Class not_space_at))))).

End Regex.

(* ===================================================================== *)
(** ** Persisted state and external services *)
(* ===================================================================== *)

Module Store.

(** One entry of the [errors] array of an upload job. *)
Record row_error : Type := RowError { row : Z; error : string }.

(** A row of [upload_jobs], with the columns the routes read and write. *)
Record upload_job : Type := UploadJob {
  job_org_id : string;
  job_user_id : string;
  job_filename : string;
  job_file_path : string;
  job_status : option string;
  job_total_rows : Z;
  job_processed_rows : Z;
  job_headers : list string;
  job_errors : option (list row_error);
  job_column_mapping : option (gmap string string)
}.

(** The persisted state: the [users] table (id to nullable [org_id]), the
    [upload_jobs] table by id, the rows of [customers] in insertion order
    (each a JavaScript object, field name to value), and the files on disk. *)
Record world : Type := World {
  users : gmap string (option string);
  upload_jobs : gmap string upload_job;
  customers : list (gmap string string);
  files : gmap string string
}.

(** The calls of the upload route on the file system:
    [fs.existsSync] and [fs.mkdirSync] on the uploads directory, and
    [fs.writeFileSync], [fs.readFileSync] and [fs.unlinkSync] on the path of
    the file. *)
Inductive fs_call : Type := mkdirSync | writeFileSync | readFileSync | unlinkSync.

(** What the routes call but the repository does not implement. *)
Record services : Type := Services {
  (* supabase.auth.getUser(token): the user id, or None on error / no user *)
  getUser : string -> option string;
  (* JSON.parse of the column_mapping form field; None when it throws. The
     value parsed is an object with string values, as the ColumnMapping
     interface declares; a field that parses to anything else (null, a
     number, an array, an object with a value that is not a string) is
     outside this model. *)
  json_parse : string -> option (gmap string string);
  (* csv-parser with headers:false on a file's content: inl is the error event *)
  csv_parse : string -> string + list (list string);
  (* new Date(s): None when getTime() is NaN, otherwise toISOString().split('T')[0] *)
  iso_date : string -> option string;
  (* insert of one batch into customers: the error message, if it fails *)
  insert_error : list (gmap string string) -> list (gmap string string) -> option string;
  (* insert into upload_jobs: the generated id, or None on error *)
  new_job_id : world -> upload_job -> option string;
  (* Date.now() and process.cwd() *)
  now : string;
  cwd : string;
  (* whether the call throws on the path in the given state (the directory
     is missing, as for a file name with a slash, or access is denied); a
     call that throws leaves the disk as it was *)
  fs_throws : fs_call -> world -> string -> bool
}.

Inductive body : Type :=
| ErrorBody (msg : string)                      (* { error: msg } *)
| JobBody (j : option upload_job)               (* the updated job, or null *)
| UploadBody (job_id : string) (headers : list string)
    (sample_rows : list (list string)) (total_rows : Z).
                                                (* { success, job_id, preview } *)

Record response : Type := Response { status : Z; payload : body }.

Definition set_jobs (w : world) (j : gmap string upload_job) : world :=
  World (users w) j (customers w) (files w).
Definition set_files (w : world) (f : gmap string string) : world :=
  World (users w) (upload_jobs w) (customers w) f.

(** The authentication prefix shared by the CSV routes:
    [authHeader.startsWith('Bearer ')], [authHeader.split(' ')[1]],
    [supabase.auth.getUser(token)]. *)
Definition authenticate (sv : services) (authHeader : option string)
  : response + string :=
  match authHeader with
  | None => inl (Response 401 (ErrorBody "Unauthorized"))
  | Some h =>
      if negb (Js.truthy h) || negb (Js.startsWith h "Bearer ")
      then inl (Response 401 (ErrorBody "Unauthorized"))
      else
        match Js.split Js.blank h !! 1%nat with
        | None => inl (Response 401 (ErrorBody "Invalid token"))
        | Some token =>
            match getUser sv token with
            | None => inl (Response 401 (ErrorBody "Invalid token"))
            | Some user => inr user
            end
        end
  end.

(** A request without a Bearer token, or with a token [getUser] rejects. *)
Definition no_valid_token (sv : services) (h : option string) : Prop :=
  match h with
  | None => True
  | Some a =>
      Js.startsWith a "Bearer " = false
      \/ forall token, Js.split Js.blank a !! 1%nat = Some token ->
                       getUser sv token = None
  end.

(** [from('users').select('org_id').eq('id', user).single()] followed by
    the test [!profile?.org_id]. *)
Definition profile_org (w : world) (user : string) : option string :=
  match users w !! user with
  | Some (Some org) => if Js.truthy org then Some org else None
  | _ => None
  end.

End Store.

(* ===================================================================== *)
(** ** The CSV process route: [pages/api/upload/csv/process/[id].ts] *)
(* ===================================================================== *)

Module CsvProcess.
Import Store.

Record request : Type := Request {
  method : string;
  (* req.query.id when it is a string; None when missing or an array *)
  query_id : option string;
  authorization : option string;
  (* whether formidable's form.parse(req) succeeds *)
  form_parses : bool;
  (* the column_mapping form field, when present *)
  column_mapping_field : option string
}.

(** The variables the ['data'] callback closes over. *)
Record parse_state : Type := ParseState {
  st_customers : list (gmap string string);
  st_errors : list row_error;
  totalRows : Z;
  processedRows : Z;
  isFirstRow : bool;
  st_headers : list string
}.

Definition initial_state : parse_state := ParseState [] [] 0 0 true [].

(** What [columnMapping[header]] gives: the string of the mapping's own
    property, or else the function or object of the property that every
    object inherits, written as the property key it converts to. *)
Inductive property : Type :=
| Own (value : string)
| Inherited (key : string).

Definition get (columnMapping : gmap string string) (header : string)
  : option property :=
  match columnMapping !! header with
  | Some value => Some (Own value)
  | None => Inherited <$> Js.inherited header
  end.

(** Truthiness, the comparison [mappedField === s] and the conversion to a
    property key. *)
Definition truthy (mappedField : property) : bool :=
  match mappedField with Own value => Js.truthy value | Inherited _ => true end.

Definition equals (mappedField : property) (s : string) : bool :=
  match mappedField with Own value => String.eqb value s | Inherited _ => false end.

Definition key_of (mappedField : property) : string :=
  match mappedField with Own value => value | Inherited key => key end.

(** [customerData[key] = value] on an object literal: the setter of
    [__proto__] ignores a string, any other key becomes an own property. *)
Definition assign (key value : string) (customerData : gmap string string)
  : gmap string string :=
  if String.eqb key "__proto__" then customerData else <[key := value]> customerData.

(** One step of [headers.forEach((header, index) => ...)]: the pair is
    [customerData] and [hasRequiredData]. *)
Definition map_column (columnMapping : gmap string string) (rowArray : list string)
    (header : string) (index : nat) (acc : gmap string string * bool)
  : gmap string string * bool :=
  match get columnMapping header with
  | Some mappedField =>
      if truthy mappedField && negb (equals mappedField "ignore")
         && Js.truthy_opt (rowArray !! index)
      then
        let value := Js.trim (default "" (rowArray !! index)) in
        if Js.truthy value
        then (assign (key_of mappedField) value (fst acc),
              snd acc || equals mappedField "name")
        else acc
      else acc
  | None => acc
  end.

Fixpoint map_columns (columnMapping : gmap string string) (rowArray : list string)
    (headers : list string) (index : nat) (acc : gmap string string * bool)
  : gmap string string * bool :=
  match headers with
  | [] => acc
  | header :: rest =>
      map_columns columnMapping rowArray rest (S index)
        (map_column columnMapping rowArray header index acc)
  end.

(** [customerData] after the [forEach]: the row's mapped, trimmed, non-empty
    fields. *)
Definition customer_of (columnMapping : gmap string string)
    (headers rowArray : list string) : gmap string string :=
  fst (map_columns columnMapping rowArray headers 0 (∅, false)).

(** What holds of [customerData] and [hasRequiredData] throughout the
    [forEach]: the flag is set exactly when a name was stored, and every
    stored value is non-empty. *)
Definition columns_inv (acc : gmap string string * bool) : Prop :=
  (acc.2 = true <-> is_Some (acc.1 !! "name"))
  /\ (forall k v, acc.1 !! k = Some v -> Js.truthy v = true).

(** The body of the [try] block for a data row: either the error pushed to
    [errors] or the customer pushed to [customers]. *)
Definition process_row (sv : services) (columnMapping : gmap string string)
    (headers rowArray : list string) (rowNumber : Z)
  : row_error + gmap string string :=
  let '(customerData, hasRequiredData) :=
    map_columns columnMapping rowArray headers 0 (∅, false) in
  if negb hasRequiredData || negb (Js.truthy_opt (customerData !! "name"))
  then inl (RowError rowNumber "Name is required")
  else if Js.truthy_opt (customerData !! "email")
          && negb (Regex.test Regex.email_re (default "" (customerData !! "email")))
  then inl (RowError rowNumber "Invalid email format")
  else if Js.truthy_opt (customerData !! "service_date")
  then match iso_date sv (default "" (customerData !! "service_date")) with
       | None => inl (RowError rowNumber "Invalid service date format")
       | Some d => inr (<["service_date" := d]> customerData)
       end
  else inr customerData.

(** The ['data'] callback. *)
Definition on_data (sv : services) (columnMapping : gmap string string)
    (st : parse_state) (rowArray : list string) : parse_state :=
  let totalRows' := totalRows st + 1 in
  if isFirstRow st
  then ParseState (st_customers st) (st_errors st) totalRows' (processedRows st)
         false rowArray
  else
    match process_row sv columnMapping (st_headers st) rowArray totalRows' with
    | inl e =>
        ParseState (st_customers st) (st_errors st ++ [e]) totalRows'
          (processedRows st) false (st_headers st)
    | inr c =>
        ParseState (st_customers st ++ [c]) (st_errors st) totalRows'
          (processedRows st + 1) false (st_headers st)
    end.

Definition read_rows (sv : services) (columnMapping : gmap string string)
    (rows : list (list string)) : parse_state :=
  fold_left (on_data sv columnMapping) rows initial_state.

(** What the ['data'] callback does with the data rows that follow the
    header row, the row counter standing at [n]: per row, the error or the
    customer. *)
Fixpoint results_from (sv : services) (columnMapping : gmap string string)
    (headers : list string) (n : Z) (data : list (list string))
  : list (row_error + gmap string string) :=
  match data with
  | [] => []
  | rowArray :: rest =>
      process_row sv columnMapping headers rowArray (n + 1)
      :: results_from sv columnMapping headers (n + 1) rest
  end.

Definition row_results (sv : services) (columnMapping : gmap string string)
    (rows : list (list string)) : list (row_error + gmap string string) :=
  match rows with
  | [] => []
  | headers :: data => results_from sv columnMapping headers 1 data
  end.

Definition left_of {A B : Type} (x : A + B) : option A :=
  match x with inl a => Some a | inr _ => None end.
Definition right_of {A B : Type} (x : A + B) : option B :=
  match x with inl _ => None | inr b => Some b end.

Definition batchSize : nat := 100.

(** The variables of the insertion loop of the ['end'] callback. *)
Record insert_state : Type := InsertState {
  table : list (gmap string string);
  ins_errors : list row_error;
  insertedCount : Z
}.

(** [{ ...customer, org_id: profile.org_id }] *)
Definition with_org (org : string) (customer : gmap string string)
  : gmap string string := <["org_id" := org]> customer.

(** [for (let i = 0; i < customers.length; i += batchSize)]. The loop is
    given fuel; [None] means the fuel ran out. *)
Fixpoint insert_loop (fuel : nat) (sv : services) (org : string)
    (customers : list (gmap string string)) (i : nat) (s : insert_state)
  : option insert_state :=
  if (i <? length customers)%nat then
    match fuel with
    | O => None
    | S fuel' =>
        let batch := take batchSize (drop i customers) in
        let customersToInsert := with_org org <$> batch in
        let s' :=
          match insert_error sv (table s) customersToInsert with
          | Some message =>
              InsertState (table s)
                (ins_errors s ++ [RowError (Z.of_nat i + 1)
                                    ("Database error: " ++ message)])
                (insertedCount s)
          | None =>
              InsertState (table s ++ customersToInsert) (ins_errors s)
                (insertedCount s + Z.of_nat (length batch))
          end in
        insert_loop fuel' sv org customers (i + batchSize)%nat s'
    end
  else Some s.

Definition finalStatus (errors : list row_error) (insertedCount : Z) : string :=
  if (0 <? Z.of_nat (length errors)) && (insertedCount =? 0)
  then "failed" else "completed".

(** The [update] of the ['end'] callback, applied to the job row. *)
Definition finish_job (j : upload_job) (st : parse_state) (s : insert_state)
  : upload_job :=
  UploadJob (job_org_id j) (job_user_id j) (job_filename j) (job_file_path j)
    (Some (finalStatus (ins_errors s) (insertedCount s)))
    (totalRows st - 1)
    (insertedCount s)
    (job_headers j)
    (if (0 <? Z.of_nat (length (ins_errors s))) then Some (ins_errors s) else None)
    (job_column_mapping j).

Definition set_status (j : upload_job) (status : string)
    (errors : option (list row_error)) (mapping : option (gmap string string))
  : upload_job :=
  UploadJob (job_org_id j) (job_user_id j) (job_filename j) (job_file_path j)
    (Some status) (job_total_rows j) (job_processed_rows j) (job_headers j)
    errors mapping.

(** The ['end'] callback: insert in batches, update the job, delete the
    file, answer 200 with the updated job. *)
Definition on_end (sv : services) (w : world) (id org : string)
    (uploadJob : upload_job) (st : parse_state) : option response * world :=
  match insert_loop (length (st_customers st)) sv org (st_customers st) 0
          (InsertState (customers w) (st_errors st) 0) with
  | None => (None, w)
  | Some s =>
      let jobs := alter (fun j => finish_job j st s) id (upload_jobs w) in
      let w' := World (users w) jobs (table s)
                  (delete (job_file_path uploadJob) (files w)) in
      (Some (Response 200 (JobBody (jobs !! id))), w')
  end.

(** [from('upload_jobs').select('*').eq('id', id).eq('org_id', org).single()] *)
Definition find_job (w : world) (id org : string) : option upload_job :=
  match upload_jobs w !! id with
  | Some j => if String.eqb (job_org_id j) org then Some j else None
  | None => None
  end.

(** The route handler. The result is the response written, if any, and
    the persisted state afterwards. *)
Definition handler (sv : services) (w : world) (req : request)
  : option response * world :=
  if negb (String.eqb (method req) "POST")
  then (Some (Response 405 (ErrorBody "Method not allowed")), w)
  else
  match query_id req with
  | None => (Some (Response 400 (ErrorBody "Invalid upload job ID")), w)
  | Some id =>
  if negb (Js.truthy id)
  then (Some (Response 400 (ErrorBody "Invalid upload job ID")), w)
  else
  match authenticate sv (authorization req) with
  | inl r => (Some r, w)
  | inr user =>
  match profile_org w user with
  | None =>
      (Some (Response 400 (ErrorBody "User not associated with an organization")), w)
  | Some org =>
  match find_job w id org with
  | None => (Some (Response 404 (ErrorBody "Upload job not found")), w)
  | Some uploadJob =>
  if negb (bool_decide (job_status uploadJob = Some "pending"))
  then (Some (Response 400 (ErrorBody "Upload job already processed")), w)
  else
  if negb (form_parses req)
  then (Some (Response 500 (ErrorBody "Internal server error")), w)
  else
  if negb (Js.truthy_opt (column_mapping_field req))
  then (Some (Response 400 (ErrorBody "Column mapping is required")), w)
  else
  match json_parse sv (default "" (column_mapping_field req)) with
  | None => (Some (Response 500 (ErrorBody "Internal server error")), w)
  | Some columnMapping =>
      let w1 := set_jobs w
        (alter (fun j => set_status j "processing" (job_errors j) (Some columnMapping))
           id (upload_jobs w)) in
      match files w1 !! job_file_path uploadJob with
      | None => (None, w1)        (* the read stream fails; nothing handles it *)
      | Some content =>
          match csv_parse sv content with
          | inl message =>
              (Some (Response 500 (ErrorBody "Failed to parse CSV file")),
               set_jobs w1
                 (alter (fun j => set_status j "failed"
                            (Some [RowError 0 ("CSV parsing failed: " ++ message)])
                            (job_column_mapping j))
                    id (upload_jobs w1)))
          | inr rows =>
              on_end sv w1 id org uploadJob (read_rows sv columnMapping rows)
          end
      end
  end end end end end.

(** The requests the route goes through with: a POST with a job id by a
    member of the organization of a pending job, with a column mapping that
    parses to [columnMapping], the job's file being there and parsing to
    [rows]. *)
Definition processable (sv : services) (w : world) (req : request)
    (columnMapping : gmap string string) (rows : list (list string)) : Prop :=
  exists id user uploadJob mappingStr content,
    method req = "POST"
    /\ query_id req = Some id /\ Js.truthy id = true
    /\ authenticate sv (authorization req) = inr user
    /\ profile_org w user = Some (job_org_id uploadJob)
    /\ upload_jobs w !! id = Some uploadJob
    /\ job_status uploadJob = Some "pending"
    /\ form_parses req = true
    /\ column_mapping_field req = Some mappingStr /\ Js.truthy mappingStr = true
    /\ json_parse sv mappingStr = Some columnMapping
    /\ files w !! job_file_path uploadJob = Some content
    /\ csv_parse sv content = inr rows.

End CsvProcess.

(* ===================================================================== *)
(** ** The CSV upload route: [app/api/upload/csv/upload/route.ts] *)
(* ===================================================================== *)

Module CsvUpload.
Import Store.

(** What [request.formData()] and [formData.get('file')] give. *)
Inductive form : Type :=
| FormInvalid                                (* formData() throws *)
| FormNoFile                                 (* no 'file' entry *)
| FormText (value : string)                  (* 'file' is a text field *)
| FormFile (name content : string).          (* 'file' is a File *)

Record request : Type := Request {
  authorization : option string;
  body_form : form
}.

(** [csvContent.split('\n').filter(line => line.trim())] *)
Definition lines_of (csvContent : string) : list string :=
  List.filter (fun line => Js.truthy (Js.trim line)) (Js.split Js.newline csvContent).

(** [line.split(',')], each piece trimmed and stripped of its double
    quotes ([v.trim().replace(/\x22/g, '')]). *)
Definition fields_of (line : string) : list string :=
  (fun v => Js.remove_all Js.dquote (Js.trim v)) <$> Js.split Js.comma line.

(** [lines.slice(1, 6)] *)
Definition slice_1_6 (lines : list string) : list string := take 5 (drop 1 lines).

(** [path.join(process.cwd(), 'uploads')] *)
Definition uploadsDir (sv : services) : string := Path.join [cwd sv; "uploads"].

(** [path.join(uploadsDir, `${timestamp}-${file.name}`)] *)
Definition filepath_of (sv : services) (name : string) : string :=
  Path.join [uploadsDir sv; now sv ++ "-" ++ name].

(** The answer of the [catch] block, which cleans nothing up. *)
Definition caught : response := Response 500 (ErrorBody "Internal server error").

(** [fs.unlinkSync(filepath)] followed by the answer [r]; when the call
    throws, the [catch] block answers and the file stays. *)
Definition clean_up (sv : services) (w1 : world) (filepath : string) (r : response)
  : response * world :=
  if fs_throws sv unlinkSync w1 filepath then (caught, w1)
  else (r, set_files w1 (delete filepath (files w1))).

(** The state once the file is written, and what it takes to get there and
    on to the preview: neither creating the uploads directory, nor writing
    the file, nor reading it back throws. *)
Definition written (sv : services) (w : world) (name content : string) : world :=
  set_files w (<[filepath_of sv name := content]> (files w)).

Definition saved (sv : services) (w : world) (name content : string) : Prop :=
  fs_throws sv mkdirSync w (uploadsDir sv) = false
  /\ fs_throws sv writeFileSync w (filepath_of sv name) = false
  /\ fs_throws sv readFileSync (written sv w name content) (filepath_of sv name) = false.

(** The [POST] handler. *)
Definition POST (sv : services) (w : world) (req : request) : response * world :=
  match authenticate sv (authorization req) with
  | inl r => (r, w)
  | inr user =>
  match profile_org w user with
  | None => (Response 400 (ErrorBody "User not associated with an organization"), w)
  | Some org =>
  match body_form req with
  | FormInvalid => (caught, w)
  | FormNoFile => (Response 400 (ErrorBody "No file uploaded"), w)
  | FormText value =>
      if Js.truthy value
      then (caught, w)                         (* file.name is undefined *)
      else (Response 400 (ErrorBody "No file uploaded"), w)
  | FormFile name content =>
  if negb (Js.endsWith name ".csv")
  then (Response 400 (ErrorBody "Only CSV files are allowed"), w)
  else
    if fs_throws sv mkdirSync w (uploadsDir sv) then (caught, w)
    else
    let filepath := filepath_of sv name in
    if fs_throws sv writeFileSync w filepath then (caught, w)
    else
    let w1 := set_files w (<[filepath := content]> (files w)) in
    if fs_throws sv readFileSync w1 filepath then (caught, w1)
    else
    let lines := lines_of content in
    match lines with
    | [] => clean_up sv w1 filepath (Response 400 (ErrorBody "CSV file is empty"))
    | first :: _ =>
        let headers := fields_of first in
        let sample_rows := fields_of <$> slice_1_6 lines in
        let total := Z.of_nat (length lines) - 1 in
        let job := UploadJob org user name filepath (Some "uploaded") total 0
                     headers (Some []) None in
        match new_job_id sv w1 job with
        | Some id =>
            match upload_jobs w1 !! id with
            | None =>
                (Response 200 (UploadBody id headers sample_rows total),
                 set_jobs w1 (<[id := job]> (upload_jobs w1)))
            | Some _ =>           (* primary key taken: the insert fails *)
                clean_up sv w1 filepath
                  (Response 500 (ErrorBody "Failed to create upload job"))
            end
        | None =>
            clean_up sv w1 filepath
              (Response 500 (ErrorBody "Failed to create upload job"))
        end
    end
  end end end.

End CsvUpload.

(* ===================================================================== *)
(** ** The CSV preview route (pages API handler answering a [CSVPreview]) *)
(* ===================================================================== *)

Module CsvPreview.
Import Store.

Record request : Type := Request {
  method : string;
  authorization : option string;
  (* whether formidable's form.parse(req) succeeds on a request whose file,
     if any, is not empty *)
  form_parses : bool;
  (* the content of the file sent in the field 'file', if any *)
  file : option string
}.

Record CSVPreview : Type := Preview {
  headers : list string;
  sample_rows : list (list string);
  total_rows : Z
}.

Inductive body : Type :=
| ErrorBody (msg : string)
| PreviewBody (p : CSVPreview).

Record response : Type := Response { status : Z; payload : body }.

(** The variables of the ['data'] callback. *)
Record scan_state : Type := ScanState {
  st_headers : list string;
  isFirstRow : bool;
  rowCount : Z;
  sampleRows : list (list string)
}.

Definition on_data (st : scan_state) (rowArray : list string) : scan_state :=
  if isFirstRow st
  then ScanState rowArray false (rowCount st) (sampleRows st)
  else ScanState (st_headers st) false (rowCount st + 1)
         (if (length (sampleRows st) <? 5)%nat
          then sampleRows st ++ [rowArray] else sampleRows st).

Definition scan (rows : list (list string)) : scan_state :=
  fold_left on_data rows (ScanState [] true 0 []).

(** The handler; the temporary file formidable writes is deleted again on
    both outcomes, so the persisted state is not part of the result. *)
Definition handler (sv : services) (req : request) : response :=
  if negb (String.eqb (method req) "POST")
  then Response 405 (ErrorBody "Method not allowed")
  else
    match authenticate sv (authorization req) with
    | inl r =>
        Response (Store.status r)
          (match Store.payload r with
           | Store.ErrorBody m => ErrorBody m
           | _ => ErrorBody ""
           end)
    | inr _ =>
        (* formidable rejects an empty file (allowEmptyFiles is false):
           form.parse throws *)
        if negb (form_parses req) || bool_decide (file req = Some "")
        then Response 500 (ErrorBody "Internal server error")
        else
        match file req with
        | None => Response 400 (ErrorBody "No file uploaded")
        | Some content =>
            match csv_parse sv content with
            | inl _ => Response 500 (ErrorBody "Failed to parse CSV file")
            | inr rows =>
                let st := scan rows in
                Response 200
                  (PreviewBody (Preview (st_headers st) (sampleRows st) (rowCount st)))
            end
        end
    end.

End CsvPreview.

(* ===================================================================== *)
(** ** The campaign proxy routes: [app/api/campaigns/[id]/...] *)
(* ===================================================================== *)

Module Proxy.

(** The request a route passes to [fetch]. *)
Record backend_request : Type := BackendRequest {
  url : string;
  http_method : string;
  sent_body : option string
}.

(** The outcome of [fetch]: it throws, or it gives a response with a status
    and a body; [response.json()] gives the parsed body or throws ([None]). *)
Inductive fetch_result : Type :=
| FetchThrows
| FetchResponse (status : Z) (json : option string).

(** [response.ok] *)
Definition ok (status : Z) : bool := (200 <=? status) && (status <=? 299).

Inductive body : Type :=
| Relay (json : string)                 (* the backend's body, passed on *)
| Detail (msg : string)                 (* { detail: msg } *)
| Message (msg : string).               (* { message: msg } *)

Record response : Type := Response { status : Z; payload : body }.

(** The incoming request, as far as the routes look at it. The routes
    never read the Authorization header. *)
Record request : Type := Request {
  params_id : string;
  authorization : option string;
  search : string;                       (* searchParams.toString() *)
  json_body : option string              (* request.json(), None if it throws *)
}.

(** [NextResponse.json(body, { status })]: the [Response] constructor
    throws a RangeError for a status outside 200..599. *)
Definition NextResponse_json (b : body) (status : Z) : option response :=
  if (200 <=? status) && (status <=? 599) then Some (Response status b) else None.

(** The body shared by the routes: the [try] block after [fetch] and the
    [catch] block. [on_ok] is what the route answers to an OK response. *)
Definition relay (failure : string) (on_ok : option string -> option response)
    (r : fetch_result) : response :=
  let caught := Response 500 (Detail failure) in
  match r with
  | FetchThrows => caught
  | FetchResponse st json =>
      if negb (ok st)
      then match json with
           | None => caught
           | Some error => default caught (NextResponse_json (Relay error) st)
           end
      else default caught (on_ok json)
  end.

(** [const data = await response.json(); return NextResponse.json(data)] *)
Definition pass_data (json : option string) : option response :=
  match json with
  | None => None
  | Some data => NextResponse_json (Relay data) 200
  end.

Section Routes.
Variable BACKEND_URL : string.
Variable fetch : backend_request -> fetch_result.

(** [app/api/campaigns/[id]/pause/route.ts] *)
Definition pause_POST (req : request) : response :=
  relay "Failed to pause campaign" pass_data
    (fetch (BackendRequest
              (BACKEND_URL ++ "/api/campaigns/" ++ params_id req ++ "/pause")
              "POST" None)).

(** [app/api/campaigns/[id]/messages/route.ts] *)
Definition messages_GET (req : request) : response :=
  relay "Failed to fetch campaign messages" pass_data
    (fetch (BackendRequest
              (BACKEND_URL ++ "/api/campaigns/" ++ params_id req
                 ++ "/messages?" ++ search req)
              "GET" None)).

(** [app/api/campaigns/[id]/route.ts]: GET, PUT and DELETE. *)
Definition campaign_GET (req : request) : response :=
  relay "Failed to fetch campaign" pass_data
    (fetch (BackendRequest (BACKEND_URL ++ "/api/campaigns/" ++ params_id req)
              "GET" None)).

Definition campaign_PUT (req : request) : response :=
  match json_body req with
  | None => Response 500 (Detail "Failed to update campaign")
  | Some body =>
      relay "Failed to update campaign" pass_data
        (fetch (BackendRequest (BACKEND_URL ++ "/api/campaigns/" ++ params_id req)
                  "PUT" (Some body)))
  end.

Definition campaign_DELETE (req : request) : response :=
  relay "Failed to delete campaign"
    (fun _ => NextResponse_json (Message "Campaign deleted successfully") 200)
    (fetch (BackendRequest (BACKEND_URL ++ "/api/campaigns/" ++ params_id req)
              "DELETE" None)).

End Routes.

(** The campaign proxy routes of the sources, with their failure messages. *)
Definition routes : list (string * (string -> (backend_request -> fetch_result)
                                    -> request -> response)) :=
  [("Failed to pause campaign", pause_POST);
   ("Failed to fetch campaign messages", messages_GET);
   ("Failed to fetch campaign", campaign_GET);
   ("Failed to update campaign", campaign_PUT);
   ("Failed to delete campaign", campaign_DELETE)].

End Proxy.

(* ===================================================================== *)
(** ** The [CampaignExecution] component: which actions are offered *)
(* ===================================================================== *)

Module CampaignExecution.

Inductive action : Type := start | stop | pause | resume.

Definition action_name (a : action) : string :=
  match a with
  | start => "start" | stop => "stop" | pause => "pause" | resume => "resume"
  end.

Definition canStart (campaignStatus : string) : bool :=
  String.eqb campaignStatus "draft" || String.eqb campaignStatus "scheduled".
Definition canPause (campaignStatus : string) : bool :=
  String.eqb campaignStatus "active".
Definition canResume (campaignStatus : string) : bool :=
  String.eqb campaignStatus "paused".
Definition canStop (campaignStatus : string) : bool :=
  String.eqb campaignStatus "active" || String.eqb campaignStatus "paused".

(** The buttons rendered, in order: [{canStart && ...}], [{canPause && ...}],
    [{canResume && ...}], [{canStop && ...}]. *)
Definition offered (campaignStatus : string) : list action :=
  (if canStart campaignStatus then [start] else [])
  ++ (if canPause campaignStatus then [pause] else [])
  ++ (if canResume campaignStatus then [resume] else [])
  ++ (if canStop campaignStatus then [stop] else []).

(** [handleCampaignAction]: the request a button sends. *)
Definition action_request (campaignId : string) (a : action) : string * string :=
  ("POST", "/api/campaigns/" ++ campaignId ++ "/" ++ action_name a).

End CampaignExecution.

(* ===================================================================== *)
(** ** The relational schema: [database_schema.sql] and the migrations *)
(* ===================================================================== *)

Module Schema.

Inductive value : Type :=
| VNull
| VText (s : string)          (* UUID, VARCHAR, TEXT, TIMESTAMP, JSONB *)
| VInt (z : Z)                (* INTEGER *)
| VBool (b : bool).           (* BOOLEAN *)

#[global] Instance value_eq_dec : EqDecision value.
Proof. solve_decision. Defined.

Inductive col_type : Type := TText | TInt | TBool.

(** The clauses of a [CREATE TABLE] statement. The primary key [id] is the
    key of the table map and is not listed. *)
Inductive constraint : Type :=
| Column (col : string) (ty : col_type)
| NotNull (col : string)
| Default (col : string) (v : value)
| CheckIn (col : string) (vals : list string)     (* CHECK (col IN (...)) *)
| CheckBetween (col : string) (lo hi : Z)         (* CHECK (col >= lo AND col <= hi) *)
| Unique (col : string)
| References (col table : string) (on_delete_cascade : bool).

(** A row gives a value to some columns; the others are NULL. *)
Definition get (r : gmap string value) (col : string) : value :=
  default VNull (r !! col).

Definition has_type (v : value) (ty : col_type) : bool :=
  match v, ty with
  | VNull, _ => true
  | VText _, TText => true
  | VInt z, TInt => (-2147483648 <=? z) && (z <=? 2147483647)
  | VBool _, TBool => true
  | _, _ => false
  end.

(** SQL's three-valued logic: a comparison with NULL is unknown ([None]),
    and a CHECK constraint is violated only by [false]. *)
Definition sql_in (v : value) (vals : list string) : option bool :=
  match v with
  | VNull => None
  | VText s => Some (bool_decide (s ∈ vals))
  | _ => Some false
  end.

Definition sql_between (v : value) (lo hi : Z) : option bool :=
  match v with
  | VNull => None
  | VInt z => Some ((lo <=? z) && (z <=? hi))
  | _ => Some false
  end.

Definition check_passes (r : option bool) : bool :=
  match r with Some false => false | _ => true end.

Definition declares (def : list constraint) (col : string) : bool :=
  existsb (fun c => match c with Column c' _ => String.eqb c' col | _ => false end) def.

(** The constraints that look at the new row alone. *)
Definition row_ok (r : gmap string value) (c : constraint) : bool :=
  match c with
  | Column col ty => has_type (get r col) ty
  | NotNull col => negb (bool_decide (get r col = VNull))
  | CheckIn col vals => check_passes (sql_in (get r col) vals)
  | CheckBetween col lo hi => check_passes (sql_between (get r col) lo hi)
  | _ => true
  end.

(** UNIQUE: no other row holds the same non-NULL value. *)
Definition unique_ok (tbl : gmap string (gmap string value)) (id : string)
    (r : gmap string value) (c : constraint) : bool :=
  match c with
  | Unique col =>
      match get r col with
      | VNull => true
      | v => bool_decide (map_Forall (fun id' r' => id' = id \/ get r' col <> v) tbl)
      end
  | _ => true
  end.

(** REFERENCES: the value is NULL or the key of a row of the other table;
    [refs table key] tells whether that row exists. *)
Definition fk_ok (refs : string -> string -> bool) (r : gmap string value)
    (c : constraint) : bool :=
  match c with
  | References col table _ =>
      match get r col with
      | VNull => true
      | VText k => refs table k
      | _ => false
      end
  | _ => true
  end.

(** Columns the statement leaves out take their DEFAULT. *)
Definition apply_defaults (def : list constraint) (r : gmap string value)
  : gmap string value :=
  foldr (fun c acc =>
           match c with
           | Default col v => match acc !! col with None => <[col := v]> acc | _ => acc end
           | _ => acc
           end) r def.

Definition accepts (refs : string -> string -> bool) (def : list constraint)
    (tbl : gmap string (gmap string value)) (id : string) (r : gmap string value)
  : bool :=
  bool_decide (map_Forall (fun col _ => declares def col = true) r)
  && forallb (row_ok r) def
  && forallb (unique_ok tbl id r) def
  && forallb (fk_ok refs r) def.

(** [INSERT INTO t (id, cols...) VALUES (...)]; [None] is an error. *)
Definition insert_row (refs : string -> string -> bool) (def : list constraint)
    (tbl : gmap string (gmap string value)) (id : string) (r : gmap string value)
  : option (gmap string (gmap string value)) :=
  let r' := apply_defaults def r in
  match tbl !! id with
  | Some _ => None
  | None => if accepts refs def tbl id r' then Some (<[id := r']> tbl) else None
  end.

(** [UPDATE t SET cols... WHERE id = ...]; no row with that id is no error. *)
Definition update_row (refs : string -> string -> bool) (def : list constraint)
    (tbl : gmap string (gmap string value)) (id : string) (changes : gmap string value)
  : option (gmap string (gmap string value)) :=
  match tbl !! id with
  | None => Some tbl
  | Some r =>
      let r' := changes ∪ r in
      if accepts refs def tbl id r' then Some (<[id := r']> tbl) else None
  end.

Inductive statement : Type :=
| Insert (id : string) (r : gmap string value)
| Update (id : string) (changes : gmap string value)
| Delete (id : string).

(** One statement on one table; a rejected statement changes nothing. *)
Definition exec (refs : string -> string -> bool) (def : list constraint)
    (tbl : gmap string (gmap string value)) (s : statement)
  : gmap string (gmap string value) :=
  match s with
  | Insert id r => default tbl (insert_row refs def tbl id r)
  | Update id changes => default tbl (update_row refs def tbl id changes)
  | Delete id => delete id tbl
  end.

(** *** Table definitions *)

Definition campaign_statuses : list string :=
  ["draft"; "scheduled"; "active"; "paused"; "completed"; "cancelled"].

(** [CREATE TABLE campaigns] of database_schema.sql. *)
Definition campaigns_def : list constraint :=
  [ Column "org_id" TText; References "org_id" "orgs" true;
    Column "user_id" TText; References "user_id" "users" true;
    Column "name" TText; NotNull "name";
    Column "channel" TText; NotNull "channel";
    CheckIn "channel" ["whatsapp"; "email"; "both"];
    Column "message_template" TText; NotNull "message_template";
    Column "ai_enabled" TBool; Default "ai_enabled" (VBool false);
    Column "delay_hours" TInt; Default "delay_hours" (VInt 24);
    Column "status" TText; Default "status" (VText "draft");
    CheckIn "status" campaign_statuses;
    Column "scheduled_at" TText; Column "started_at" TText;
    Column "completed_at" TText; Column "created_at" TText;
    Column "updated_at" TText ].

(** [CREATE TABLE IF NOT EXISTS campaigns] of phase1_schema.sql (and the
    second, plain [CREATE TABLE campaigns] of database_schema.sql). *)
Definition campaigns_phase1_def : list constraint :=
  [ Column "org_id" TText; References "org_id" "orgs" false;
    Column "name" TText; NotNull "name";
    Column "channel" TText; NotNull "channel";
    Column "message_template" TText; NotNull "message_template";
    Column "ai_enabled" TBool; Default "ai_enabled" (VBool false);
    Column "delay_hours" TInt; Default "delay_hours" (VInt 24);
    Column "status" TText; Default "status" (VText "draft");
    Column "scheduled_at" TText; Column "created_at" TText;
    Column "updated_at" TText ].

(** [CREATE TABLE messages] of database_schema.sql. *)
Definition messages_schema_def : list constraint :=
  [ Column "guest_id" TText; References "guest_id" "guests" true;
    Column "campaign_id" TText; References "campaign_id" "campaigns" true;
    Column "content" TText; NotNull "content";
    Column "channel" TText; NotNull "channel";
    CheckIn "channel" ["whatsapp"; "email"];
    Column "status" TText; Default "status" (VText "pending");
    CheckIn "status" ["pending"; "queued"; "sent"; "delivered"; "read";
                      "failed"; "cancelled"];
    Column "provider_msg_id" TText;
    Column "ai_generated" TBool; Default "ai_generated" (VBool false);
    Column "scheduled_at" TText; Column "sent_at" TText;
    Column "delivered_at" TText; Column "read_at" TText;
    Column "failed_at" TText; Column "error_message" TText;
    Column "created_at" TText; Column "updated_at" TText ].

(** The messages table after migration 003, which adds
    [retry_count INTEGER DEFAULT 0]. *)
Definition messages_def : list constraint :=
  messages_schema_def ++ [ Column "retry_count" TInt; Default "retry_count" (VInt 0) ].

(** [CREATE TABLE events] of database_schema.sql. *)
Definition events_def : list constraint :=
  [ Column "message_id" TText; References "message_id" "messages" true;
    Column "event_type" TText; NotNull "event_type";
    CheckIn "event_type" ["sent"; "delivered"; "read"; "failed"; "bounced";
                          "complained"];
    Column "timestamp" TText; Column "payload" TText;
    Default "payload" (VText "{}");
    Column "provider" TText; Column "created_at" TText ].

(** [CREATE TABLE IF NOT EXISTS events] of migration 003. *)
Definition events_003_def : list constraint :=
  [ Column "message_id" TText; References "message_id" "messages" true;
    Column "event_type" TText; NotNull "event_type";
    Column "timestamp" TText; Column "payload" TText;
    Column "created_at" TText ].

(** [CREATE TABLE reviews] of database_schema.sql. *)
Definition reviews_def : list constraint :=
  [ Column "guest_id" TText; References "guest_id" "guests" true;
    Column "google_review_id" TText; Unique "google_review_id";
    Column "rating" TInt; NotNull "rating"; CheckBetween "rating" 1 5;
    Column "text" TText; Column "author_name" TText;
    Column "review_date" TText; Column "response_text" TText;
    Column "response_date" TText;
    Column "source" TText; Default "source" (VText "google");
    CheckIn "source" ["google"; "booking"; "makemytrip"; "manual"];
    Column "created_at" TText; Column "updated_at" TText ].

(** [CREATE TABLE IF NOT EXISTS reviews] of the Google reviews migration. *)
Definition reviews_migration_def : list constraint :=
  [ Column "guest_id" TText; References "guest_id" "guests" false;
    Column "google_review_id" TText; Unique "google_review_id";
    Column "rating" TInt; NotNull "rating";
    Column "text" TText; Column "author_name" TText;
    Column "review_date" TText; Column "response_text" TText;
    Column "response_date" TText;
    Column "source" TText; Default "source" (VText "google");
    Column "created_at" TText; Column "updated_at" TText ].

(** *** Data definition statements *)

Inductive ddl : Type :=
| CreateTable (name : string) (def : list constraint)
| CreateTableIfNotExists (name : string) (def : list constraint)
| AddColumnIfNotExists (table col : string) (ty : col_type) (default : option value).

(** [CREATE TABLE] on an existing table is an error and [IF NOT EXISTS]
    skips it: either way the existing definition stays. [ALTER TABLE ... ADD
    COLUMN IF NOT EXISTS] appends a column the table does not have yet. *)
Definition exec_ddl (catalog : gmap string (list constraint)) (s : ddl)
  : gmap string (list constraint) :=
  match s with
  | CreateTable name def | CreateTableIfNotExists name def =>
      match catalog !! name with
      | Some _ => catalog
      | None => <[name := def]> catalog
      end
  | AddColumnIfNotExists table col ty default =>
      match catalog !! table with
      | Some def =>
          if declares def col then catalog
          else <[table := (def ++ Column col ty
                             :: match default with
                                | Some v => [Default col v]
                                | None => []
                                end)%list]> catalog
      | None => catalog
      end
  end.

(** The statements of the scripts on the tables above, in file order. *)
Definition database_schema_sql : list ddl :=
  [ CreateTable "campaigns" campaigns_def;
    CreateTable "messages" messages_schema_def;
    CreateTable "events" events_def;
    CreateTable "reviews" reviews_def;
    CreateTable "campaigns" campaigns_phase1_def ].

Definition phase1_schema_sql : list ddl :=
  [ CreateTableIfNotExists "campaigns" campaigns_phase1_def ].

Definition migration_003_sql : list ddl :=
  [ CreateTableIfNotExists "events" events_003_def;
    AddColumnIfNotExists "messages" "retry_count" TInt (Some (VInt 0));
    AddColumnIfNotExists "messages" "delivered_at" TText None;
    AddColumnIfNotExists "messages" "read_at" TText None;
    AddColumnIfNotExists "messages" "failed_at" TText None ].

Definition reviews_migration_sql : list ddl :=
  [ CreateTableIfNotExists "reviews" reviews_migration_def ].

Definition run_script (catalog : gmap string (list constraint)) (script : list ddl)
  : gmap string (list constraint) :=
  fold_left exec_ddl script catalog.

(** The catalog after the set-up the README describes: database_schema.sql
    as the main schema, then phase1_schema.sql, then the migrations. Each
    statement is executed on its own, as psql does. *)
Definition installed : gmap string (list constraint) :=
  run_script
    (run_script
       (run_script (run_script ∅ database_schema_sql) phase1_schema_sql)
       migration_003_sql)
    reviews_migration_sql.

(** *** Messages and their events *)

Record db : Type := Db {
  messages : gmap string (gmap string value);
  events : gmap string (gmap string value)
}.

Inductive db_statement : Type :=
| OnMessages (s : statement)
| OnEvents (s : statement).

(** Rows of other tables ([guests], [campaigns]) are taken to exist; a
    reference to [messages] is looked up. *)
Definition refs_of (d : db) (table key : string) : bool :=
  if String.eqb table "messages" then bool_decide (is_Some (messages d !! key))
  else true.

(** [ON DELETE CASCADE]: the events of a deleted message go with it. *)
Definition cascade_events (id : string) (ev : gmap string (gmap string value))
  : gmap string (gmap string value) :=
  filter (fun kv => get kv.2 "message_id" <> VText id) ev.

Definition exec_db (d : db) (s : db_statement) : db :=
  match s with
  | OnMessages (Delete id) =>
      Db (delete id (messages d)) (cascade_events id (events d))
  | OnMessages s' => Db (exec (refs_of d) messages_def (messages d) s') (events d)
  | OnEvents s' => Db (messages d) (exec (refs_of d) events_def (events d) s')
  end.

Definition run_db (d : db) (ss : list db_statement) : db := fold_left exec_db ss d.

(** *** What the constraints are to guarantee *)

(** The rating of a reviews row is an integer between 1 and 5. *)
Definition rating_ok (r : gmap string value) : Prop :=
  exists z, get r "rating" = VInt z /\ 1 <= z <= 5.

(** The status of a campaigns row is NULL or one of the six values. *)
Definition status_ok (r : gmap string value) : Prop :=
  get r "status" = VNull
  \/ exists s, get r "status" = VText s /\ s ∈ campaign_statuses.

(** The message_id of an events row is NULL or the key of a message. *)
Definition ref_ok (d : db) (e : gmap string value) : Prop :=
  get e "message_id" = VNull
  \/ exists m, get e "message_id" = VText m
               /\ is_Some (messages d !! m).

End Schema.


(* ===================================================================== *)
(** ** The retry policy of the e-mail integration guide *)
(* ===================================================================== *)

Module Retry.

(** Modelled from the spec: the retry logic of the backend's e-mail service
    and message dispatcher ([backend/services/email_service.py],
    [backend/services/message_dispatcher.py]), which are not among the
    sources. The guide states failed e-mails are retried up to 3 times and
    gives the retry delays as 1min, 5min, 15min; migration 003 adds the
    counter [messages.retry_count] with default 0. *)
Definition max_retries : Z := 3.

(** Modelled from the spec: the delay, in minutes, before the retry that
    follows [retry_count] earlier retries. *)
Definition backoff_minutes (retry_count : Z) : Z :=
  if retry_count =? 0 then 1 else if retry_count =? 1 then 5 else 15.

(** Modelled from the spec: the columns of a messages row the retry logic
    works on. *)
Record message : Type := Message {
  status : string;          (* 'queued', 'sent' or 'failed' *)
  retry_count : Z;
  scheduled_at : Z          (* minutes *)
}.

(** Modelled from the spec: a message queued for its first delivery, with
    the counter at the migration's default. *)
Definition fresh (scheduled_at : Z) : message := Message "queued" 0 scheduled_at.

(** Modelled from the spec: a failed delivery at time [now] schedules a
    retry while fewer than [max_retries] retries were made, and otherwise
    leaves the message failed. *)
Definition on_failure (now : Z) (m : message) : message :=
  if retry_count m <? max_retries
  then Message "queued" (retry_count m + 1) (now + backoff_minutes (retry_count m))
  else Message "failed" (retry_count m) (scheduled_at m).

(** Modelled from the spec: a delivery the provider accepts. *)
Definition on_success (m : message) : message :=
  Message "sent" (retry_count m) (scheduled_at m).

(** Modelled from the spec: one delivery attempt, made at the scheduled
    time of a queued message; [delivered] is the provider's answer. Messages
    that are not queued are not attempted. *)
Definition attempt (m : message) (delivered : bool) : message :=
  if String.eqb (status m) "queued"
  then if delivered then on_success m else on_failure (scheduled_at m) m
  else m.

(** Modelled from the spec: the attempts made on one message, given the
    provider's answers in order. *)
Definition run (m : message) (outcomes : list bool) : message :=
  fold_left attempt outcomes m.

(** Modelled from the spec: the delay between each failed attempt of a run
    and the retry scheduled after it. *)
Fixpoint delays (m : message) (outcomes : list bool) : list Z :=
  match outcomes with
  | [] => []
  | delivered :: rest =>
      let m' := attempt m delivered in
      if String.eqb (status m') "queued"
      then (scheduled_at m' - scheduled_at m) :: delays m' rest
      else delays m' rest
  end.

(** Modelled from the spec: what every message reached from a fresh one
    satisfies. *)
Definition retry_inv (m : message) : Prop :=
  0 <= retry_count m <= 3
  /\ (status m = "failed" -> retry_count m = 3).

End Retry.

(* ===================================================================== *)
(** ** A small installation, used to run the routes on concrete inputs *)
(* ===================================================================== *)

Module Sample.
Import Store.

Definition mapping : gmap string string :=
  {[ "Name" := "name"; "Email" := "email" ]}.

(** The JSON text of the mapping. *)
Definition quoted (s : string) : string := String Js.dquote (s ++ String Js.dquote "").

Definition mapping_json : string :=
  "{" ++ quoted "Name" ++ ":" ++ quoted "name" ++ ","
      ++ quoted "Email" ++ ":" ++ quoted "email" ++ "}".

(** A header row, two well-formed rows, a row with a malformed address,
    and a row with a malformed address and no name. *)
Definition rows : list (list string) :=
  [ ["Name"; "Email"];
    ["Ann"; "ann@example.com"];
    ["Bob"; "bob-at-example"];
    ["Cy"; " cy@example.org "];
    [""; "nobody"] ].

(** The file with these rows. *)
Definition guests_csv : string :=
  Js.join (String Js.newline "")
    [ "Name,Email"; "Ann,ann@example.com"; "Bob,bob-at-example";
      "Cy, cy@example.org "; ",nobody" ].

(** A reader for files without quotes and carriage returns: one row for
    each line, the cells being the pieces between the commas; it reports no
    error. *)
Fixpoint file_lines (pieces : list string) : list string :=
  match pieces with
  | [] => []
  | [last] => if String.eqb last "" then [] else [last]
  | piece :: rest => piece :: file_lines rest
  end.

Definition read_csv (content : string) : list (list string) :=
  (fun line => if String.eqb line "" then [] else Js.split Js.comma line)
    <$> file_lines (Js.split Js.newline content).

Definition sv : services :=
  Services
    (fun token => if String.eqb token "secret" then Some "user-1" else None)
    (fun s => if String.eqb s mapping_json then Some mapping else None)
    (fun content => inr (read_csv content))
    (fun _ => None)
    (fun _ _ => None)
    (fun _ _ => Some "job-2")
    "1700000000000"
    "/app"
    (* a disk where the uploads directory is the only directory there is to
       write a file to *)
    (fun call _ path =>
       match call with
       | writeFileSync => negb (String.eqb (Path.join [path; ".."]) "/app/uploads")
       | _ => false
       end).

Definition pending_job : upload_job :=
  UploadJob "org-1" "user-1" "guests.csv" "/app/uploads/1-guests.csv"
    (Some "pending") 4 0 ["Name"; "Email"] (Some []) None.

Definition w : world :=
  World {[ "user-1" := Some "org-1" ]}
        {[ "job-1" := pending_job ]}
        []
        {[ "/app/uploads/1-guests.csv" := guests_csv ]}.

(** A file of three lines, the second one blank. *)
Definition upload_content : string :=
  "Name, Email" ++ String Js.newline ("   " ++ String Js.newline "Ann,ann@example.com").

(** The same file after an empty first line. *)
Definition blank_first_content : string := String Js.newline upload_content.

Definition upload_request : CsvUpload.request :=
  CsvUpload.Request (Some "Bearer secret") (CsvUpload.FormFile "guests.csv" upload_content).

Definition process_request : CsvProcess.request :=
  CsvProcess.Request "POST" (Some "job-1") (Some "Bearer secret") true
    (Some mapping_json).

End Sample.

(* ===================================================================== *)
(** ** Predicates on strings and on mapped cells, to state what the routes do *)
(* ===================================================================== *)

Module Text.

(** Every code unit of the string is in the class. *)
Fixpoint every (p : ascii -> bool) (s : string) : bool :=
  match s with
  | EmptyString => true
  | String c s' => p c && every p s'
  end.

(** The number of occurrences of a code unit. *)
Fixpoint count (c : ascii) (s : string) : nat :=
  match s with
  | EmptyString => O
  | String d s' => if Ascii.eqb d c then S (count c s') else count c s'
  end.

(** The string has no occurrence of the code unit. *)
Definition free_of (c : ascii) (s : string) : bool :=
  every (fun d => negb (Ascii.eqb d c)) s.

End Text.

Module Mapping.

(** The customer field that column [header] is stored in, if any: the
    string the mapping gives for the header, unless it is empty, 'ignore' or
    '__proto__'; for a header the mapping has no entry for, the key of the
    property of that name that every object inherits. *)
Definition field_of (columnMapping : gmap string string) (header : string)
  : option string :=
  match columnMapping !! header with
  | Some k =>
      if String.eqb k "" || String.eqb k "ignore" || String.eqb k "__proto__"
      then None else Some k
  | None => Js.inherited header
  end.


(** What one step of the [forEach] stores, if anything: the field and the
    trimmed cell. *)
Definition write (columnMapping : gmap string string) (rowArray : list string)
    (header : string) (index : nat) : option (string * string) :=
  match field_of columnMapping header with
  | Some k =>
      if Js.truthy_opt (rowArray !! index)
      then
        let value := Js.trim (default "" (rowArray !! index)) in
        if Js.truthy value then Some (k, value) else None
      else None
  | None => None
  end.

End Mapping.

Module CsvProcessRuns.
Import Store CsvProcess.

(** The requests the process route takes as far as opening the file of the
    job: a POST with a job id by a member of the organization of the pending
    job [uploadJob], with a column mapping that parses. *)
Definition opens_file (sv : services) (w : world) (req : request) (id : string)
    (uploadJob : upload_job) : Prop :=
  method req = "POST"
  /\ query_id req = Some id /\ Js.truthy id = true
  /\ (exists user,
        authenticate sv (authorization req) = inr user
        /\ profile_org w user = Some (job_org_id uploadJob))
  /\ upload_jobs w !! id = Some uploadJob
  /\ job_status uploadJob = Some "pending"
  /\ form_parses req = true
  /\ (exists mappingStr columnMapping,
        column_mapping_field req = Some mappingStr /\ Js.truthy mappingStr = true
        /\ json_parse sv mappingStr = Some columnMapping).

End CsvProcessRuns.

(* ===================================================================== *)
(** ** The routes that require a Supabase session *)
(* ===================================================================== *)

Module SessionRoutes.

(** What [supabase.auth.getSession()] gives: the user's id and the access
    token. *)
Record session : Type := Session {
  user_id : string;
  access_token : string
}.

(** The body a route passes to [fetch]: JSON text, or the FormData of the
    confirm route. *)
Inductive sent : Type :=
| JsonBody (json : string)
| FormData (file filename column_mapping : string).

(** The request a route passes to [fetch], with the headers that differ
    between routes. *)
Record backend_request : Type := BackendRequest {
  url : string;
  http_method : string;
  authorization : option string;
  cookie : option string;
  sent_body : option sent
}.

Inductive body : Type :=
| Relay (json : string)                 (* the backend's body, passed on *)
| Detail (msg : string)                 (* { detail: msg } *)
| Error (msg : string).                 (* { error: msg } *)

Record response : Type := Response { status : Z; payload : body }.

(** The incoming request, as far as the routes look at it. *)
Record request : Type := Request {
  params_id : string;
  cookie_header : option string;         (* request.headers.get('cookie') *)
  authorization_header : option string;  (* never read by these routes *)
  search : string;                       (* searchParams.toString() *)
  days : option string;                  (* searchParams.get('days') *)
  json_body : option string;             (* request.json(), None if it throws *)
  (* the column_mapping property of request.json(), as JSON.stringify gives
     it back: outer None when reading it throws, inner None when the
     property is undefined *)
  column_mapping : option (option string)
}.

(** [NextResponse.json(body, { status })]: the [Response] constructor
    throws a RangeError for a status outside 200..599. *)
Definition NextResponse_json (b : body) (status : Z) : option response :=
  if (200 <=? status) && (status <=? 599) then Some (Response status b) else None.

(** The [try] block after [fetch] of the routes that pass a backend error
    on, and their [catch] block. An OK answer is passed on with status
    [ok_status]. *)
Definition relay (caught : response) (ok_status : Z) (r : Proxy.fetch_result)
  : response :=
  match r with
  | Proxy.FetchThrows => caught
  | Proxy.FetchResponse st json =>
      match json with
      | None => caught
      | Some data =>
          default caught
            (NextResponse_json (Relay data) (if negb (Proxy.ok st) then st else ok_status))
      end
  end.

(** The [try] block after [fetch] of the routes that throw on a backend
    error ([throw new Error(`HTTP error! status: ...`)]). *)
Definition ok_or_throw (caught : response) (r : Proxy.fetch_result) : response :=
  match r with
  | Proxy.FetchThrows => caught
  | Proxy.FetchResponse st json =>
      if negb (Proxy.ok st) then caught
      else match json with
           | None => caught
           | Some data => default caught (NextResponse_json (Relay data) 200)
           end
  end.

Definition unauthorized : response := Response 401 (Error "Unauthorized").

Definition bearer (s : session) : option string :=
  Some ("Bearer " ++ access_token s).

Section Routes.
Variable BACKEND_URL : string.              (* process.env.BACKEND_URL *)
Variable NEXT_PUBLIC_BACKEND_URL : string.  (* process.env.NEXT_PUBLIC_BACKEND_URL *)
Variable NEXTAUTH_URL : string.             (* process.env.NEXTAUTH_URL *)
(* supabase.auth.getSession() on the request's cookies *)
Variable getSession : option string -> option session.
Variable fetch : backend_request -> Proxy.fetch_result.
(* the org_id property of a parsed body: outer None when reading it throws
   (the body is null), inner None when it is missing or falsy *)
Variable org_id_of : string -> option (option string).
(* the upload job a select with the user's session gives, and the files *)
Variable select_job : session -> string -> option Store.upload_job.
Variable files : gmap string string.

(** Each route gives its answer and the requests it passed to [fetch], in
    order. *)

(** [app/api/google/connection-status/route.ts] *)
Definition connection_status_GET (req : request) : response * list backend_request :=
  match getSession (cookie_header req) with
  | None => (unauthorized, [])
  | Some s =>
      let call := BackendRequest
                    (NEXT_PUBLIC_BACKEND_URL ++ "/api/google/connection-status")
                    "GET" (bearer s) None None in
      (relay (Response 500 (Detail "Failed to fetch Google connection status")) 200
         (fetch call), [call])
  end.

(** The guests route: [GET]. *)
Definition guests_GET (req : request) : response * list backend_request :=
  match getSession (cookie_header req) with
  | None => (unauthorized, [])
  | Some s =>
      let call := BackendRequest (BACKEND_URL ++ "/guests?" ++ search req)
                    "GET" (bearer s) None None in
      (relay (Response 500 (Detail "Failed to fetch guests")) 200 (fetch call), [call])
  end.

(** The two requests of the guests [POST] route. *)
Definition ensure_org_call (req : request) : backend_request :=
  BackendRequest (NEXTAUTH_URL ++ "/api/users/ensure-org")
    "POST" None (Some (default "" (cookie_header req))) None.

Definition create_guest_call (s : session) (body : string) : backend_request :=
  BackendRequest (BACKEND_URL ++ "/guests") "POST" (bearer s) None (Some (JsonBody body)).

(** The guests route: [POST]. The user's organization is ensured first. *)
Definition guests_POST (req : request) : response * list backend_request :=
  match getSession (cookie_header req) with
  | None => (unauthorized, [])
  | Some s =>
      let orgCall := ensure_org_call req in
      let failed := Response 500 (Error "Failed to ensure user organization") in
      match fetch orgCall with
      | Proxy.FetchThrows => (failed, [orgCall])
      | Proxy.FetchResponse st json =>
          if negb (Proxy.ok st) then (failed, [orgCall])
          else
          match json with
          | None => (failed, [orgCall])
          | Some orgData =>
          match org_id_of orgData with
          | None => (failed, [orgCall])
          | Some None =>
              (Response 500 (Error "User organization could not be created"), [orgCall])
          | Some (Some _) =>
              let caught := Response 500 (Detail "Failed to create guest") in
              match json_body req with
              | None => (caught, [orgCall])
              | Some body =>
                  let call := create_guest_call s body in
                  (relay caught 201 (fetch call), [orgCall; call])
              end
          end end
      end
  end.

(** [app/api/upload/job/[id]/confirm/route.ts] *)
Definition confirm_POST (req : request) : response * list backend_request :=
  match getSession (cookie_header req) with
  | None => (unauthorized, [])
  | Some s =>
      let caught := Response 500 (Error "Failed to process CSV") in
      match column_mapping req with
      | None => (caught, [])
      | Some mapping =>
      match select_job s (params_id req) with
      | None => (Response 404 (Error "Upload job not found"), [])
      | Some uploadJob =>
      match files !! Store.job_file_path uploadJob with
      | None => (Response 404 (Error "File not found"), [])
      | Some content =>
          let call := BackendRequest
                        (BACKEND_URL ++ "/api/upload/csv/process/" ++ params_id req)
                        "POST" (bearer s) None
                        (Some (FormData content (Store.job_filename uploadJob)
                                 (default "undefined" mapping))) in
          (relay caught 200 (fetch call), [call])
      end end end
  end.

(** The conversations analytics route. *)
Definition analytics_GET (req : request) : response * list backend_request :=
  match getSession (cookie_header req) with
  | None => (unauthorized, [])
  | Some s =>
      let d := if Js.truthy_opt (days req) then default "" (days req) else "30" in
      let call := BackendRequest
                    (NEXT_PUBLIC_BACKEND_URL
                       ++ "/api/conversations/analytics/overview?days=" ++ d)
                    "GET" (bearer s) None None in
      (ok_or_throw (Response 500 (Error "Failed to fetch analytics")) (fetch call), [call])
  end.

(** The route adding a message to a conversation. *)
Definition conversation_messages_POST (req : request)
  : response * list backend_request :=
  match getSession (cookie_header req) with
  | None => (unauthorized, [])
  | Some s =>
      let caught := Response 500 (Error "Failed to add message") in
      match json_body req with
      | None => (caught, [])
      | Some body =>
          let call := BackendRequest
                        (NEXT_PUBLIC_BACKEND_URL ++ "/api/conversations/"
                           ++ params_id req ++ "/messages")
                        "POST" (bearer s) None (Some (JsonBody body)) in
          (ok_or_throw caught (fetch call), [call])
      end
  end.

(** The route configuring WhatsApp (no session is asked for). *)
Definition configure_whatsapp_POST (req : request) : response * list backend_request :=
  let caught := Response 500 (Detail "Failed to configure WhatsApp") in
  match json_body req with
  | None => (caught, [])
  | Some body =>
      let call := BackendRequest (BACKEND_URL ++ "/api/campaigns/configure-whatsapp")
                    "POST" None None (Some (JsonBody body)) in
      (relay caught 200 (fetch call), [call])
  end.

(** The ensure-org route answered OK with an organization id. *)
Definition org_ensured (req : request) : Prop :=
  exists st orgData o,
    fetch (ensure_org_call req) = Proxy.FetchResponse st (Some orgData)
    /\ Proxy.ok st = true
    /\ org_id_of orgData = Some (Some o).

(** The routes that ask for a session. *)
Definition session_routes : list (request -> response * list backend_request) :=
  [ connection_status_GET; guests_GET; guests_POST; confirm_POST;
    analytics_GET; conversation_messages_POST ].

End Routes.

End SessionRoutes.

(* ===================================================================== *)
(** ** Organizations: the ensure-org and create-user routes, and sign-up *)
(* ===================================================================== *)

Module Orgs.

(** Rows of [users] and [orgs], with the columns the routes read and write. *)
Record user_row : Type := UserRow {
  org_id : option string;
  email : string;
  full_name : option string
}.

Record org_row : Type := OrgRow {
  name : string;
  timezone : string;
  default_country : string
}.

Record world : Type := World {
  users : gmap string user_row;
  orgs : gmap string org_row
}.

(** What the routes call but the repository does not implement. *)
Record services : Type := Services {
  (* supabase.auth.getSession() on the request's cookies *)
  getSession : option string -> option SessionRoutes.session;
  (* insert into orgs: the id the database generates, or None on error *)
  new_org_id : world -> org_row -> option string;
  (* whether the update of the users row fails *)
  update_fails : world -> string -> string -> bool
}.

Inductive body : Type :=
| Error (msg : string)                  (* { error: msg } *)
| OrgId (org_id : string)               (* { org_id } *)
| Created (org_id : string).            (* { success: true, org_id } *)

Record response : Type := Response { status : Z; payload : body }.

(** [email.split('@')[0]] *)
Definition local_part (email : string) : string :=
  default "" (head (Js.split "@"%char email)).

(** [from('orgs').insert({ name, timezone: 'UTC', default_country: 'US' })
    .select().single()]: the new id and the state, or None on error. *)
Definition insert_org (sv : services) (w : world) (org_name : string)
  : option (string * world) :=
  let row := OrgRow org_name "UTC" "US" in
  match new_org_id sv w row with
  | Some id =>
      match orgs w !! id with
      | None => Some (id, World (users w) (<[id := row]> (orgs w)))
      | Some _ => None                   (* primary key taken *)
      end
  | None => None
  end.

(** [from('users').update({ org_id }).eq('id', id)] *)
Definition set_org (w : world) (id org : string) : world :=
  World (alter (fun u => UserRow (Some org) (email u) (full_name u)) id (users w))
        (orgs w).

(** The second half of both routes: create the organization and link the
    user to it. *)
Definition create_and_link (sv : services) (w : world) (id org_name : string)
    (answer : string -> body) : response * world :=
  match insert_org sv w org_name with
  | None => (Response 500 (Error "Failed to create organization"), w)
  | Some (org, w1) =>
      if update_fails sv w1 id org
      then (Response 500 (Error "Failed to update user"), w1)
      else (Response 200 (answer org), set_org w1 id org)
  end.

(** The ensure-org route ([POST /api/users/ensure-org]). *)
Definition ensure_org_POST (sv : services) (w : world) (cookie : option string)
  : response * world :=
  match getSession sv cookie with
  | None => (Response 401 (Error "Unauthorized"), w)
  | Some s =>
      match users w !! SessionRoutes.user_id s with
      | None => (Response 500 (Error "Failed to fetch user"), w)
      | Some userData =>
          if Js.truthy_opt (org_id userData)
          then (Response 200 (OrgId (default "" (org_id userData))), w)
          else
            create_and_link sv w (SessionRoutes.user_id s)
              ((if Js.truthy_opt (full_name userData)
                then default "" (full_name userData)
                else local_part (email userData)) ++ "'s Organization")
              OrgId
      end
  end.

(** The body of a create-user request: [{ id, email, full_name }]. *)
Record create_body : Type := CreateBody {
  cb_id : string;
  cb_email : option string;
  cb_full_name : option string
}.

(** The create-user route ([POST /api/users/create]); [None] stands for a
    body [request.json()] throws on. No session is asked for. *)
Definition users_create_POST (sv : services) (w : world) (body : option create_body)
  : response * world :=
  let caught := (Response 500 (Error "Internal server error"), w) in
  match body with
  | None => caught
  | Some b =>
      let owner :=
        if Js.truthy_opt (cb_full_name b) then Some (default "" (cb_full_name b))
        else local_part <$> cb_email b in     (* undefined.split throws *)
      match owner with
      | None => caught
      | Some o => create_and_link sv w (cb_id b) (o ++ "'s Organization") Created
      end
  end.

(** *** [signUp] of the AuthContext *)

Record auth_user : Type := AuthUser {
  au_id : string;
  au_email : option string;
  email_confirmed_at : option string
}.

(** What [supabase.auth.signUp] gives: an error, or [data] with its [user]. *)
Inductive signUp_answer : Type :=
| SignUpError (message : string)
| SignUpData (user : option auth_user).

Inductive effect : Type :=
| SetLoading (b : bool)
| Post (url : string) (body : create_body)     (* fetch(url, { method: 'POST', body }) *)
| ToastSuccess (msg : string)
| ToastError (msg : string)
| RefreshUser.

Definition create_post (u : auth_user) (fullName : string) : effect :=
  Post "/api/users/create" (CreateBody (au_id u) (au_email u) (Some fullName)).

(** [signUp(email, password, fullName)]: what it does after the answer of
    [supabase.auth.signUp], in order, and whether it rethrows. The answers to
    the posts are not looked at. *)
Definition signUp (answer : signUp_answer) (fullName : string) : list effect * bool :=
  match answer with
  | SignUpError message =>
      ([SetLoading true;
        ToastError (if Js.truthy message then message else "Failed to create account");
        SetLoading false], true)
  | SignUpData user =>
      let confirmed :=
        match user with
        | Some u => Js.truthy_opt (email_confirmed_at u)
        | None => false
        end in
      let first :=
        match user with
        | Some u => if confirmed then [create_post u fullName] else []
        | None => []
        end in
      let second :=
        match user with
        | Some u =>
            if negb confirmed
            then [ToastSuccess "Please check your email to confirm your account"]
            else [create_post u fullName;
                  ToastSuccess "Account created successfully!"; RefreshUser]
        | None =>                       (* data.user.id throws inside the try *)
            [ToastSuccess "Account created successfully!"; RefreshUser]
        end in
      (([SetLoading true] ++ first ++ second ++ [SetLoading false])%list, false)
  end.

(** The posts among the effects, in order. *)
Definition posts (es : list effect) : list (string * create_body) :=
  omap (fun e => match e with Post url body => Some (url, body) | _ => None end) es.

(** The server's side of the effects: each post to the create-user route is
    handled by it. *)
Definition serve (sv : services) (w : world) (e : effect) : world :=
  match e with
  | Post url body =>
      if String.eqb url "/api/users/create"
      then (users_create_POST sv w (Some body)).2
      else w
  | _ => w
  end.

Definition serve_all (sv : services) (w : world) (es : list effect) : world :=
  fold_left (serve sv) es w.

(** The [users] table as the CSV routes see it: id to [org_id]. *)
Definition profiles (w : world) : gmap string (option string) :=
  org_id <$> users w.

End Orgs.

(* ===================================================================== *)
(** ** The page creating a campaign: [app/campaigns/create/page.tsx] *)
(* ===================================================================== *)

Module CreateCampaign.

Inductive channel : Type := whatsapp | email | both.

Definition channel_name (c : channel) : string :=
  match c with whatsapp => "whatsapp" | email => "email" | both => "both" end.

Record formData : Type := FormData {
  name : string;
  channel_of : string;
  message_template : string;
  ai_enabled : bool;
  delay_hours : option Z;          (* parseInt gives NaN for no digits: None *)
  guest_ids : list string
}.

(** The component's state: the step shown, the form, the [loading] flag,
    the ids of the guests fetched, and the forms posted so far. *)
Record state : Type := State {
  currentStep : Z;
  form : formData;
  loading : bool;
  guests : list string;
  posted : list formData
}.

Definition initial : state :=
  State 1 (FormData "" "whatsapp" "" false (Some 24) []) false [] [].

Definition isStepValid (f : formData) (step : Z) : bool :=
  if step =? 1
  then negb (String.eqb (Js.trim (name f)) "") && negb (String.eqb (channel_of f) "")
  else if step =? 2 then negb (String.eqb (Js.trim (message_template f)) "")
  else if step =? 3 then (0 <? length (guest_ids f))%nat
  else if step =? 4 then true
  else false.

(** [text.substring(0, n)] and [text.substring(n)] for [0 <= n]. *)
Fixpoint substring_to (n : nat) (s : string) : string :=
  match n, s with
  | S n', String c s' => String c (substring_to n' s')
  | _, _ => EmptyString
  end.

Fixpoint substring_from (n : nat) (s : string) : string :=
  match n, s with
  | S n', String _ s' => substring_from n' s'
  | _, _ => s
  end.

(** The text [insertVariable] stores: the selection of the textarea is
    replaced by the variable. *)
Definition insertVariable (text : string) (selectionStart selectionEnd : nat)
    (variable : string) : string :=
  substring_to selectionStart text ++ variable ++ substring_from selectionEnd text.

(** What the user and the network do to the component. *)
Inductive event : Type :=
| SetName (v : string)                      (* step 1 *)
| ChooseChannel (c : channel)
| SetDelay (v : option Z)
| SetAi (b : bool)
| SetTemplate (v : string)                  (* step 2 *)
| InsertVariable (variable : string) (selectionStart selectionEnd : nat)
| SelectAll                                 (* step 3 *)
| ClearAll
| Toggle (id : string)
| Previous
| Next
| Submit
| SubmitSettled                             (* the finally block of handleSubmit *)
| GuestsLoaded (ids : list string).         (* fetchGuests resolves *)

Definition with_form (s : state) (f : formData) : state :=
  State (currentStep s) f (loading s) (guests s) (posted s).

Definition with_step (s : state) (n : Z) : state :=
  State n (form s) (loading s) (guests s) (posted s).

(** One event. A control that is not rendered on the current step, and a
    button that is disabled, does nothing. *)
Definition step (s : state) (e : event) : state :=
  let f := form s in
  match e with
  | SetName v =>
      if currentStep s =? 1
      then with_form s (FormData v (channel_of f) (message_template f) (ai_enabled f)
                          (delay_hours f) (guest_ids f))
      else s
  | ChooseChannel c =>
      if currentStep s =? 1
      then with_form s (FormData (name f) (channel_name c) (message_template f)
                          (ai_enabled f) (delay_hours f) (guest_ids f))
      else s
  | SetDelay v =>
      if currentStep s =? 1
      then with_form s (FormData (name f) (channel_of f) (message_template f)
                          (ai_enabled f) v (guest_ids f))
      else s
  | SetAi b =>
      if currentStep s =? 1
      then with_form s (FormData (name f) (channel_of f) (message_template f) b
                          (delay_hours f) (guest_ids f))
      else s
  | SetTemplate v =>
      if currentStep s =? 2
      then with_form s (FormData (name f) (channel_of f) v (ai_enabled f)
                          (delay_hours f) (guest_ids f))
      else s
  | InsertVariable variable selectionStart selectionEnd =>
      if currentStep s =? 2
      then with_form s (FormData (name f) (channel_of f)
                          (insertVariable (message_template f) selectionStart
                             selectionEnd variable)
                          (ai_enabled f) (delay_hours f) (guest_ids f))
      else s
  | SelectAll =>
      if currentStep s =? 3
      then with_form s (FormData (name f) (channel_of f) (message_template f)
                          (ai_enabled f) (delay_hours f) (guests s))
      else s
  | ClearAll =>
      if currentStep s =? 3
      then with_form s (FormData (name f) (channel_of f) (message_template f)
                          (ai_enabled f) (delay_hours f) [])
      else s
  | Toggle id =>
      (* the checkbox of a fetched guest; it is checked when the id is
         selected, so a click unchecks a selected guest and checks another *)
      if (currentStep s =? 3) && bool_decide (id ∈ guests s)
      then with_form s (FormData (name f) (channel_of f) (message_template f)
                          (ai_enabled f) (delay_hours f)
                          (if bool_decide (id ∈ guest_ids f)
                           then List.filter (fun i => negb (String.eqb i id)) (guest_ids f)
                           else (guest_ids f ++ [id])%list))
      else s
  | Previous =>
      if currentStep s =? 1 then s
      else with_step s (Z.max 1 (currentStep s - 1))
  | Next =>
      if (currentStep s <? 4) && isStepValid f (currentStep s)
      then with_step s (currentStep s + 1)
      else s
  | Submit =>
      if (currentStep s <? 4) || loading s || negb (isStepValid f (currentStep s))
      then s
      else State (currentStep s) f true (guests s) (posted s ++ [f])%list
  | SubmitSettled => State (currentStep s) f false (guests s) (posted s)
  | GuestsLoaded ids => State (currentStep s) f (loading s) ids (posted s)
  end.

Definition run (es : list event) : state := fold_left step es initial.

(** What is true of every form posted. *)
Definition complete (f : formData) : Prop :=
  Js.trim (name f) <> ""
  /\ Js.trim (message_template f) <> ""
  /\ guest_ids f <> []
  /\ channel_of f ∈ ["whatsapp"; "email"; "both"].

(** What holds of every state reached: the steps before the one shown are
    valid, and the forms posted were complete. *)
Definition inv (s : state) : Prop :=
  let f := form s in
  1 <= currentStep s <= 4
  /\ channel_of f ∈ ["whatsapp"; "email"; "both"]
  /\ (2 <= currentStep s -> Js.trim (name f) <> "")
  /\ (3 <= currentStep s -> Js.trim (message_template f) <> "")
  /\ (4 <= currentStep s -> guest_ids f <> [])
  /\ Forall complete (posted s).

End CreateCampaign.

(* ===================================================================== *)
(** ** The campaign detail page: which buttons it shows *)
(* ===================================================================== *)

Module CampaignDetail.

Inductive action : Type := start | pause | resume | stop | delete.

(** The buttons rendered for a campaign, in order; a button is disabled
    while an action is under way ([actionLoading]). *)
Definition buttons (status : string) : list action :=
  (if String.eqb status "draft" then [start] else [])
  ++ (if String.eqb status "active" then [pause; stop] else [])
  ++ (if String.eqb status "paused" then [resume] else [])
  ++ (if existsb (String.eqb status) ["draft"; "completed"; "cancelled"]
      then [delete] else []).

Definition offered (status : string) (actionLoading : bool) : list action :=
  if actionLoading then [] else buttons status.

(** [handleCampaignAction]: the request sent, if any; [confirmed] is the
    answer to the confirmation dialog of a deletion. *)
Definition action_request (campaignId : string) (a : action) (confirmed : bool)
  : option (string * string) :=
  match a with
  | start => Some ("POST", "/api/campaigns/" ++ campaignId ++ "/start")
  | pause => Some ("POST", "/api/campaigns/" ++ campaignId ++ "/pause")
  | resume => Some ("POST", "/api/campaigns/" ++ campaignId ++ "/resume")
  | stop => Some ("POST", "/api/campaigns/" ++ campaignId ++ "/stop")
  | delete =>
      if confirmed then Some ("DELETE", "/api/campaigns/" ++ campaignId) else None
  end.

(** The action of the [CampaignExecution] component with the same name. *)
Definition lifecycle (a : action) : option CampaignExecution.action :=
  match a with
  | start => Some CampaignExecution.start
  | pause => Some CampaignExecution.pause
  | resume => Some CampaignExecution.resume
  | stop => Some CampaignExecution.stop
  | delete => None
  end.

End CampaignDetail.

(* ===================================================================== *)
(** ** The pager of the campaigns and conversations lists *)
(* ===================================================================== *)

Module Pager.

Record state : Type := State {
  currentPage : Z;
  total_pages : Z                 (* of the list last fetched *)
}.

Inductive click : Type := Previous | Next.

(** The pager is rendered when there is more than one page; [Previous] is
    disabled on page 1 and [Next] on the last page. *)
Definition step (s : state) (c : click) : state :=
  if negb (1 <? total_pages s) then s
  else
    match c with
    | Previous =>
        if currentPage s =? 1 then s
        else State (Z.max 1 (currentPage s - 1)) (total_pages s)
    | Next =>
        if currentPage s =? total_pages s then s
        else State (Z.min (total_pages s) (currentPage s + 1)) (total_pages s)
    end.

End Pager.

(* ===================================================================== *)
(** ** The upload page: which files it sends *)
(* ===================================================================== *)

Module UploadPage.

(** [toLowerCase] on one code unit below 256: A-Z and the capital letters
    of Latin-1 (192-214, 216-222) move up by 32. *)
Definition lower (c : ascii) : ascii :=
  let n := nat_of_ascii c in
  if ((65 <=? n) && (n <=? 90) || (192 <=? n) && (n <=? 214)
      || (216 <=? n) && (n <=? 222))%nat
  then ascii_of_nat (n + 32) else c.

Fixpoint toLowerCase (s : string) : string :=
  match s with
  | EmptyString => EmptyString
  | String c s' => String (lower c) (toLowerCase s')
  end.

(** The check of [onDrop]: [uploadedFile.name.toLowerCase().endsWith('.csv')];
    a file that passes is posted to the upload route. *)
Definition accepts (name : string) : bool := Js.endsWith (toLowerCase name) ".csv".

End UploadPage.

(* ===================================================================== *)
(** ** The reviews page and the statistics of [CampaignExecution] *)
(* ===================================================================== *)

Module ReviewsPage.

(** [renderStars]: five stars, star [i] filled when [i < rating]. *)
Definition renderStars (rating : Z) : list bool :=
  (fun i => i <? rating) <$> [0; 1; 2; 3; 4].

End ReviewsPage.

Module ExecutionStats.

Record stats : Type := Stats {
  total : nat;
  pending : nat;
  queued : nat;
  sent : nat;
  delivered : nat;
  read : nat;
  failed : nat
}.

(** [data.filter(m => m.status === s).length]; a message is given by its
    status, [None] when it has none. *)
Definition count (s : string) (data : list (option string)) : nat :=
  length (List.filter (fun m => bool_decide (m = Some s)) data).

(** The statistics [fetchMessages] computes. *)
Definition newStats (data : list (option string)) : stats :=
  Stats (length data) (count "pending" data) (count "queued" data)
    (count "sent" data) (count "delivered" data) (count "read" data)
    (count "failed" data).

Definition counted : list string :=
  ["pending"; "queued"; "sent"; "delivered"; "read"; "failed"].

(** The messages none of the six counters counts. *)
Definition is_counted (m : option string) : bool :=
  match m with
  | Some s => existsb (String.eqb s) counted
  | None => false
  end.

Definition uncounted (data : list (option string)) : list (option string) :=
  List.filter (fun m => negb (is_counted m)) data.

(** The status of a row of the messages table, as the component gets it. *)
Definition status_of (r : gmap string Schema.value) : option string :=
  match Schema.get r "status" with
  | Schema.VText s => Some s
  | _ => None
  end.

End ExecutionStats.

(* ===================================================================== *)
(** ** The view [campaign_analytics] (migrations 003 and 006) *)
(* ===================================================================== *)

Module AnalyticsView.

(** Rows of [campaigns], of [guests] (003) or [customers] (006), and of
    [messages], with the columns the view reads. *)
Record campaign : Type := Campaign { c_id : string; c_name : string }.
Record guest : Type := Guest { g_id : string; g_campaign_id : option string }.
Record message : Type := Message {
  m_id : string;
  m_campaign_id : option string;
  m_status : option string
}.

(** [l LEFT JOIN r ON on]: every row of [l] with each row of [r] it matches,
    or once with NULLs when it matches none. *)
Definition left_join {A B : Type} (on : A -> B -> bool) (l : list A) (r : list B)
  : list (A * option B) :=
  flat_map (fun a =>
              match List.filter (on a) r with
              | [] => [(a, None)]
              | bs => (fun b => (a, Some b)) <$> bs
              end) l.

(** [g.campaign_id = c.id]; a NULL campaign_id matches nothing. *)
Definition of_campaign (c : campaign) (campaign_id : option string) : bool :=
  bool_decide (campaign_id = Some (c_id c)).

(** [FROM campaigns c LEFT JOIN guests g ON g.campaign_id = c.id
     LEFT JOIN messages m ON m.campaign_id = c.id] *)
Definition joined (campaigns : list campaign) (guests : list guest)
    (messages : list message) : list ((campaign * option guest) * option message) :=
  left_join (fun cg m => of_campaign cg.1 (m_campaign_id m))
    (left_join (fun c g => of_campaign c (g_campaign_id g)) campaigns guests)
    messages.

(** [COUNT(g.id)], [COUNT(m.id)] and [COUNT(CASE WHEN m.status = s THEN 1 END)]:
    the rows of the group where the expression is not NULL. *)
Definition count_guests (group : list ((campaign * option guest) * option message))
  : nat :=
  length (List.filter (fun row => bool_decide (is_Some row.1.2)) group).

Definition count_messages (group : list ((campaign * option guest) * option message))
  : nat :=
  length (List.filter (fun row => bool_decide (is_Some row.2)) group).

Definition count_status (s : string)
    (group : list ((campaign * option guest) * option message)) : nat :=
  length (List.filter
            (fun row => bool_decide (m_status <$> row.2 = Some (Some s))) group).

(** A row of the view, without [response_rate]. *)
Record row : Type := Row {
  campaign_id : string;
  campaign_name : string;
  total_guests : nat;
  total_messages : nat;
  messages_sent : nat;
  messages_delivered : nat;
  messages_read : nat;
  messages_failed : nat
}.

(** [GROUP BY c.id, c.name, ...]: one row for each campaign, over the joined
    rows of that campaign (campaign ids are a primary key). *)
Definition campaign_analytics (campaigns : list campaign) (guests : list guest)
    (messages : list message) : list row :=
  (fun c =>
     let group :=
       List.filter (fun r => String.eqb (c_id r.1.1) (c_id c))
         (joined campaigns guests messages) in
     Row (c_id c) (c_name c) (count_guests group) (count_messages group)
       (count_status "sent" group) (count_status "delivered" group)
       (count_status "read" group) (count_status "failed" group))
  <$> campaigns.

(** The guests and the messages of a campaign. *)
Definition guests_of (c : campaign) (guests : list guest) : list guest :=
  List.filter (fun g => of_campaign c (g_campaign_id g)) guests.

Definition messages_of (c : campaign) (messages : list message) : list message :=
  List.filter (fun m => of_campaign c (m_campaign_id m)) messages.

(** The joined rows of one campaign: the campaign with each of its guests
    (or once without), and each of these with each of its messages (or once
    without). *)
Definition with_guests (guests : list guest) (c : campaign)
  : list (campaign * option guest) :=
  match guests_of c guests with
  | [] => [(c, None)]
  | gs => (fun g => (c, Some g)) <$> gs
  end.

Definition with_messages (messages : list message) (cg : campaign * option guest)
  : list ((campaign * option guest) * option message) :=
  match messages_of cg.1 messages with
  | [] => [(cg, None)]
  | ms => (fun m => (cg, Some m)) <$> ms
  end.

Definition chunk (guests : list guest) (messages : list message) (c : campaign)
  : list ((campaign * option guest) * option message) :=
  flat_map (with_messages messages) (with_guests guests c).

End AnalyticsView.

(* ===================================================================== *)
(** ** Further sample data *)
(* ===================================================================== *)

Module Scenario.

(** A column mapping that maps no column to the name. *)
Definition email_mapping : gmap string string := {[ "Email" := "email" ]}.

Definition email_mapping_json : string :=
  "{" ++ Sample.quoted "Email" ++ ":" ++ Sample.quoted "email" ++ "}".

(** A file of a header row only. *)
Definition header_csv : string := "Name,Email".

(** The services of [Sample.sv], which also parse [email_mapping_json]. *)
Definition sv : Store.services :=
  Store.Services
    (Store.getUser Sample.sv)
    (fun s => if String.eqb s email_mapping_json then Some email_mapping
              else Store.json_parse Sample.sv s)
    (Store.csv_parse Sample.sv)
    (Store.iso_date Sample.sv)
    (Store.insert_error Sample.sv)
    (Store.new_job_id Sample.sv)
    (Store.now Sample.sv)
    (Store.cwd Sample.sv)
    (Store.fs_throws Sample.sv).


(** The state [Sample.w] with another content of the uploaded file. *)
Definition with_file (content : string) : Store.world :=
  Store.set_files Sample.w {[ "/app/uploads/1-guests.csv" := content ]}.

Definition email_only_request : CsvProcess.request :=
  CsvProcess.Request "POST" (Some "job-1") (Some "Bearer secret") true
    (Some email_mapping_json).

Definition wrong_token_request : CsvUpload.request :=
  CsvUpload.Request (Some "Bearer wrong")
    (CsvUpload.FormFile "guests.csv" Sample.upload_content).


Definition nested_upload : CsvUpload.request :=
  CsvUpload.Request (Some "Bearer secret")
    (CsvUpload.FormFile "dir/guests.csv" Sample.upload_content).

(** One session, found with one cookie. *)
Definition session : SessionRoutes.session := SessionRoutes.Session "user-1" "jwt-1".

Definition getSession (cookie : option string) : option SessionRoutes.session :=
  match cookie with
  | Some c => if String.eqb c "sb-token=abc" then Some session else None
  | None => None
  end.

Definition anonymous : SessionRoutes.request :=
  SessionRoutes.Request "job-1" None None "" None (Some "{}") (Some (Some "{}")).

Definition signed_in : SessionRoutes.request :=
  SessionRoutes.Request "job-1" (Some "sb-token=abc") None "" None (Some "{}")
    (Some (Some "{}")).

(** A backend that answers 404 to everything. *)
Definition not_found (call : SessionRoutes.backend_request) : Proxy.fetch_result :=
  Proxy.FetchResponse 404 (Some "{detail:Not found}").

Definition org_id_of (data : string) : option (option string) := Some (Some "org-1").

Definition no_job (s : SessionRoutes.session) (id : string) : option Store.upload_job :=
  None.

(** A database that names the organizations org-1 and org-2 and accepts
    every update, and a user without organization. *)
Definition osv : Orgs.services :=
  Orgs.Services getSession
    (fun w row => match Orgs.orgs w !! "org-1" with
                  | None => Some "org-1"
                  | Some _ => Some "org-2"
                  end)
    (fun w id org => false).

Definition ow : Orgs.world :=
  Orgs.World {[ "user-1" := Orgs.UserRow None "ann@example.com" (Some "Ann") ]} ∅.

Definition ann : Orgs.auth_user :=
  Orgs.AuthUser "user-1" (Some "ann@example.com") (Some "2024-01-01T00:00:00Z").

(** A review of four stars. *)
Definition review : gmap string Schema.value :=
  {[ "rating" := Schema.VInt 4; "source" := Schema.VText "google" ]}.

(** A cancelled message. *)
Definition cancelled_message : gmap string Schema.value :=
  {[ "content" := Schema.VText "Hello"; "channel" := Schema.VText "whatsapp";
     "status" := Schema.VText "cancelled" ]}.

(** A campaign with two guests and three messages, and a message of no
    campaign. *)
Definition spring : AnalyticsView.campaign := AnalyticsView.Campaign "c1" "Spring".

Definition guests : list AnalyticsView.guest :=
  [ AnalyticsView.Guest "g1" (Some "c1"); AnalyticsView.Guest "g2" (Some "c1") ].

Definition messages : list AnalyticsView.message :=
  [ AnalyticsView.Message "m1" (Some "c1") (Some "sent");
    AnalyticsView.Message "m2" (Some "c1") (Some "read");
    AnalyticsView.Message "m3" (Some "c1") (Some "sent");
    AnalyticsView.Message "m4" None (Some "sent") ].

End Scenario.

(* ===================================================================== *)
(** * Properties *)
(* ===================================================================== *)

(** ** Sanity checks of the primitives *)

Example trim_ex : Js.trim "  a b  " = "a b".
Proof. reflexivity. Qed.

Example split_ex : Js.split Js.comma "a,b,,c" = ["a"; "b"; ""; "c"].
Proof. reflexivity. Qed.

Example split_empty_ex : Js.split Js.comma "" = [""].
Proof. reflexivity. Qed.

Example endsWith_ex : Js.endsWith "guests.csv" ".csv" = true /\ Js.endsWith "csv" ".csv" = false.
Proof. split; reflexivity. Qed.

Example path_join_ex :
  Path.join ["/app"; "uploads"] = "/app/uploads"
  /\ Path.join ["/app/uploads"; "17-guests.csv"] = "/app/uploads/17-guests.csv"
  /\ Path.join ["/app/uploads"; "17-dir/guests.csv"] = "/app/uploads/17-dir/guests.csv"
  /\ Path.join ["/app/uploads"; "17-x/../../guests.csv"] = "/app/guests.csv"
  /\ Path.join ["/app//uploads/"; "./a.csv"] = "/app/uploads/a.csv"
  /\ Path.join ["a"; "../../b"] = "../b"
  /\ Path.join ["/a"; "../../b/"] = "/b/"
  /\ Path.join [""; ""] = ".".
Proof. split_and!; reflexivity. Qed.

Example inherited_ex :
  Js.inherited "constructor" = Some "function Object() { [native code] }"
  /\ Js.inherited "__proto__" = Some "[object Object]"
  /\ Js.inherited "name" = None.
Proof. split_and!; reflexivity. Qed.

Example email_ok_ex : Regex.test Regex.email_re "ann@example.com" = true.
Proof. vm_compute. reflexivity. Qed.

Example email_bad_ex : Regex.test Regex.email_re "ann@example" = false.
Proof. vm_compute. reflexivity. Qed.

(** ** The derivative matcher decides declarative matching *)

Lemma append_empty_inv (s1 s2 : string) :
  (s1 ++ s2)%string = EmptyString -> s1 = EmptyString /\ s2 = EmptyString.
Proof. destruct s1; simpl; [auto | discriminate]. Qed.

Lemma nullable_matches (r : Regex.regex) :
  Regex.nullable r = true <-> Regex.matches r EmptyString.
Proof.
  split.
  - induction r; simpl; intros H; try discriminate.
    + constructor.
    + apply andb_prop in H as [H1 H2].
      change EmptyString with (EmptyString ++ EmptyString)%string.
      constructor; auto.
    + apply orb_prop in H as [H | H]; [apply Regex.MAltL | apply Regex.MAltR]; auto.
    + constructor.
  - intros H. remember EmptyString as s eqn:Hs.
    induction H; simpl; try discriminate; auto.
    + apply append_empty_inv in Hs as [-> ->]. rewrite IHmatches1, IHmatches2; auto.
    + rewrite IHmatches; auto.
    + rewrite IHmatches; auto using orb_true_r.
Qed.

Lemma deriv_sound (c : ascii) (r : Regex.regex) (s : string) :
  Regex.matches (Regex.deriv c r) s -> Regex.matches r (String c s).
Proof.
  revert s. induction r; simpl; intros s H.
  - inversion H.
  - inversion H.
  - destruct (p c) eqn:Hp; inversion H; subst. by constructor.
  - destruct (Regex.nullable r1) eqn:Hn.
    + inversion H; subst.
      * inversion H3; subst.
        change (String c (s1 ++ s2)) with (String c s1 ++ s2)%string.
        constructor; auto.
      * change (String c s) with (EmptyString ++ String c s)%string.
        constructor; auto. by apply nullable_matches.
    + inversion H; subst.
      change (String c (s1 ++ s2)) with (String c s1 ++ s2)%string.
      constructor; auto.
  - inversion H; subst; [apply Regex.MAltL | apply Regex.MAltR]; auto.
  - inversion H; subst.
    change (String c (s1 ++ s2)) with (String c s1 ++ s2)%string.
    constructor; auto.
Qed.

Lemma deriv_complete (c : ascii) (r : Regex.regex) (s : string) :
  Regex.matches r (String c s) -> Regex.matches (Regex.deriv c r) s.
Proof.
  intros H. remember (String c s) as cs eqn:Hcs. revert s Hcs.
  induction H as [ | p d Hp | r1 r2 s1 s2 H1 IH1 H2 IH2 | r1 r2 t H1 IH1
                 | r1 r2 t H2 IH2 | r1 | r1 s1 s2 H1 IH1 H2 IH2 ];
    intros u Hcs; simpl; try discriminate.
  - injection Hcs as -> <-. rewrite Hp. constructor.
  - destruct s1 as [|c1 s1'].
    + change (s2 = String c u) in Hcs. subst s2.
      apply nullable_matches in H1. rewrite H1. apply Regex.MAltR. auto.
    + change (String c1 (s1' ++ s2) = String c u) in Hcs. injection Hcs as -> <-.
      destruct (Regex.nullable r1).
      * apply Regex.MAltL. constructor; auto.
      * constructor; auto.
  - apply Regex.MAltL. auto.
  - apply Regex.MAltR. auto.
  - destruct s1 as [|c1 s1'].
    + change (s2 = String c u) in Hcs. auto.
    + change (String c1 (s1' ++ s2) = String c u) in Hcs.
      injection Hcs as -> <-. constructor; auto.
Qed.

(** [Regex.test] decides [Regex.matches]. *)
Lemma test_matches (r : Regex.regex) (s : string) :
  Regex.test r s = true <-> Regex.matches r s.
Proof.
  revert r. induction s as [|c s IH]; intros r; simpl.
  - apply nullable_matches.
  - rewrite IH. split; [apply deriv_sound | apply deriv_complete].
Qed.

(** ** The CSV routes: authentication *)

Lemma authenticate_inl (sv : Store.services) (h : option string) (r : Store.response) :
  Store.authenticate sv h = inl r -> Store.status r = 401.
Proof.
  unfold Store.authenticate. intros H.
  repeat case_match; simplify_eq/=; reflexivity.
Qed.

Lemma authenticate_rejects (sv : Store.services) (h : option string) :
  Store.no_valid_token sv h ->
  exists msg, Store.authenticate sv h = inl (Store.Response 401 (Store.ErrorBody msg)).
Proof.
  unfold Store.no_valid_token, Store.authenticate. destruct h as [a|]; [|eauto].
  intros [Hp | Ht].
  - rewrite Hp. rewrite orb_true_r. eauto.
  - destruct (negb (Js.truthy a) || negb (Js.startsWith a "Bearer ")); [eauto|].
    destruct (Js.split Js.blank a !! 1%nat) as [token|] eqn:E; [|eauto].
    rewrite (Ht token eq_refl). eauto.
Qed.

(** ** The CSV process route: reading the rows *)

Lemma fold_on_data (sv : Store.services) (cm : gmap string string)
    (data : list (list string)) (st : CsvProcess.parse_state) :
  CsvProcess.isFirstRow st = false ->
  let results :=
    CsvProcess.results_from sv cm (CsvProcess.st_headers st) (CsvProcess.totalRows st) data in
  fold_left (CsvProcess.on_data sv cm) data st
  = CsvProcess.ParseState
      (CsvProcess.st_customers st ++ omap CsvProcess.right_of results)
      (CsvProcess.st_errors st ++ omap CsvProcess.left_of results)
      (CsvProcess.totalRows st + Z.of_nat (length data))
      (CsvProcess.processedRows st + Z.of_nat (length (omap CsvProcess.right_of results)))
      false (CsvProcess.st_headers st).
Proof.
  revert st. induction data as [|rowArray rest IH]; intros st Hfirst; simpl.
  - destruct st; simpl in *; subst. rewrite !app_nil_r, !Z.add_0_r. reflexivity.
  - unfold CsvProcess.on_data at 2. rewrite Hfirst.
    destruct (CsvProcess.process_row sv cm (CsvProcess.st_headers st) rowArray
                (CsvProcess.totalRows st + 1)) as [e|c] eqn:E.
    + rewrite IH by reflexivity. simpl. rewrite <- !app_assoc. simpl.
      f_equal; try reflexivity; try lia.
    + rewrite IH by reflexivity. simpl. rewrite <- !app_assoc. simpl.
      f_equal; try reflexivity; try lia.
      rewrite Nat2Z.inj_succ. unfold omap. lia.
Qed.

Lemma read_rows_cons (sv : Store.services) (cm : gmap string string)
    (headers : list string) (data : list (list string)) :
  let results := CsvProcess.row_results sv cm (headers :: data) in
  CsvProcess.read_rows sv cm (headers :: data)
  = CsvProcess.ParseState (omap CsvProcess.right_of results)
      (omap CsvProcess.left_of results)
      (Z.of_nat (length (headers :: data)))
      (Z.of_nat (length (omap CsvProcess.right_of results)))
      false headers.
Proof.
  unfold CsvProcess.read_rows. simpl fold_left.
  rewrite fold_on_data by reflexivity. simpl. f_equal. lia.
Qed.

Lemma read_rows_totalRows (sv : Store.services) (cm : gmap string string)
    (rows : list (list string)) :
  CsvProcess.totalRows (CsvProcess.read_rows sv cm rows) = Z.of_nat (length rows).
Proof.
  destruct rows as [|headers data]; [reflexivity|].
  rewrite read_rows_cons. reflexivity.
Qed.

Lemma read_rows_customers (sv : Store.services) (cm : gmap string string)
    (rows : list (list string)) :
  CsvProcess.st_customers (CsvProcess.read_rows sv cm rows)
  = omap CsvProcess.right_of (CsvProcess.row_results sv cm rows).
Proof.
  destruct rows as [|headers data]; [reflexivity|].
  rewrite read_rows_cons. reflexivity.
Qed.

Lemma read_rows_errors (sv : Store.services) (cm : gmap string string)
    (rows : list (list string)) :
  CsvProcess.st_errors (CsvProcess.read_rows sv cm rows)
  = omap CsvProcess.left_of (CsvProcess.row_results sv cm rows).
Proof.
  destruct rows as [|headers data]; [reflexivity|].
  rewrite read_rows_cons. reflexivity.
Qed.

Lemma results_from_lookup (sv : Store.services) (cm : gmap string string)
    (headers : list string) (data : list (list string)) (n : Z) (k : nat)
    (rowArray : list string) :
  data !! k = Some rowArray ->
  CsvProcess.results_from sv cm headers n data !! k
  = Some (CsvProcess.process_row sv cm headers rowArray (n + Z.of_nat k + 1)).
Proof.
  revert n k. induction data as [|r rest IH]; intros n k H; [done|].
  destruct k as [|k]; simpl in *.
  - simplify_eq. do 3 f_equal. lia.
  - rewrite (IH (n + 1) k H). do 3 f_equal. lia.
Qed.

(** ** The CSV process route: inserting the batches *)

Local Open Scope list_scope.

Lemma insert_loop_terminates (fuel : nat) (sv : Store.services) (org : string)
    (cs : list (gmap string string)) (i : nat) (s : CsvProcess.insert_state) :
  (length cs <= i + fuel)%nat ->
  is_Some (CsvProcess.insert_loop fuel sv org cs i s).
Proof.
  revert i s. induction fuel as [|fuel IH]; intros i s H; simpl.
  - destruct (i <? length cs)%nat eqn:E; [apply Nat.ltb_lt in E; lia | eauto].
  - destruct (i <? length cs)%nat eqn:E; [|eauto].
    apply IH. unfold CsvProcess.batchSize. lia.
Qed.

Lemma insert_loop_spec (fuel : nat) (sv : Store.services) (org : string)
    (cs : list (gmap string string)) (i : nat) (s s' : CsvProcess.insert_state) :
  CsvProcess.insert_loop fuel sv org cs i s = Some s' ->
  exists added errs,
    CsvProcess.table s' = CsvProcess.table s ++ added
    /\ CsvProcess.ins_errors s' = CsvProcess.ins_errors s ++ errs
    /\ CsvProcess.insertedCount s'
       = CsvProcess.insertedCount s + Z.of_nat (length added)
    /\ (forall c, c ∈ added -> exists c0, c0 ∈ cs /\ c = CsvProcess.with_org org c0).
Proof.
  revert i s. induction fuel as [|fuel IH]; intros i s; simpl.
  - destruct (i <? length cs)%nat; [discriminate|].
    intros [= <-]. exists [], []. rewrite !app_nil_r.
    split_and!; [done | done | simpl; lia | intros c Hc; by apply elem_of_nil in Hc].
  - destruct (i <? length cs)%nat.
    2:{ intros [= <-]. exists [], []. rewrite !app_nil_r.
        split_and!; [done | done | simpl; lia | intros c Hc; by apply elem_of_nil in Hc]. }
    intros H. apply IH in H as (added & errs & Ht & He & Hc & Hin).
    destruct (Store.insert_error sv (CsvProcess.table s)
                (CsvProcess.with_org org <$> take CsvProcess.batchSize (drop i cs)))
      as [message|] eqn:E; simpl in *.
    + exists added. eexists. split_and!; [done | | done | done].
      rewrite He, <- app_assoc. reflexivity.
    + exists ((CsvProcess.with_org org <$> take CsvProcess.batchSize (drop i cs)) ++ added), errs.
      split_and!.
      * rewrite Ht, <- app_assoc. reflexivity.
      * done.
      * rewrite Hc, length_app, length_fmap. lia.
      * intros c [Hc1 | Hc2]%elem_of_app; [|auto].
        apply list_elem_of_fmap in Hc1 as (c0 & -> & Hc0).
        exists c0. split; [|done].
        by apply (subseteq_drop i), (subseteq_take CsvProcess.batchSize).
Qed.

Lemma insert_loop_all_ok (fuel : nat) (sv : Store.services) (org : string)
    (cs : list (gmap string string)) (i : nat) (s s' : CsvProcess.insert_state) :
  (forall tbl batch, Store.insert_error sv tbl batch = None) ->
  CsvProcess.insert_loop fuel sv org cs i s = Some s' ->
  CsvProcess.table s' = CsvProcess.table s ++ (CsvProcess.with_org org <$> drop i cs)
  /\ CsvProcess.ins_errors s' = CsvProcess.ins_errors s.
Proof.
  intros Hok. revert i s. induction fuel as [|fuel IH]; intros i s; simpl.
  - destruct (i <? length cs)%nat eqn:E; [discriminate|].
    intros [= <-]. apply Nat.ltb_ge in E. rewrite drop_ge by done.
    simpl. by rewrite app_nil_r.
  - destruct (i <? length cs)%nat eqn:E.
    2:{ intros [= <-]. apply Nat.ltb_ge in E. rewrite drop_ge by done.
        simpl. by rewrite app_nil_r. }
    rewrite Hok. intros H. apply IH in H as [Ht He]. simpl in *.
    split; [|done]. rewrite Ht, <- app_assoc. f_equal.
    rewrite <- fmap_app. f_equal.
    rewrite <- drop_drop. apply take_drop.
Qed.

(** ** The CSV process route: what a 200 answer means *)

Lemma handler_200 (sv : Store.services) (w : Store.world) (req : CsvProcess.request) :
  Store.status <$> (CsvProcess.handler sv w req).1 = Some 200 ->
  exists id user org uploadJob mappingStr cm content rows s,
    CsvProcess.query_id req = Some id
    /\ Store.authenticate sv (CsvProcess.authorization req) = inr user
    /\ Store.profile_org w user = Some org
    /\ Store.upload_jobs w !! id = Some uploadJob
    /\ Store.job_status uploadJob = Some "pending"
    /\ CsvProcess.column_mapping_field req = Some mappingStr
    /\ Store.json_parse sv mappingStr = Some cm
    /\ Store.files w !! Store.job_file_path uploadJob = Some content
    /\ Store.csv_parse sv content = inr rows
    /\ CsvProcess.insert_loop
         (length (CsvProcess.st_customers (CsvProcess.read_rows sv cm rows))) sv org
         (CsvProcess.st_customers (CsvProcess.read_rows sv cm rows)) 0
         (CsvProcess.InsertState (Store.customers w)
            (CsvProcess.st_errors (CsvProcess.read_rows sv cm rows)) 0) = Some s
    /\ CsvProcess.handler sv w req
       = (Some (Store.Response 200
                  (Store.JobBody
                     (Some (CsvProcess.finish_job
                              (CsvProcess.set_status uploadJob "processing"
                                 (Store.job_errors uploadJob) (Some cm))
                              (CsvProcess.read_rows sv cm rows) s)))),
          Store.World (Store.users w)
            (<[id := CsvProcess.finish_job
                       (CsvProcess.set_status uploadJob "processing"
                          (Store.job_errors uploadJob) (Some cm))
                       (CsvProcess.read_rows sv cm rows) s]> (Store.upload_jobs w))
            (CsvProcess.table s)
            (delete (Store.job_file_path uploadJob) (Store.files w))).
Proof.
  unfold CsvProcess.handler.
  destruct (negb (CsvProcess.method req =? "POST")%string); [discriminate|].
  destruct (CsvProcess.query_id req) as [id|]; [|discriminate].
  destruct (negb (Js.truthy id)); [discriminate|].
  destruct (Store.authenticate sv (CsvProcess.authorization req)) as [r|user] eqn:Hauth.
  { simpl. intros [= H]. apply authenticate_inl in Hauth. lia. }
  destruct (Store.profile_org w user) as [org|] eqn:Horg; [|discriminate].
  unfold CsvProcess.find_job.
  destruct (Store.upload_jobs w !! id) as [uploadJob|] eqn:Hjob; [|discriminate].
  destruct (Store.job_org_id uploadJob =? org)%string; [|discriminate].
  destruct (bool_decide (Store.job_status uploadJob = Some "pending")) eqn:Hst;
    [|discriminate].
  apply bool_decide_eq_true in Hst. simpl negb. cbv iota.
  destruct (CsvProcess.form_parses req); [|discriminate]. simpl negb. cbv iota.
  destruct (CsvProcess.column_mapping_field req) as [mappingStr|]; [|discriminate].
  simpl Js.truthy_opt. destruct (negb (Js.truthy mappingStr)); [discriminate|].
  simpl default.
  destruct (Store.json_parse sv mappingStr) as [cm|] eqn:Hcm; [|discriminate].
  cbv zeta. simpl Store.files.
  destruct (Store.files w !! Store.job_file_path uploadJob) as [content|] eqn:Hfile;
    [|discriminate].
  destruct (Store.csv_parse sv content) as [message|rows] eqn:Hcsv; [discriminate|].
  unfold CsvProcess.on_end. simpl Store.customers.
  destruct (CsvProcess.insert_loop _ sv org _ 0 _) as [s|] eqn:Hloop; [|discriminate].
  intros _. exists id, user, org, uploadJob, mappingStr, cm, content, rows, s.
  split_and!; try done.
  simpl Store.upload_jobs. simpl Store.users. simpl Store.files.
  rewrite !lookup_alter_eq, Hjob. simpl.
  do 2 f_equal.
  apply map_eq. intros k. destruct (decide (k = id)) as [->|Hne].
  - rewrite !lookup_alter_eq, lookup_insert_eq, Hjob. reflexivity.
  - rewrite !lookup_alter_ne, lookup_insert_ne by done. reflexivity.
Qed.

(** The loop has fuel enough: such a request is answered, with 200. *)
Lemma processable_200 (sv : Store.services) (w : Store.world) (req : CsvProcess.request)
    (cm : gmap string string) (rows : list (list string)) :
  CsvProcess.processable sv w req cm rows ->
  Store.status <$> (CsvProcess.handler sv w req).1 = Some 200.
Proof.
  intros (id & user & uploadJob & mappingStr & content & Hm & Hid & Hid' & Hauth & Horg
          & Hjob & Hst & Hform & Hfield & Hfield' & Hcm & Hfile & Hcsv).
  unfold CsvProcess.handler, CsvProcess.find_job.
  rewrite Hm, Hid, Hid', Hauth, Horg, Hjob. simpl. rewrite !String.eqb_refl. simpl.
  rewrite bool_decide_eq_true_2 by done. rewrite Hform, Hfield. simpl.
  rewrite Hfield', Hcm. simpl. rewrite Hfile, Hcsv.
  unfold CsvProcess.on_end. simpl.
  destruct (insert_loop_terminates
              (length (CsvProcess.st_customers (CsvProcess.read_rows sv cm rows))) sv
              (Store.job_org_id uploadJob)
              (CsvProcess.st_customers (CsvProcess.read_rows sv cm rows)) 0
              (CsvProcess.InsertState (Store.customers w)
                 (CsvProcess.st_errors (CsvProcess.read_rows sv cm rows)) 0))
    as [s Hs]; [lia|].
  by rewrite Hs.
Qed.

(** What a run determines: the organization, the mapping and the rows of a
    200 answer are those of the request. *)
Lemma processable_run (sv : Store.services) (w : Store.world) (req : CsvProcess.request)
    (cm : gmap string string) (rows : list (list string)) :
  CsvProcess.processable sv w req cm rows ->
  exists id org uploadJob s,
    CsvProcess.query_id req = Some id
    /\ Store.upload_jobs w !! id = Some uploadJob
    /\ Store.job_org_id uploadJob = org
    /\ CsvProcess.insert_loop
         (length (CsvProcess.st_customers (CsvProcess.read_rows sv cm rows))) sv org
         (CsvProcess.st_customers (CsvProcess.read_rows sv cm rows)) 0
         (CsvProcess.InsertState (Store.customers w)
            (CsvProcess.st_errors (CsvProcess.read_rows sv cm rows)) 0) = Some s
    /\ CsvProcess.handler sv w req
       = (Some (Store.Response 200
                  (Store.JobBody
                     (Some (CsvProcess.finish_job
                              (CsvProcess.set_status uploadJob "processing"
                                 (Store.job_errors uploadJob) (Some cm))
                              (CsvProcess.read_rows sv cm rows) s)))),
          Store.World (Store.users w)
            (<[id := CsvProcess.finish_job
                       (CsvProcess.set_status uploadJob "processing"
                          (Store.job_errors uploadJob) (Some cm))
                       (CsvProcess.read_rows sv cm rows) s]> (Store.upload_jobs w))
            (CsvProcess.table s)
            (delete (Store.job_file_path uploadJob) (Store.files w))).
Proof.
  intros Hp. pose proof (processable_200 _ _ _ _ _ Hp) as H200.
  destruct Hp as (id & user & uploadJob & mappingStr & content & Hm & Hid & Hid' & Hauth
                  & Horg & Hjob & Hst & Hform & Hfield & Hfield' & Hcm & Hfile & Hcsv).
  apply handler_200 in H200
    as (id1 & user1 & org1 & job1 & mappingStr1 & cm1 & content1 & rows1 & s
        & Hid1 & Hauth1 & Horg1 & Hjob1 & _ & Hfield1 & Hcm1 & Hfile1 & Hcsv1 & Hloop & Heq).
  simplify_eq.
  rewrite Hauth in Hauth1. injection Hauth1 as <-.
  rewrite Horg in Horg1. injection Horg1 as <-.
  rewrite Hcsv in Hcsv1. injection Hcsv1 as <-.
  eauto 10.
Qed.

Example sample_run :
  Store.status <$> (CsvProcess.handler Sample.sv Sample.w Sample.process_request).1 = Some 200
  /\ (fun c : gmap string string => (c !! "name", c !! "email", c !! "org_id")) <$>
       Store.customers (CsvProcess.handler Sample.sv Sample.w Sample.process_request).2
     = [ (Some "Ann", Some "ann@example.com", Some "org-1");
         (Some "Cy", Some "cy@example.org", Some "org-1") ]
  /\ Store.job_errors <$>
       (Store.upload_jobs (CsvProcess.handler Sample.sv Sample.w Sample.process_request).2
          !! "job-1")
     = Some (Some [ Store.RowError 3 "Invalid email format";
                    Store.RowError 5 "Name is required" ]).
Proof. split_and!; vm_compute; reflexivity. Qed.

Lemma finalStatus_failed (errors : list Store.row_error) (n : nat) :
  CsvProcess.finalStatus errors (Z.of_nat n) = "failed" <-> errors <> [] /\ n = 0%nat.
Proof.
  unfold CsvProcess.finalStatus.
  destruct errors as [|e errors]; simpl.
  - split; [discriminate | intros [[] _]; reflexivity].
  - destruct n as [|n]; simpl.
    + split; [intros _; split; [discriminate | reflexivity] | reflexivity].
    + split; [discriminate | intros [_ [=]]].
Qed.

Lemma finalStatus_cases (errors : list Store.row_error) (n : Z) :
  CsvProcess.finalStatus errors n = "failed" \/ CsvProcess.finalStatus errors n = "completed".
Proof. unfold CsvProcess.finalStatus. destruct (_ && _); auto. Qed.

(** C8. When the process route goes through with a request, it answers 200
    and the job it leaves behind is 'failed' exactly when at least one error
    was recorded and no customer was inserted, and 'completed' otherwise;
    its total_rows is the number of rows read minus one and its
    processed_rows is the number of rows added to the customers table. *)
Theorem process_final_job (sv : Store.services) (w : Store.world)
    (req : CsvProcess.request) (cm : gmap string string) (rows : list (list string)) :
  CsvProcess.processable sv w req cm rows ->
  exists id job errors dberrors added,
    CsvProcess.query_id req = Some id
    /\ (CsvProcess.handler sv w req).1
       = Some (Store.Response 200 (Store.JobBody (Some job)))
    /\ Store.upload_jobs (CsvProcess.handler sv w req).2 !! id = Some job
    /\ Store.customers (CsvProcess.handler sv w req).2 = Store.customers w ++ added
    /\ errors = omap CsvProcess.left_of (CsvProcess.row_results sv cm rows) ++ dberrors
    /\ Store.job_errors job = (if bool_decide (errors = []) then None else Some errors)
    /\ (Store.job_status job = Some "failed" <-> errors <> [] /\ added = [])
    /\ (Store.job_status job = Some "completed" <-> ~ (errors <> [] /\ added = []))
    /\ Store.job_total_rows job = Z.of_nat (length rows) - 1
    /\ Store.job_processed_rows job = Z.of_nat (length added).
Proof.
  intros Hp.
  apply processable_run in Hp as (id & org & job0 & s & Hid & Hjob & Horg & Hloop & ->).
  apply insert_loop_spec in Hloop as (added & dberrors & Ht & He & Hc & Hin).
  simpl in Ht, He, Hc.
  exists id. eexists. exists (CsvProcess.ins_errors s), dberrors, added.
  split_and!; try done.
  - simpl. by rewrite lookup_insert_eq.
  - by rewrite He, read_rows_errors.
  - simpl. destruct (CsvProcess.ins_errors s); reflexivity.
  - simpl. rewrite Hc, Z.add_0_l.
    split.
    + intros [= Hs]. apply finalStatus_failed in Hs as [? Hn].
      split; [done|]. by apply length_zero_iff_nil.
    + intros [Hne ->]. f_equal. by apply finalStatus_failed.
  - simpl. rewrite Hc, Z.add_0_l.
    split.
    + intros [= Hs] [Hne ->].
      assert (CsvProcess.finalStatus (CsvProcess.ins_errors s) (Z.of_nat 0) = "failed")
        as Hf by by apply finalStatus_failed.
      simpl in Hs. congruence.
    + intros Hn. f_equal.
      destruct (finalStatus_cases (CsvProcess.ins_errors s) (Z.of_nat (length added)))
        as [Hf | Hf]; [|done].
      exfalso. apply Hn. apply finalStatus_failed in Hf as [? Hl].
      split; [done|]. by apply length_zero_iff_nil.
  - simpl. by rewrite read_rows_totalRows.
Qed.

Lemma process_final_job_witness :
  CsvProcess.processable Sample.sv Sample.w Sample.process_request Sample.mapping
    Sample.rows
  /\ exists id job errors dberrors added,
    CsvProcess.query_id Sample.process_request = Some id
    /\ (CsvProcess.handler Sample.sv Sample.w Sample.process_request).1
       = Some (Store.Response 200 (Store.JobBody (Some job)))
    /\ Store.upload_jobs
         (CsvProcess.handler Sample.sv Sample.w Sample.process_request).2 !! id = Some job
    /\ Store.customers (CsvProcess.handler Sample.sv Sample.w Sample.process_request).2
       = Store.customers Sample.w ++ added
    /\ errors = omap CsvProcess.left_of
                  (CsvProcess.row_results Sample.sv Sample.mapping Sample.rows)
                ++ dberrors
    /\ Store.job_errors job = (if bool_decide (errors = []) then None else Some errors)
    /\ (Store.job_status job = Some "failed" <-> errors <> [] /\ added = [])
    /\ (Store.job_status job = Some "completed" <-> ~ (errors <> [] /\ added = []))
    /\ Store.job_total_rows job = Z.of_nat (length Sample.rows) - 1
    /\ Store.job_processed_rows job = Z.of_nat (length added).
Proof.
  assert (CsvProcess.processable Sample.sv Sample.w Sample.process_request
            Sample.mapping Sample.rows) as Hp.
  { exists "job-1", "user-1", Sample.pending_job, Sample.mapping_json, Sample.guests_csv.
    split_and!; vm_compute; reflexivity. }
  split; [exact Hp|].
  apply (process_final_job Sample.sv Sample.w Sample.process_request). exact Hp.
Defined.

(** ** The CSV process route: validation of one row *)

(** The key of an inherited property is the text of a built-in function or
    of [Object.prototype]. *)
Lemma inherited_key (p k : string) :
  Js.inherited p = Some k ->
  Js.startsWith k "function " = true \/ k = "[object Object]".
Proof.
  unfold Js.inherited.
  destruct (List.find _ Js.Object_prototype) as [e|] eqn:E; [|discriminate].
  apply find_some in E as [Hin _]. intros [= <-].
  unfold Js.Object_prototype in Hin. simpl in Hin.
  repeat (destruct Hin as [<-|Hin]; [first [by left | by right]|]).
  destruct Hin.
Qed.

Lemma get_Some (cm : gmap string string) (header : string) (f : CsvProcess.property) :
  CsvProcess.get cm header = Some f ->
  (exists value, cm !! header = Some value /\ f = CsvProcess.Own value)
  \/ (cm !! header = None
      /\ exists key, Js.inherited header = Some key /\ f = CsvProcess.Inherited key).
Proof.
  unfold CsvProcess.get. destruct (cm !! header) as [value|].
  - intros [= <-]. left. eauto.
  - destruct (Js.inherited header) as [key|]; [|discriminate].
    intros [= <-]. right. eauto.
Qed.

(** [mappedField === 'name'] holds exactly when the key stored is 'name'. *)
Lemma equals_name (cm : gmap string string) (header : string) (f : CsvProcess.property) :
  CsvProcess.get cm header = Some f ->
  CsvProcess.equals f "name" = true <-> CsvProcess.key_of f = "name".
Proof.
  intros [(value & _ & ->)|(_ & key & Hkey & ->)]%get_Some; simpl.
  - apply String.eqb_eq.
  - split; [discriminate|]. intros ->.
    by destruct (inherited_key _ _ Hkey).
Qed.

Lemma map_column_inv (cm : gmap string string) (rowArray : list string)
    (header : string) (index : nat) (acc : gmap string string * bool) :
  CsvProcess.columns_inv acc -> CsvProcess.columns_inv (CsvProcess.map_column cm rowArray header index acc).
Proof.
  intros [Hname Hval]. unfold CsvProcess.map_column.
  destruct (CsvProcess.get cm header) as [mappedField|] eqn:Hget; [|done].
  destruct (_ && _); [|done].
  destruct (Js.truthy (Js.trim (default "" (rowArray !! index)))) eqn:Hv; [|done].
  pose proof (equals_name _ _ _ Hget) as Hkey. unfold CsvProcess.assign.
  split; simpl.
  - destruct (CsvProcess.equals mappedField "name") eqn:E.
    + rewrite (proj1 Hkey eq_refl). simpl.
      rewrite orb_true_r, lookup_insert_eq. split; eauto.
    + rewrite orb_false_r.
      destruct (String.eqb (CsvProcess.key_of mappedField) "__proto__"); [done|].
      rewrite lookup_insert_ne; [done|].
      intros Hk. apply Hkey in Hk. discriminate.
  - intros k v.
    destruct (String.eqb (CsvProcess.key_of mappedField) "__proto__"); [apply Hval|].
    destruct (decide (CsvProcess.key_of mappedField = k)) as [<-|Hne].
    + rewrite lookup_insert_eq. by intros [= <-].
    + rewrite lookup_insert_ne by done. apply Hval.
Qed.

Lemma map_columns_inv (cm : gmap string string) (rowArray headers : list string)
    (index : nat) (acc : gmap string string * bool) :
  CsvProcess.columns_inv acc -> CsvProcess.columns_inv (CsvProcess.map_columns cm rowArray headers index acc).
Proof.
  revert index acc. induction headers as [|header rest IH]; intros index acc H; simpl.
  - done.
  - apply IH. by apply map_column_inv.
Qed.

Lemma customer_of_inv (cm : gmap string string) (headers rowArray : list string) :
  CsvProcess.columns_inv (CsvProcess.map_columns cm rowArray headers 0 (∅, false)).
Proof.
  apply map_columns_inv. split; simpl.
  - rewrite lookup_empty. split; [discriminate | by intros [? ?]].
  - intros k v. by rewrite lookup_empty.
Qed.

Lemma truthy_opt_Some (o : option string) :
  Js.truthy_opt o = true -> exists v, o = Some v /\ Js.truthy v = true.
Proof. destruct o as [v|]; simpl; [eauto | discriminate]. Qed.

(** A row with a name whose address does not match is answered with the
    invalid-email error. *)
Lemma process_row_invalid_email (sv : Store.services) (cm : gmap string string)
    (headers rowArray : list string) (n : Z) :
  Js.truthy_opt (CsvProcess.customer_of cm headers rowArray !! "name") = true ->
  Js.truthy_opt (CsvProcess.customer_of cm headers rowArray !! "email") = true ->
  Regex.test Regex.email_re
    (default "" (CsvProcess.customer_of cm headers rowArray !! "email")) = false ->
  CsvProcess.process_row sv cm headers rowArray n
  = inl (Store.RowError n "Invalid email format").
Proof.
  unfold CsvProcess.customer_of, CsvProcess.process_row.
  pose proof (customer_of_inv cm headers rowArray) as [Hname _].
  destruct (CsvProcess.map_columns cm rowArray headers 0 (∅, false))
    as [customerData hasRequiredData]; simpl in *.
  intros Hn He Ht. rewrite Hn, He, Ht.
  apply truthy_opt_Some in Hn as (v & Hv & _).
  assert (hasRequiredData = true) as -> by (apply Hname; eauto).
  reflexivity.
Qed.

(** A row without a name is answered with 'Name is required'. *)
Lemma process_row_no_name (sv : Store.services) (cm : gmap string string)
    (headers rowArray : list string) (n : Z) :
  Js.truthy_opt (CsvProcess.customer_of cm headers rowArray !! "name") = false ->
  CsvProcess.process_row sv cm headers rowArray n
  = inl (Store.RowError n "Name is required").
Proof.
  unfold CsvProcess.customer_of, CsvProcess.process_row.
  destruct (CsvProcess.map_columns cm rowArray headers 0 (∅, false))
    as [customerData hasRequiredData]; simpl.
  intros ->. by rewrite orb_true_r.
Qed.

(** A row that is accepted has a name, and its address, if it has one,
    matches the pattern. *)
Lemma process_row_accepted (sv : Store.services) (cm : gmap string string)
    (headers rowArray : list string) (n : Z) (c : gmap string string) :
  CsvProcess.process_row sv cm headers rowArray n = inr c ->
  Js.truthy_opt (c !! "name") = true
  /\ c !! "email" = CsvProcess.customer_of cm headers rowArray !! "email"
  /\ (forall e, c !! "email" = Some e -> Regex.test Regex.email_re e = true).
Proof.
  unfold CsvProcess.customer_of, CsvProcess.process_row.
  pose proof (customer_of_inv cm headers rowArray) as [_ Hval].
  destruct (CsvProcess.map_columns cm rowArray headers 0 (∅, false))
    as [customerData hasRequiredData]; simpl in *.
  destruct (negb hasRequiredData || negb (Js.truthy_opt (customerData !! "name")))
    eqn:Hn; [discriminate|].
  apply orb_false_elim in Hn as [_ Hn]. apply negb_false_iff in Hn.
  destruct (Js.truthy_opt (customerData !! "email")
            && negb (Regex.test Regex.email_re (default "" (customerData !! "email"))))
    eqn:He; [discriminate|].
  assert (forall e, customerData !! "email" = Some e -> Regex.test Regex.email_re e = true)
    as Hemail.
  { intros e Hl. rewrite Hl in He. simpl in He. rewrite (Hval _ _ Hl) in He.
    simpl in He. by apply negb_false_iff in He. }
  destruct (Js.truthy_opt (customerData !! "service_date")).
  - destruct (Store.iso_date sv _) as [d|]; [|discriminate].
    intros [= <-]. rewrite !lookup_insert_ne by done. auto.
  - intros [= <-]. auto.
Qed.

Lemma results_from_elem (sv : Store.services) (cm : gmap string string)
    (headers : list string) (data : list (list string)) (n : Z)
    (x : Store.row_error + gmap string string) :
  x ∈ CsvProcess.results_from sv cm headers n data ->
  exists k rowArray,
    data !! k = Some rowArray
    /\ x = CsvProcess.process_row sv cm headers rowArray (n + Z.of_nat k + 1).
Proof.
  revert n. induction data as [|r rest IH]; intros n; simpl.
  - by intros ?%elem_of_nil.
  - intros [-> | Hin]%elem_of_cons.
    + exists 0%nat, r. split; [done|]. f_equal. lia.
    + apply IH in Hin as (k & rowArray & Hk & ->).
      exists (S k), rowArray. split; [done|]. f_equal. lia.
Qed.

(** C2, as stated, fails: a data row whose address does not match the
    pattern but which has no name is answered with 'Name is required', not
    with the invalid-email error. *)
Lemma invalid_email_error_counterexample :
  ~ (forall (sv : Store.services) (cm : gmap string string)
            (headers rowArray : list string) (n : Z) (e : string),
        (exists header, cm !! header = Some "email") ->
        CsvProcess.customer_of cm headers rowArray !! "email" = Some e ->
        Regex.test Regex.email_re e = false ->
        CsvProcess.process_row sv cm headers rowArray n
        = inl (Store.RowError n "Invalid email format")).
Proof.
  intros H.
  specialize (H Sample.sv Sample.mapping ["Name"; "Email"] [""; "nobody"] 5 "nobody"
                (ex_intro _ "Email" eq_refl) eq_refl eq_refl).
  vm_compute in H. discriminate H.
Qed.

(** C2, amended. When the process route goes through with a request, it
    answers 200 and: every data row that has a non-empty mapped name and
    whose non-empty mapped address does not match the pattern leaves the
    entry (row number, 'Invalid email format') in the job's errors, the
    header counting as row 1; a data row without a name leaves (row number,
    'Name is required'); every row added to the customers table stems from
    a data row that passed validation, and its address, if any, matches
    the pattern; and when no batch insert fails, the rows added are exactly
    the rows that passed validation. *)
Theorem process_invalid_email_rows (sv : Store.services) (w : Store.world)
    (req : CsvProcess.request) (cm : gmap string string) (rows : list (list string)) :
  CsvProcess.processable sv w req cm rows ->
  exists id org job added,
    CsvProcess.query_id req = Some id
    /\ Store.job_org_id <$> Store.upload_jobs w !! id = Some org
    /\ (CsvProcess.handler sv w req).1
       = Some (Store.Response 200 (Store.JobBody (Some job)))
    /\ Store.upload_jobs (CsvProcess.handler sv w req).2 !! id = Some job
    /\ Store.customers (CsvProcess.handler sv w req).2 = Store.customers w ++ added
    /\ (forall headers k rowArray,
          rows !! 0%nat = Some headers -> rows !! S k = Some rowArray ->
          Js.truthy_opt (CsvProcess.customer_of cm headers rowArray !! "name") = true ->
          Js.truthy_opt (CsvProcess.customer_of cm headers rowArray !! "email") = true ->
          Regex.test Regex.email_re
            (default "" (CsvProcess.customer_of cm headers rowArray !! "email")) = false ->
          exists errors,
            Store.job_errors job = Some errors
            /\ Store.RowError (Z.of_nat k + 2) "Invalid email format" ∈ errors)
    /\ (forall headers k rowArray,
          rows !! 0%nat = Some headers -> rows !! S k = Some rowArray ->
          Js.truthy_opt (CsvProcess.customer_of cm headers rowArray !! "name") = false ->
          exists errors,
            Store.job_errors job = Some errors
            /\ Store.RowError (Z.of_nat k + 2) "Name is required" ∈ errors)
    /\ (forall c, c ∈ added ->
          exists headers k rowArray customer,
            rows !! 0%nat = Some headers /\ rows !! S k = Some rowArray
            /\ CsvProcess.process_row sv cm headers rowArray (Z.of_nat k + 2) = inr customer
            /\ c = CsvProcess.with_org org customer
            /\ (forall e, c !! "email" = Some e -> Regex.test Regex.email_re e = true))
    /\ ((forall tbl batch, Store.insert_error sv tbl batch = None) ->
        added = CsvProcess.with_org org
                  <$> omap CsvProcess.right_of (CsvProcess.row_results sv cm rows)).
Proof.
  intros Hp.
  apply processable_run in Hp as (id & org & job0 & s & Hid & Hjob & Horg & Hloop & ->).
  pose proof Hloop as Hloop'.
  apply insert_loop_spec in Hloop as (added & dberrors & Ht & He & Hc & Hin).
  simpl in Ht, He, Hc.
  exists id, org. eexists. exists added.
  split_and!; try done.
  - by rewrite Hjob, <- Horg.
  - simpl. by rewrite lookup_insert_eq.
  - intros headers k rowArray Hh Hk Hname Hemail Htest.
    destruct rows as [|headers' data]; [done|].
    simpl in Hh, Hk. simplify_eq.
    assert (Store.RowError (Z.of_nat k + 2) "Invalid email format"
              ∈ CsvProcess.ins_errors s) as Hmem.
    { rewrite He, read_rows_errors. apply elem_of_app. left.
      apply list_elem_of_omap.
      exists (inl (Store.RowError (Z.of_nat k + 2) "Invalid email format")).
      split; [|done]. simpl.
      apply list_elem_of_lookup. exists k.
      rewrite (results_from_lookup _ _ _ _ _ _ _ Hk).
      rewrite (process_row_invalid_email sv cm headers rowArray _ Hname Hemail Htest).
      do 3 f_equal. lia. }
    exists (CsvProcess.ins_errors s). split; [|done].
    simpl. destruct (CsvProcess.ins_errors s); [by apply elem_of_nil in Hmem | done].
  - intros headers k rowArray Hh Hk Hname.
    destruct rows as [|headers' data]; [done|].
    simpl in Hh, Hk. simplify_eq.
    assert (Store.RowError (Z.of_nat k + 2) "Name is required"
              ∈ CsvProcess.ins_errors s) as Hmem.
    { rewrite He, read_rows_errors. apply elem_of_app. left.
      apply list_elem_of_omap.
      exists (inl (Store.RowError (Z.of_nat k + 2) "Name is required")).
      split; [|done]. simpl.
      apply list_elem_of_lookup. exists k.
      rewrite (results_from_lookup _ _ _ _ _ _ _ Hk).
      rewrite (process_row_no_name sv cm headers rowArray _ Hname).
      do 3 f_equal. lia. }
    exists (CsvProcess.ins_errors s). split; [|done].
    simpl. destruct (CsvProcess.ins_errors s); [by apply elem_of_nil in Hmem | done].
  - intros c Hc'. apply Hin in Hc' as (c0 & Hc0 & ->).
    rewrite read_rows_customers in Hc0.
    apply list_elem_of_omap in Hc0 as (x & Hx & Hr).
    destruct rows as [|headers data]; [by apply elem_of_nil in Hx|].
    simpl in Hx. apply results_from_elem in Hx as (k & rowArray & Hk & ->).
    destruct (CsvProcess.process_row sv cm headers rowArray (1 + Z.of_nat k + 1))
      as [e|customer] eqn:Hrow; [discriminate|].
    simpl in Hr. simplify_eq.
    exists headers, k, rowArray, c0. split_and!; try done.
    + rewrite <- Hrow. f_equal. lia.
    + intros e. unfold CsvProcess.with_org. rewrite lookup_insert_ne by done.
      by apply (process_row_accepted _ _ _ _ _ _ Hrow).
  - intros Hok. apply (insert_loop_all_ok _ _ _ _ _ _ _ Hok) in Hloop' as [Ht' _].
    simpl in Ht'. rewrite drop_0, read_rows_customers in Ht'.
    rewrite Ht in Ht'. by apply app_inv_head in Ht'.
Qed.

Lemma process_invalid_email_rows_witness :
  CsvProcess.processable Sample.sv Sample.w Sample.process_request Sample.mapping
    Sample.rows
  /\ exists id org job added,
    CsvProcess.query_id Sample.process_request = Some id
    /\ Store.job_org_id <$> Store.upload_jobs Sample.w !! id = Some org
    /\ (CsvProcess.handler Sample.sv Sample.w Sample.process_request).1
       = Some (Store.Response 200 (Store.JobBody (Some job)))
    /\ Store.upload_jobs
         (CsvProcess.handler Sample.sv Sample.w Sample.process_request).2 !! id = Some job
    /\ Store.customers (CsvProcess.handler Sample.sv Sample.w Sample.process_request).2
       = Store.customers Sample.w ++ added
    /\ (forall headers k rowArray,
          Sample.rows !! 0%nat = Some headers -> Sample.rows !! S k = Some rowArray ->
          Js.truthy_opt
            (CsvProcess.customer_of Sample.mapping headers rowArray !! "name") = true ->
          Js.truthy_opt
            (CsvProcess.customer_of Sample.mapping headers rowArray !! "email") = true ->
          Regex.test Regex.email_re
            (default "" (CsvProcess.customer_of Sample.mapping headers rowArray !! "email"))
          = false ->
          exists errors,
            Store.job_errors job = Some errors
            /\ Store.RowError (Z.of_nat k + 2) "Invalid email format" ∈ errors)
    /\ (forall headers k rowArray,
          Sample.rows !! 0%nat = Some headers -> Sample.rows !! S k = Some rowArray ->
          Js.truthy_opt
            (CsvProcess.customer_of Sample.mapping headers rowArray !! "name") = false ->
          exists errors,
            Store.job_errors job = Some errors
            /\ Store.RowError (Z.of_nat k + 2) "Name is required" ∈ errors)
    /\ (forall c, c ∈ added ->
          exists headers k rowArray customer,
            Sample.rows !! 0%nat = Some headers /\ Sample.rows !! S k = Some rowArray
            /\ CsvProcess.process_row Sample.sv Sample.mapping headers rowArray
                 (Z.of_nat k + 2) = inr customer
            /\ c = CsvProcess.with_org org customer
            /\ (forall e, c !! "email" = Some e -> Regex.test Regex.email_re e = true))
    /\ ((forall tbl batch, Store.insert_error Sample.sv tbl batch = None) ->
        added = CsvProcess.with_org org
                  <$> omap CsvProcess.right_of
                        (CsvProcess.row_results Sample.sv Sample.mapping Sample.rows)).
Proof.
  assert (CsvProcess.processable Sample.sv Sample.w Sample.process_request
            Sample.mapping Sample.rows) as Hp.
  { exists "job-1", "user-1", Sample.pending_job, Sample.mapping_json, Sample.guests_csv.
    split_and!; vm_compute; reflexivity. }
  split; [exact Hp|].
  apply (process_invalid_email_rows Sample.sv Sample.w Sample.process_request). exact Hp.
Defined.

(** ** The CSV upload route *)

Lemma upload_200 (sv : Store.services) (w : Store.world) (req : CsvUpload.request) :
  Store.status (CsvUpload.POST sv w req).1 = 200 ->
  exists user org name content first rest id,
    Store.authenticate sv (CsvUpload.authorization req) = inr user
    /\ Store.profile_org w user = Some org
    /\ CsvUpload.body_form req = CsvUpload.FormFile name content
    /\ Js.endsWith name ".csv" = true
    /\ CsvUpload.lines_of content = first :: rest
    /\ Store.upload_jobs w !! id = None
    /\ let job := Store.UploadJob org user name (CsvUpload.filepath_of sv name)
                    (Some "uploaded") (Z.of_nat (length (first :: rest)) - 1) 0
                    (CsvUpload.fields_of first) (Some []) None in
       CsvUpload.POST sv w req
       = (Store.Response 200
            (Store.UploadBody id (CsvUpload.fields_of first)
               (CsvUpload.fields_of <$> CsvUpload.slice_1_6 (first :: rest))
               (Z.of_nat (length (first :: rest)) - 1)),
          Store.World (Store.users w) (<[id := job]> (Store.upload_jobs w))
            (Store.customers w)
            (<[CsvUpload.filepath_of sv name := content]> (Store.files w))).
Proof.
  unfold CsvUpload.POST.
  destruct (Store.authenticate sv (CsvUpload.authorization req)) as [r|user] eqn:Hauth.
  { simpl. intros H. apply authenticate_inl in Hauth. lia. }
  destruct (Store.profile_org w user) as [org|] eqn:Horg; [|discriminate].
  destruct (CsvUpload.body_form req) as [| |value|name content] eqn:Hform;
    try discriminate.
  { destruct (Js.truthy value); discriminate. }
  destruct (Js.endsWith name ".csv") eqn:Hext; [|discriminate].
  simpl negb. cbv iota zeta.
  destruct (Store.fs_throws sv Store.mkdirSync w _); [discriminate|].
  destruct (Store.fs_throws sv Store.writeFileSync w _); [discriminate|].
  destruct (Store.fs_throws sv Store.readFileSync _ _); [discriminate|].
  unfold CsvUpload.clean_up.
  destruct (CsvUpload.lines_of content) as [|first rest] eqn:Hlines.
  { destruct (Store.fs_throws sv Store.unlinkSync _ _); discriminate. }
  destruct (Store.new_job_id sv _ _) as [id|] eqn:Hid.
  2:{ destruct (Store.fs_throws sv Store.unlinkSync _ _); discriminate. }
  simpl Store.upload_jobs.
  destruct (Store.upload_jobs w !! id) eqn:Hfresh.
  { destruct (Store.fs_throws sv Store.unlinkSync _ _); discriminate. }
  intros _. exists user, org, name, content, first, rest, id.
  split_and!; try done.
Qed.

(** The process route never touches a job that is not pending. *)
Lemma process_not_pending (sv : Store.services) (w : Store.world)
    (req : CsvProcess.request) (id : string) (job : Store.upload_job) :
  CsvProcess.query_id req = Some id ->
  Store.upload_jobs w !! id = Some job ->
  Store.job_status job <> Some "pending" ->
  (CsvProcess.handler sv w req).2 = w
  /\ (exists r, (CsvProcess.handler sv w req).1 = Some r
                /\ (Store.status r = 400 \/ Store.status r = 401
                    \/ Store.status r = 404 \/ Store.status r = 405))
  /\ (CsvProcess.method req = "POST" ->
      forall user,
        Store.authenticate sv (CsvProcess.authorization req) = inr user ->
        Store.profile_org w user = Some (Store.job_org_id job) ->
        exists msg,
          (CsvProcess.handler sv w req).1
          = Some (Store.Response 400 (Store.ErrorBody msg))
          /\ (Js.truthy id = true -> msg = "Upload job already processed")).
Proof.
  intros Hid Hjob Hst. unfold CsvProcess.handler. rewrite Hid.
  destruct (String.eqb_spec (CsvProcess.method req) "POST") as [Hm|Hm]; simpl.
  2:{ split_and!; [done | eauto 10 | done]. }
  destruct (Js.truthy id) eqn:Hid'; simpl.
  2:{ split_and!; [done | eauto 10 | intros _ user _ _; eexists; split; [done|discriminate]]. }
  destruct (Store.authenticate sv (CsvProcess.authorization req)) as [r|user] eqn:Hauth.
  { simpl. apply authenticate_inl in Hauth.
    split_and!; [done | eauto 10 | intros _ ? [=]]. }
  destruct (Store.profile_org w user) as [org|] eqn:Horg; simpl.
  2:{ split_and!; [done | eauto 10 | intros _ ? [= <-] ?; congruence]. }
  unfold CsvProcess.find_job. rewrite Hjob.
  destruct (String.eqb_spec (Store.job_org_id job) org) as [Ho|Ho]; simpl.
  2:{ split_and!; [done | eauto 10 | intros _ ? [= <-] ?; congruence]. }
  rewrite bool_decide_eq_false_2 by done. simpl.
  split_and!; [done | eauto 10 | intros _ ? _ _; eauto].
Qed.

(** C9. The process route answers a call on a job whose status is not
    'pending' with an error and changes nothing; once the caller is
    authenticated as a member of the job's organization the answer is
    400 'Upload job already processed'. Every job the upload route creates
    has status 'uploaded', so this is what a call of the process route on
    it gets: the file is not processed. *)
Theorem uploaded_job_never_processed (sv : Store.services) (w : Store.world)
    (ureq : CsvUpload.request) :
  (forall (sv' : Store.services) (w' : Store.world) (preq : CsvProcess.request)
          (id : string) (job : Store.upload_job),
      CsvProcess.query_id preq = Some id ->
      Store.upload_jobs w' !! id = Some job ->
      Store.job_status job <> Some "pending" ->
      (CsvProcess.handler sv' w' preq).2 = w'
      /\ (exists r, (CsvProcess.handler sv' w' preq).1 = Some r
                    /\ (Store.status r = 400 \/ Store.status r = 401
                        \/ Store.status r = 404 \/ Store.status r = 405))
      /\ (CsvProcess.method preq = "POST" ->
          forall user,
            Store.authenticate sv' (CsvProcess.authorization preq) = inr user ->
            Store.profile_org w' user = Some (Store.job_org_id job) ->
            exists msg,
              (CsvProcess.handler sv' w' preq).1
              = Some (Store.Response 400 (Store.ErrorBody msg))
              /\ (Js.truthy id = true -> msg = "Upload job already processed")))
  /\ (Store.status (CsvUpload.POST sv w ureq).1 = 200 ->
      exists id job headers sample_rows total_rows,
        Store.payload (CsvUpload.POST sv w ureq).1
        = Store.UploadBody id headers sample_rows total_rows
        /\ Store.upload_jobs w !! id = None
        /\ Store.upload_jobs (CsvUpload.POST sv w ureq).2 !! id = Some job
        /\ Store.job_status job = Some "uploaded"
        /\ forall (sv' : Store.services) (preq : CsvProcess.request),
             CsvProcess.query_id preq = Some id ->
             let w1 := (CsvUpload.POST sv w ureq).2 in
             (CsvProcess.handler sv' w1 preq).2 = w1
             /\ (exists r, (CsvProcess.handler sv' w1 preq).1 = Some r
                           /\ (Store.status r = 400 \/ Store.status r = 401
                               \/ Store.status r = 404 \/ Store.status r = 405))
             /\ (CsvProcess.method preq = "POST" ->
                 forall user,
                   Store.authenticate sv' (CsvProcess.authorization preq) = inr user ->
                   Store.profile_org w1 user = Some (Store.job_org_id job) ->
                   exists msg,
                     (CsvProcess.handler sv' w1 preq).1
                     = Some (Store.Response 400 (Store.ErrorBody msg))
                     /\ (Js.truthy id = true -> msg = "Upload job already processed"))).
Proof.
  split.
  { intros sv' w' preq id job. apply process_not_pending. }
  intros H.
  apply upload_200 in H
    as (user & org & name & content & first & rest & id
        & Hauth & Horg & Hform & Hext & Hlines & Hfresh & ->).
  eexists id, _, _, _, _. split_and!; [reflexivity | done | | |].
  - simpl. apply lookup_insert_eq.
  - reflexivity.
  - intros sv' preq Hq. cbv zeta. apply (process_not_pending sv' _ preq id); [done | |].
    + simpl. apply lookup_insert_eq.
    + simpl. discriminate.
Qed.

Lemma uploaded_job_never_processed_witness :
  Store.status (CsvUpload.POST Sample.sv Sample.w Sample.upload_request).1 = 200
  /\ exists id job headers sample_rows total_rows,
    Store.payload (CsvUpload.POST Sample.sv Sample.w Sample.upload_request).1
    = Store.UploadBody id headers sample_rows total_rows
    /\ Store.upload_jobs Sample.w !! id = None
    /\ Store.upload_jobs (CsvUpload.POST Sample.sv Sample.w Sample.upload_request).2 !! id
       = Some job
    /\ Store.job_status job = Some "uploaded"
    /\ forall (sv' : Store.services) (preq : CsvProcess.request),
         CsvProcess.query_id preq = Some id ->
         let w1 := (CsvUpload.POST Sample.sv Sample.w Sample.upload_request).2 in
         (CsvProcess.handler sv' w1 preq).2 = w1
         /\ (exists r, (CsvProcess.handler sv' w1 preq).1 = Some r
                       /\ (Store.status r = 400 \/ Store.status r = 401
                           \/ Store.status r = 404 \/ Store.status r = 405))
         /\ (CsvProcess.method preq = "POST" ->
             forall user,
               Store.authenticate sv' (CsvProcess.authorization preq) = inr user ->
               Store.profile_org w1 user = Some (Store.job_org_id job) ->
               exists msg,
                 (CsvProcess.handler sv' w1 preq).1
                 = Some (Store.Response 400 (Store.ErrorBody msg))
                 /\ (Js.truthy id = true -> msg = "Upload job already processed")).
Proof.
  split; [vm_compute; reflexivity|].
  destruct (uploaded_job_never_processed Sample.sv Sample.w Sample.upload_request)
    as [_ H].
  apply H. vm_compute. reflexivity.
Defined.

Example upload_then_process_run :
  Store.status <$>
    (CsvProcess.handler Sample.sv
       (CsvUpload.POST Sample.sv Sample.w Sample.upload_request).2
       (CsvProcess.Request "POST" (Some "job-2") (Some "Bearer secret") true
          (Some Sample.mapping_json))).1
  = Some 400.
Proof. vm_compute. reflexivity. Qed.

(** ** The previews *)

Lemma take_snoc_5 {A : Type} (seen : list A) (r : A) :
  take 5 (seen ++ [r])
  = if (length (take 5 seen) <? 5)%nat then take 5 seen ++ [r] else take 5 seen.
Proof.
  destruct (Nat.ltb_spec (length (take 5 seen)) 5) as [Hlt|Hge].
  - rewrite length_take in Hlt.
    rewrite (take_ge seen) by lia. apply take_ge. rewrite length_app. simpl. lia.
  - rewrite length_take in Hge. by rewrite take_app_le by lia.
Qed.

Lemma scan_fold (rest seen : list (list string)) (st : CsvPreview.scan_state) :
  CsvPreview.isFirstRow st = false ->
  CsvPreview.sampleRows st = take 5 seen ->
  CsvPreview.rowCount st = Z.of_nat (length seen) ->
  fold_left CsvPreview.on_data rest st
  = CsvPreview.ScanState (CsvPreview.st_headers st) false
      (Z.of_nat (length (seen ++ rest))) (take 5 (seen ++ rest)).
Proof.
  revert seen st. induction rest as [|r rest IH]; intros seen st Hf Hs Hc; simpl.
  - rewrite app_nil_r. destruct st; simpl in *. by subst.
  - rewrite (IH (seen ++ [r])).
    + unfold CsvPreview.on_data. rewrite Hf. simpl. by rewrite <- !app_assoc.
    + unfold CsvPreview.on_data. by rewrite Hf.
    + unfold CsvPreview.on_data. rewrite Hf. simpl. rewrite Hs. symmetry. apply take_snoc_5.
    + unfold CsvPreview.on_data. rewrite Hf. simpl. rewrite Hc, length_app. simpl. lia.
Qed.

Lemma scan_rows (rows : list (list string)) :
  CsvPreview.scan rows
  = CsvPreview.ScanState (default [] (head rows)) (bool_decide (rows = []))
      (Z.of_nat (length (tail rows))) (take 5 (tail rows)).
Proof.
  unfold CsvPreview.scan. destruct rows as [|headers data]; [reflexivity|].
  simpl fold_left. unfold CsvPreview.on_data at 2. simpl.
  by rewrite (scan_fold data []).
Qed.

(** C10, as stated, fails. On the upload route the headers are the fields
    of the first line that is not blank, which need not be the file's first
    line; and the preview route answers an empty file with 500, not with
    400. *)
Lemma preview_first_line_counterexample :
  ~ (forall (sv : Store.services) (w : Store.world) (req : CsvUpload.request)
            (name content id : string) (headers : list string)
            (sample_rows : list (list string)) (total_rows : Z),
        CsvUpload.body_form req = CsvUpload.FormFile name content ->
        (CsvUpload.POST sv w req).1
        = Store.Response 200 (Store.UploadBody id headers sample_rows total_rows) ->
        Some headers = CsvUpload.fields_of <$> head (Js.split Js.newline content))
  /\ ~ (forall (sv : Store.services) (preq : CsvPreview.request),
          CsvPreview.file preq = Some "" ->
          CsvPreview.status (CsvPreview.handler sv preq) = 400).
Proof.
  split.
  - intros H.
    specialize (H Sample.sv Sample.w
                  (CsvUpload.Request (Some "Bearer secret")
                     (CsvUpload.FormFile "guests.csv" Sample.blank_first_content))
                  "guests.csv" Sample.blank_first_content "job-2"
                  ["Name"; "Email"] [["Ann"; "ann@example.com"]] 1 eq_refl).
    assert (Some ["Name"; "Email"] = Some [""]) as Habs
      by (apply H; vm_compute; reflexivity).
    discriminate Habs.
  - intros H.
    specialize (H Sample.sv
                  (CsvPreview.Request "POST" (Some "Bearer secret") true (Some ""))
                  eq_refl).
    vm_compute in H. discriminate H.
Qed.

(** C10, amended. For a file with at least one line that is not blank
    (uploaded by a member of an organization under a name ending in .csv,
    the file being written to the uploads directory and read back without
    error, the job insert succeeding) the upload route answers 200, and it
    answers 200 only for such a file; the preview then has the fields of
    the first such line as headers, the fields of at most the first 5
    following ones as sample_rows and their number as total_rows. A file
    without such a line is never answered 200 and never yields an upload
    job; it is answered 400 'CSV file is empty' once it was written, read
    back and removed again without error. When creating the uploads
    directory or writing the file throws, the answer is 500 'Internal server
    error' and nothing is stored. The preview route answers the first
    parsed row as headers, at most the first 5 further rows and their
    number; it never answers 200 for an empty file, which the form parser
    rejects: the answer is then 500 'Internal server error'. *)
Theorem upload_preview (sv : Store.services) (w : Store.world) (req : CsvUpload.request) :
  (forall user org name content first rest id,
      Store.authenticate sv (CsvUpload.authorization req) = inr user ->
      Store.profile_org w user = Some org ->
      CsvUpload.body_form req = CsvUpload.FormFile name content ->
      Js.endsWith name ".csv" = true ->
      CsvUpload.saved sv w name content ->
      CsvUpload.lines_of content = first :: rest ->
      Store.new_job_id sv (CsvUpload.written sv w name content)
        (Store.UploadJob org user name (CsvUpload.filepath_of sv name) (Some "uploaded")
           (Z.of_nat (length (first :: rest)) - 1) 0 (CsvUpload.fields_of first)
           (Some []) None)
      = Some id ->
      Store.upload_jobs w !! id = None ->
      (CsvUpload.POST sv w req).1
      = Store.Response 200
          (Store.UploadBody id (CsvUpload.fields_of first)
             (CsvUpload.fields_of <$> take 5 rest) (Z.of_nat (length rest))))
  /\ (Store.status (CsvUpload.POST sv w req).1 = 200 ->
   exists name content first rest id,
     CsvUpload.body_form req = CsvUpload.FormFile name content
     /\ CsvUpload.lines_of content = first :: rest
     /\ Store.payload (CsvUpload.POST sv w req).1
        = Store.UploadBody id (CsvUpload.fields_of first)
            (CsvUpload.fields_of <$> take 5 rest) (Z.of_nat (length rest))
     /\ (length (CsvUpload.fields_of <$> take 5 rest) <= 5)%nat)
  /\ (forall name content,
        CsvUpload.body_form req = CsvUpload.FormFile name content ->
        CsvUpload.lines_of content = [] ->
        Store.upload_jobs (CsvUpload.POST sv w req).2 = Store.upload_jobs w
        /\ Store.status (CsvUpload.POST sv w req).1 <> 200
        /\ forall user org,
             Store.authenticate sv (CsvUpload.authorization req) = inr user ->
             Store.profile_org w user = Some org ->
             Js.endsWith name ".csv" = true ->
             CsvUpload.saved sv w name content ->
             Store.fs_throws sv Store.unlinkSync (CsvUpload.written sv w name content)
               (CsvUpload.filepath_of sv name) = false ->
             (CsvUpload.POST sv w req).1
             = Store.Response 400 (Store.ErrorBody "CSV file is empty"))
  /\ (forall user org name content,
        Store.authenticate sv (CsvUpload.authorization req) = inr user ->
        Store.profile_org w user = Some org ->
        CsvUpload.body_form req = CsvUpload.FormFile name content ->
        Js.endsWith name ".csv" = true ->
        Store.fs_throws sv Store.mkdirSync w (CsvUpload.uploadsDir sv) = true
        \/ Store.fs_throws sv Store.writeFileSync w (CsvUpload.filepath_of sv name) = true ->
        CsvUpload.POST sv w req
        = (Store.Response 500 (Store.ErrorBody "Internal server error"), w))
  /\ (forall preq : CsvPreview.request,
        CsvPreview.status (CsvPreview.handler sv preq) = 200 ->
        exists content rows,
          CsvPreview.file preq = Some content
          /\ content <> ""
          /\ Store.csv_parse sv content = inr rows
          /\ CsvPreview.payload (CsvPreview.handler sv preq)
             = CsvPreview.PreviewBody
                 (CsvPreview.Preview (default [] (head rows)) (take 5 (tail rows))
                    (Z.of_nat (length (tail rows)))))
  /\ (forall (preq : CsvPreview.request) (user : string),
        CsvPreview.method preq = "POST" ->
        Store.authenticate sv (CsvPreview.authorization preq) = inr user ->
        CsvPreview.file preq = Some "" ->
        CsvPreview.handler sv preq
        = CsvPreview.Response 500 (CsvPreview.ErrorBody "Internal server error")).
Proof.
  split_and!.
  - intros user org name content first rest id Hauth Horg Hform Hext
      (Hmk & Hwr & Hrd) Hlines Hid Hfresh.
    unfold CsvUpload.written in Hrd, Hid.
    unfold CsvUpload.POST. rewrite Hauth, Horg, Hform, Hext. simpl negb. cbv iota zeta.
    rewrite Hmk, Hwr, Hrd, Hlines, Hid. simpl Store.upload_jobs. rewrite Hfresh. simpl.
    do 2 f_equal. rewrite Nat2Z.inj_succ. lia.
  - intros H.
    apply upload_200 in H
      as (user & org & name & content & first & rest & id
          & Hauth & Horg & Hform & Hext & Hlines & Hfresh & ->).
    exists name, content, first, rest, id. split_and!; [done | done | |].
    + simpl. f_equal. rewrite Nat2Z.inj_succ. lia.
    + rewrite length_fmap, length_take. lia.
  - intros name content Hform Hlines. unfold CsvUpload.POST.
    destruct (Store.authenticate sv (CsvUpload.authorization req)) as [r|user] eqn:Hauth.
    { apply authenticate_inl in Hauth. simpl. split_and!; [done | lia | intros ? ? [=]]. }
    destruct (Store.profile_org w user) as [org|] eqn:Horg; simpl.
    2:{ split_and!; [done | done | intros ? ? [= <-] ?; congruence]. }
    rewrite Hform.
    destruct (Js.endsWith name ".csv") eqn:Hext; simpl.
    2:{ split_and!; [done | done | intros ? ? ? ? ?; congruence]. }
    unfold CsvUpload.saved, CsvUpload.written, CsvUpload.clean_up. rewrite Hlines.
    destruct (Store.fs_throws sv Store.mkdirSync w _) eqn:Hmk; simpl.
    { split_and!; [done | done | intros ? ? _ _ _ (? & _); congruence]. }
    destruct (Store.fs_throws sv Store.writeFileSync w _) eqn:Hwr; simpl.
    { split_and!; [done | done | intros ? ? _ _ _ (_ & ? & _); congruence]. }
    destruct (Store.fs_throws sv Store.readFileSync _ _) eqn:Hrd; simpl.
    { split_and!; [done | done | intros ? ? _ _ _ (_ & _ & ?); congruence]. }
    destruct (Store.fs_throws sv Store.unlinkSync _ _) eqn:Hun; simpl.
    { split_and!; [done | done | intros ? ? _ _ _ _ ?; congruence]. }
    split_and!; done.
  - intros user org name content Hauth Horg Hform Hext Hthrow.
    unfold CsvUpload.POST. rewrite Hauth, Horg, Hform, Hext. simpl negb. cbv iota zeta.
    destruct (Store.fs_throws sv Store.mkdirSync w _) eqn:Hmk; [reflexivity|].
    destruct Hthrow as [Hthrow|Hthrow]; [discriminate|]. by rewrite Hthrow.
  - intros preq. unfold CsvPreview.handler.
    destruct (negb (CsvPreview.method preq =? "POST")%string); [discriminate|].
    destruct (Store.authenticate sv (CsvPreview.authorization preq)) as [r|user] eqn:Hauth.
    { apply authenticate_inl in Hauth. simpl. lia. }
    destruct (CsvPreview.form_parses preq); [|discriminate]. simpl negb. simpl orb.
    destruct (bool_decide (CsvPreview.file preq = Some "")) eqn:Hempty; [discriminate|].
    apply bool_decide_eq_false in Hempty.
    destruct (CsvPreview.file preq) as [content|]; [|discriminate].
    destruct (Store.csv_parse sv content) as [msg|rows] eqn:Hcsv; [discriminate|].
    intros _. exists content, rows. split_and!; [done | congruence | done |].
    simpl. by rewrite scan_rows.
  - intros preq user Hm Hauth Hfile. unfold CsvPreview.handler.
    rewrite Hm, Hauth, Hfile. simpl. by rewrite orb_true_r.
Qed.

Lemma upload_preview_witness :
  exists id,
    Store.payload (CsvUpload.POST Sample.sv Sample.w Sample.upload_request).1
    = Store.UploadBody id ["Name"; "Email"] [["Ann"; "ann@example.com"]] 1.
Proof.
  destruct (upload_preview Sample.sv Sample.w Sample.upload_request) as (_ & H & _).
  destruct H as (name & content & first & rest & id & Hform & Hlines & Hp & _).
  { vm_compute. reflexivity. }
  exists id. rewrite Hp.
  injection Hform as <- <-.
  vm_compute in Hlines. injection Hlines as <- <-.
  vm_compute. reflexivity.
Defined.

(** A file uploaded under a name with a directory is written outside the
    uploads directory proper; where that directory does not exist the write
    throws and the route answers 500. *)
Example upload_nested_name_run :
  CsvUpload.filepath_of Sample.sv "dir/guests.csv"
  = "/app/uploads/1700000000000-dir/guests.csv"
  /\ CsvUpload.POST Sample.sv Sample.w Scenario.nested_upload
     = (Store.Response 500 (Store.ErrorBody "Internal server error"), Sample.w)
  /\ Store.status (CsvUpload.POST Sample.sv Sample.w Sample.upload_request).1 = 200.
Proof. split_and!; vm_compute; reflexivity. Qed.

(** ** Requests without a valid token *)

(** C6, as stated, fails: the process route answers a GET request that
    carries no token with 405. *)
Lemma unauthorized_401_counterexample :
  ~ (forall (sv : Store.services) (w : Store.world) (req : CsvProcess.request),
        Store.no_valid_token sv (CsvProcess.authorization req) ->
        exists r, (CsvProcess.handler sv w req).1 = Some r
                  /\ (Store.status r = 401
                      /\ (Store.status r = 401 \/ Store.status r = 400
                          \/ Store.status r = 404 \/ Store.status r = 500))).
Proof.
  intros H.
  destruct (H Sample.sv Sample.w (CsvProcess.Request "GET" (Some "job-1") None true None) I)
    as (r & Hr & H401 & _).
  vm_compute in Hr. injection Hr as <-. discriminate H401.
Qed.

(** The process route gives no answer exactly when its checks pass and the
    file of the job is missing: the read stream then fails and nothing
    handles that. *)
Lemma handler_no_answer (sv : Store.services) (w : Store.world)
    (req : CsvProcess.request) :
  (CsvProcess.handler sv w req).1 = None
  <-> exists id uploadJob,
        CsvProcessRuns.opens_file sv w req id uploadJob
        /\ Store.files w !! Store.job_file_path uploadJob = None.
Proof.
  unfold CsvProcessRuns.opens_file. split.
  - unfold CsvProcess.handler.
    destruct (String.eqb_spec (CsvProcess.method req) "POST") as [Hm|Hm];
      [|discriminate]. simpl negb. cbv iota.
    destruct (CsvProcess.query_id req) as [id|]; [|discriminate].
    destruct (Js.truthy id) eqn:Hid; [|discriminate]. simpl negb. cbv iota.
    destruct (Store.authenticate sv (CsvProcess.authorization req)) as [r|user] eqn:Hauth;
      [discriminate|].
    destruct (Store.profile_org w user) as [org|] eqn:Horg; [|discriminate].
    unfold CsvProcess.find_job.
    destruct (Store.upload_jobs w !! id) as [uploadJob|] eqn:Hjob; [|discriminate].
    destruct (String.eqb_spec (Store.job_org_id uploadJob) org) as [Ho|Ho];
      [|discriminate].
    destruct (bool_decide (Store.job_status uploadJob = Some "pending")) eqn:Hst;
      [|discriminate].
    apply bool_decide_eq_true in Hst. simpl negb. cbv iota.
    destruct (CsvProcess.form_parses req) eqn:Hform; [|discriminate].
    simpl negb. cbv iota.
    destruct (CsvProcess.column_mapping_field req) as [mappingStr|]; [|discriminate].
    simpl Js.truthy_opt. destruct (Js.truthy mappingStr) eqn:Htr; [|discriminate].
    simpl negb. cbv iota. simpl default.
    destruct (Store.json_parse sv mappingStr) as [cm|] eqn:Hcm; [|discriminate].
    cbv zeta. simpl Store.files.
    destruct (Store.files w !! Store.job_file_path uploadJob) as [content|] eqn:Hfile.
    + destruct (Store.csv_parse sv content) as [message|rows]; [discriminate|].
      unfold CsvProcess.on_end.
      destruct (insert_loop_terminates
                  (length (CsvProcess.st_customers (CsvProcess.read_rows sv cm rows)))
                  sv org (CsvProcess.st_customers (CsvProcess.read_rows sv cm rows)) 0
                  (CsvProcess.InsertState
                     (Store.customers
                        (Store.set_jobs w
                           (alter (fun j => CsvProcess.set_status j "processing"
                                              (Store.job_errors j) (Some cm))
                              id (Store.upload_jobs w))))
                     (CsvProcess.st_errors (CsvProcess.read_rows sv cm rows)) 0))
        as [s Hs]; [lia|].
      rewrite Hs. discriminate.
    + intros _. exists id, uploadJob. subst org.
      split_and!; eauto.
  - intros (id & uploadJob & (Hm & Hq & Hid & (user & Hauth & Horg) & Hjob & Hst
                              & Hform & (mappingStr & cm & Hfield & Htr & Hcm)) & Hfile).
    unfold CsvProcess.handler, CsvProcess.find_job.
    rewrite Hm, Hq, Hid, Hauth, Horg, Hjob, String.eqb_refl, Hform, Hfield. simpl.
    rewrite String.eqb_refl, bool_decide_eq_true_2, Htr by done. simpl.
    by rewrite Hcm, Hfile.
Qed.

Lemma proxy_relay_status (failure : string)
    (on_ok : option string -> option Proxy.response) (r : Proxy.fetch_result) :
  (forall json resp, on_ok json = Some resp -> Proxy.status resp = 200) ->
  Proxy.status (Proxy.relay failure on_ok r) = 200
  \/ Proxy.status (Proxy.relay failure on_ok r) = 500
  \/ exists json,
       r = Proxy.FetchResponse (Proxy.status (Proxy.relay failure on_ok r)) json
       /\ Proxy.ok (Proxy.status (Proxy.relay failure on_ok r)) = false.
Proof.
  intros Hok. unfold Proxy.relay. destruct r as [|st json]; [by right; left|].
  destruct (Proxy.ok st) eqn:E; simpl.
  - destruct (on_ok json) as [resp|] eqn:Hresp; simpl; [|by right; left].
    left. by apply (Hok json).
  - destruct json as [error|]; [|by right; left].
    unfold Proxy.NextResponse_json. destruct (_ && _); simpl; [|by right; left].
    right; right. eauto.
Qed.

Lemma pass_data_200 (json : option string) (resp : Proxy.response) :
  Proxy.pass_data json = Some resp -> Proxy.status resp = 200.
Proof.
  destruct json as [data|]; [|discriminate]. simpl. by intros [= <-].
Qed.

(** C6, amended. The CSV upload route answers every request without a
    valid Bearer token with 401 and leaves the persisted state as it was.
    The CSV process and preview routes do so once their earlier checks
    pass: a request that is not a POST is answered with 405, and the process
    route answers 400 when the job id is missing; the state is unchanged in
    all these cases. Whenever these three routes answer, the status is one
    of 200, 400, 401, 404, 405 and 500; the process route gives no answer
    exactly when its checks pass and the file of the job is missing from
    disk. No campaign proxy route looks at the Authorization header: its
    answer is the same whatever the header is, and its status is 200, 500
    or a non-OK status the backend answered with, so that a request without
    a token is answered 401 only when the backend answers 401; for instance
    the pause route answers such a request 200 with the backend's body when
    the backend answers 200 with a JSON body. *)
Theorem unauthorized_requests (sv : Store.services) (w : Store.world) :
  (forall req : CsvUpload.request,
      Store.no_valid_token sv (CsvUpload.authorization req) ->
      Store.status (CsvUpload.POST sv w req).1 = 401
      /\ (CsvUpload.POST sv w req).2 = w)
  /\ (forall req : CsvProcess.request,
        Store.no_valid_token sv (CsvProcess.authorization req) ->
        (CsvProcess.handler sv w req).2 = w
        /\ exists r,
             (CsvProcess.handler sv w req).1 = Some r
             /\ Store.status r
                = if negb (CsvProcess.method req =? "POST")%string then 405
                  else if negb (Js.truthy_opt (CsvProcess.query_id req)) then 400
                  else 401)
  /\ (forall req : CsvPreview.request,
        Store.no_valid_token sv (CsvPreview.authorization req) ->
        CsvPreview.status (CsvPreview.handler sv req)
        = if negb (CsvPreview.method req =? "POST")%string then 405 else 401)
  /\ (forall (req : CsvProcess.request) (r : Store.response),
        (CsvProcess.handler sv w req).1 = Some r ->
        Store.status r ∈ [200; 400; 401; 404; 405; 500])
  /\ (forall req : CsvProcess.request,
        (CsvProcess.handler sv w req).1 = None
        <-> exists id uploadJob,
              CsvProcessRuns.opens_file sv w req id uploadJob
              /\ Store.files w !! Store.job_file_path uploadJob = None)
  /\ (forall req : CsvUpload.request,
        Store.status (CsvUpload.POST sv w req).1 ∈ [200; 400; 401; 500])
  /\ (forall req : CsvPreview.request,
        CsvPreview.status (CsvPreview.handler sv req) ∈ [200; 400; 401; 405; 500])
  /\ Forall (fun '(_, route) =>
               forall (url : string)
                      (fetch : Proxy.backend_request -> Proxy.fetch_result)
                      (req : Proxy.request) (header : option string),
                 route url fetch req
                 = route url fetch
                     (Proxy.Request (Proxy.params_id req) header (Proxy.search req)
                        (Proxy.json_body req)))
       Proxy.routes
  /\ Forall (fun '(_, route) =>
               forall (url : string)
                      (fetch : Proxy.backend_request -> Proxy.fetch_result)
                      (req : Proxy.request),
                 let st := Proxy.status (route url fetch req) in
                 st = 200 \/ st = 500
                 \/ exists call json,
                      fetch call = Proxy.FetchResponse st json /\ Proxy.ok st = false)
       Proxy.routes
  /\ (forall (url data : string) (req : Proxy.request),
        Proxy.authorization req = None ->
        Proxy.pause_POST url (fun _ => Proxy.FetchResponse 200 (Some data)) req
        = Proxy.Response 200 (Proxy.Relay data)).
Proof.
  split_and!.
  - intros req [msg Hmsg]%authenticate_rejects. unfold CsvUpload.POST.
    rewrite Hmsg. done.
  - intros req [msg Hmsg]%authenticate_rejects. unfold CsvProcess.handler.
    destruct (negb (CsvProcess.method req =? "POST")%string); [eauto|].
    destruct (CsvProcess.query_id req) as [id|]; simpl; [|eauto].
    destruct (Js.truthy id); simpl; [|eauto].
    rewrite Hmsg. eauto.
  - intros req [msg Hmsg]%authenticate_rejects. unfold CsvPreview.handler.
    destruct (negb (CsvPreview.method req =? "POST")%string); [done|].
    by rewrite Hmsg.
  - intros req r. unfold CsvProcess.handler, CsvProcess.on_end.
    destruct (Store.authenticate sv (CsvProcess.authorization req)) as [r'|user] eqn:Hauth.
    + apply authenticate_inl in Hauth.
      repeat case_match; intros; simplify_eq/=; try rewrite Hauth; set_solver.
    + repeat case_match; intros; simplify_eq/=; set_solver.
  - intros req. apply handler_no_answer.
  - intros req. unfold CsvUpload.POST, CsvUpload.clean_up, CsvUpload.caught.
    destruct (Store.authenticate sv (CsvUpload.authorization req)) as [r'|user] eqn:Hauth.
    + apply authenticate_inl in Hauth. simpl. rewrite Hauth. set_solver.
    + repeat case_match; simpl; set_solver.
  - intros req. unfold CsvPreview.handler.
    destruct (Store.authenticate sv (CsvPreview.authorization req)) as [r'|user] eqn:Hauth.
    + apply authenticate_inl in Hauth.
      repeat case_match; simpl; try rewrite Hauth; set_solver.
    + repeat case_match; simpl; set_solver.
  - unfold Proxy.routes. repeat constructor.
  - unfold Proxy.routes. rewrite !Forall_cons.
    split_and!; [ | | | | | apply Forall_nil_2]; intros url fetch req; cbv zeta;
      unfold Proxy.pause_POST, Proxy.messages_GET, Proxy.campaign_GET,
        Proxy.campaign_PUT, Proxy.campaign_DELETE.
    + edestruct proxy_relay_status as [H|[H|(json & H1 & H2)]];
        [apply pass_data_200 | by left | by right; left | right; right; eauto].
    + edestruct proxy_relay_status as [H|[H|(json & H1 & H2)]];
        [apply pass_data_200 | by left | by right; left | right; right; eauto].
    + edestruct proxy_relay_status as [H|[H|(json & H1 & H2)]];
        [apply pass_data_200 | by left | by right; left | right; right; eauto].
    + destruct (Proxy.json_body req) as [body|]; [|by right; left].
      edestruct proxy_relay_status as [H|[H|(json & H1 & H2)]];
        [apply pass_data_200 | by left | by right; left | right; right; eauto].
    + edestruct proxy_relay_status as [H|[H|(json & H1 & H2)]];
        [ | by left | by right; left | right; right; eauto].
      intros json resp. unfold Proxy.NextResponse_json. simpl. by intros [= <-].
  - intros url data req _. reflexivity.
Qed.

Lemma unauthorized_requests_witness :
  Store.no_valid_token Sample.sv (Some "Bearer wrong")
  /\ Store.status
       (CsvUpload.POST Sample.sv Sample.w
          (CsvUpload.Request (Some "Bearer wrong")
             (CsvUpload.FormFile "guests.csv" Sample.upload_content))).1 = 401
  /\ (CsvUpload.POST Sample.sv Sample.w
        (CsvUpload.Request (Some "Bearer wrong")
           (CsvUpload.FormFile "guests.csv" Sample.upload_content))).2 = Sample.w.
Proof.
  assert (Store.no_valid_token Sample.sv (Some "Bearer wrong")) as Hno.
  { right. intros token Ht. vm_compute in Ht. injection Ht as <-. reflexivity. }
  split; [exact Hno|].
  destruct (unauthorized_requests Sample.sv Sample.w) as [H _].
  exact (H (CsvUpload.Request (Some "Bearer wrong")
              (CsvUpload.FormFile "guests.csv" Sample.upload_content)) Hno).
Defined.

(** ** The campaign proxy routes *)

(** C7, as stated, fails: when the backend answers a non-OK status with a
    body that is not JSON, the route answers 500, not the backend's status. *)
Lemma proxy_status_counterexample :
  ~ (forall (url : string) (fetch : Proxy.backend_request -> Proxy.fetch_result)
            (req : Proxy.request) (st : Z) (json : option string),
        fetch (Proxy.BackendRequest
                 (url ++ "/api/campaigns/" ++ Proxy.params_id req ++ "/pause")%string
                 "POST" None)
        = Proxy.FetchResponse st json ->
        Proxy.ok st = false ->
        Proxy.status (Proxy.pause_POST url fetch req) = st).
Proof.
  intros H.
  specialize (H "http://localhost:8000" (fun _ => Proxy.FetchResponse 502 None)
                (Proxy.Request "c1" None "" None) 502 None eq_refl eq_refl).
  vm_compute in H. discriminate H.
Qed.

Lemma relay_not_ok (failure : string) (on_ok : option string -> option Proxy.response)
    (st : Z) (error : string) :
  Proxy.ok st = false -> 200 <= st <= 599 ->
  Proxy.relay failure on_ok (Proxy.FetchResponse st (Some error))
  = Proxy.Response st (Proxy.Relay error).
Proof.
  intros Hok Hst. unfold Proxy.relay, Proxy.NextResponse_json. rewrite Hok. simpl.
  destruct (Z.leb_spec 200 st); [|lia]. destruct (Z.leb_spec st 599); [|lia]. reflexivity.
Qed.

Lemma relay_not_json (failure : string) (on_ok : option string -> option Proxy.response)
    (st : Z) :
  Proxy.ok st = false ->
  Proxy.relay failure on_ok (Proxy.FetchResponse st None)
  = Proxy.Response 500 (Proxy.Detail failure).
Proof. intros Hok. unfold Proxy.relay. by rewrite Hok. Qed.

Lemma relay_bad_status (failure : string) (on_ok : option string -> option Proxy.response)
    (st : Z) (json : option string) :
  Proxy.ok st = false -> ~ 200 <= st <= 599 ->
  Proxy.relay failure on_ok (Proxy.FetchResponse st json)
  = Proxy.Response 500 (Proxy.Detail failure).
Proof.
  intros Hok Hst. unfold Proxy.relay, Proxy.NextResponse_json. rewrite Hok. simpl.
  destruct json as [error|]; [|reflexivity].
  destruct (Z.leb_spec 200 st), (Z.leb_spec st 599); simpl; try reflexivity. lia.
Qed.

(** C7, amended. Every campaign proxy route passes the request to the
    backend with one call of [fetch]; the PUT route does so when it can read
    the request body, and otherwise answers 500 with its fixed failure
    message whatever the backend would do. When the backend answers a
    non-OK status between 200 and 599 with a JSON body, the route answers
    that body with that status. When the fetch throws, when the backend's
    non-OK answer is not JSON, or when its non-OK status is outside 200 to
    599 (a status no response can be built with), the route answers 500 with
    its fixed failure message. *)
Theorem proxy_routes_relay :
  Forall (fun '(failure, route) =>
            forall (url : string) (req : Proxy.request),
              route url (fun _ => Proxy.FetchThrows) req
              = Proxy.Response 500 (Proxy.Detail failure)
              /\ (forall st,
                     Proxy.ok st = false ->
                     route url (fun _ => Proxy.FetchResponse st None) req
                     = Proxy.Response 500 (Proxy.Detail failure))
              /\ (forall st json,
                     Proxy.ok st = false -> ~ 200 <= st <= 599 ->
                     route url (fun _ => Proxy.FetchResponse st json) req
                     = Proxy.Response 500 (Proxy.Detail failure))
              /\ ((failure = "Failed to update campaign" ->
                   is_Some (Proxy.json_body req)) ->
                  forall st error,
                    Proxy.ok st = false -> 200 <= st <= 599 ->
                    route url (fun _ => Proxy.FetchResponse st (Some error)) req
                    = Proxy.Response st (Proxy.Relay error)))
         Proxy.routes
  /\ (forall (url : string) (fetch : Proxy.backend_request -> Proxy.fetch_result)
             (req : Proxy.request),
        Proxy.json_body req = None ->
        Proxy.campaign_PUT url fetch req
        = Proxy.Response 500 (Proxy.Detail "Failed to update campaign"))
  /\ (forall (url : string) (fetch fetch' : Proxy.backend_request -> Proxy.fetch_result)
             (req : Proxy.request),
        let campaign := (url ++ "/api/campaigns/" ++ Proxy.params_id req)%string in
        let pause := (url ++ "/api/campaigns/" ++ Proxy.params_id req ++ "/pause")%string in
        let messages := (url ++ "/api/campaigns/" ++ Proxy.params_id req
                           ++ "/messages?" ++ Proxy.search req)%string in
        (fetch (Proxy.BackendRequest pause "POST" None)
         = fetch' (Proxy.BackendRequest pause "POST" None) ->
         Proxy.pause_POST url fetch req = Proxy.pause_POST url fetch' req)
        /\ (fetch (Proxy.BackendRequest messages "GET" None)
            = fetch' (Proxy.BackendRequest messages "GET" None) ->
            Proxy.messages_GET url fetch req = Proxy.messages_GET url fetch' req)
        /\ (fetch (Proxy.BackendRequest campaign "GET" None)
            = fetch' (Proxy.BackendRequest campaign "GET" None) ->
            Proxy.campaign_GET url fetch req = Proxy.campaign_GET url fetch' req)
        /\ (forall body,
              Proxy.json_body req = Some body ->
              fetch (Proxy.BackendRequest campaign "PUT" (Some body))
              = fetch' (Proxy.BackendRequest campaign "PUT" (Some body)) ->
              Proxy.campaign_PUT url fetch req = Proxy.campaign_PUT url fetch' req)
        /\ (fetch (Proxy.BackendRequest campaign "DELETE" None)
            = fetch' (Proxy.BackendRequest campaign "DELETE" None) ->
            Proxy.campaign_DELETE url fetch req = Proxy.campaign_DELETE url fetch' req)).
Proof.
  split_and!.
  - unfold Proxy.routes. rewrite !Forall_cons.
    split_and!; [ | | | | | apply Forall_nil_2]; intros url req;
      unfold Proxy.pause_POST, Proxy.messages_GET, Proxy.campaign_GET,
        Proxy.campaign_PUT, Proxy.campaign_DELETE.
    1-3, 5: split_and!;
      [ reflexivity
      | intros; by apply relay_not_json
      | intros; by apply relay_bad_status
      | intros _ st error ? ?; by apply relay_not_ok ].
    destruct (Proxy.json_body req) as [body|].
    + split_and!;
        [ reflexivity
        | intros; by apply relay_not_json
        | intros; by apply relay_bad_status
        | intros _ st error ? ?; by apply relay_not_ok ].
    + split_and!; try done. intros H. by destruct (H eq_refl).
  - intros url fetch req Hbody. unfold Proxy.campaign_PUT. by rewrite Hbody.
  - intros url fetch fetch' req campaign pause messages. subst campaign pause messages.
    unfold Proxy.pause_POST, Proxy.messages_GET, Proxy.campaign_GET,
      Proxy.campaign_PUT, Proxy.campaign_DELETE.
    split_and!.
    + intros Heq. by rewrite Heq.
    + intros Heq. by rewrite Heq.
    + intros Heq. by rewrite Heq.
    + intros body Hbody Heq. by rewrite Hbody, Heq.
    + intros Heq. by rewrite Heq.
Qed.

Lemma proxy_routes_relay_witness :
  Proxy.campaign_PUT "http://localhost:8000"
    (fun _ => Proxy.FetchResponse 404 (Some "{detail:Campaign not found}"))
    (Proxy.Request "c1" None "" (Some "{}"))
  = Proxy.Response 404 (Proxy.Relay "{detail:Campaign not found}").
Proof.
  destruct proxy_routes_relay as [H _].
  unfold Proxy.routes in H. rewrite !Forall_cons in H.
  destruct H as (_ & _ & _ & H & _).
  destruct (H "http://localhost:8000" (Proxy.Request "c1" None "" (Some "{}")))
    as (_ & _ & _ & Hrelay).
  apply Hrelay.
  - intros _. by eexists.
  - reflexivity.
  - lia.
Defined.

(** ** The schema: which definition of a table is in force *)

Lemma installed_tables :
  Schema.installed !! "campaigns" = Some Schema.campaigns_def
  /\ Schema.installed !! "messages" = Some Schema.messages_def
  /\ Schema.installed !! "events" = Some Schema.events_def
  /\ Schema.installed !! "reviews" = Some Schema.reviews_def.
Proof. split_and!; vm_compute; reflexivity. Qed.

(** On a database that was set up by the migration alone, the reviews table
    has no CHECK on the rating. *)
Example reviews_migration_alone :
  Schema.run_script ∅ Schema.reviews_migration_sql !! "reviews"
  = Some Schema.reviews_migration_def
  /\ (fun t : gmap string (gmap string Schema.value) =>
        Schema.get (default ∅ (t !! "r1")) "rating")
     <$> Schema.insert_row (fun _ _ => true) Schema.reviews_migration_def ∅ "r1"
           {[ "rating" := Schema.VInt 7 ]}
     = Some (Schema.VInt 7).
Proof. split; vm_compute; reflexivity. Qed.

(** ** The schema: ratings of reviews *)

Lemma reviews_accepts_rating (refs : string -> string -> bool)
    (tbl : gmap string (gmap string Schema.value)) (id : string)
    (r : gmap string Schema.value) :
  Schema.accepts refs Schema.reviews_def tbl id r = true -> Schema.rating_ok r.
Proof.
  unfold Schema.accepts. intros H.
  apply andb_prop in H as [H _]. apply andb_prop in H as [H _].
  apply andb_prop in H as [_ H].
  unfold Schema.reviews_def in H. cbn [forallb Schema.row_ok] in H.
  unfold Schema.rating_ok.
  destruct (Schema.get r "rating") as [|s|z|b] eqn:E;
    cbn in H; rewrite ?andb_false_r in H; simpl in H;
    repeat (apply andb_prop in H as [? H]); try discriminate.
  exists z. split; [done|].
  repeat match goal with
         | H : _ && _ = true |- _ => apply andb_prop in H as [? ?]
         | H : (if ?b then true else false) = true |- _ => destruct b eqn:?; [|discriminate H]
         end.
  lia.
Qed.

Lemma reviews_defaults_rating (r : gmap string Schema.value) :
  Schema.get (Schema.apply_defaults Schema.reviews_def r) "rating" = Schema.get r "rating".
Proof.
  unfold Schema.apply_defaults, Schema.reviews_def. simpl.
  destruct (r !! "source"); [done|].
  unfold Schema.get. by rewrite lookup_insert_ne.
Qed.

Lemma reviews_exec_rating (refs : string -> string -> bool)
    (tbl : gmap string (gmap string Schema.value)) (s : Schema.statement) :
  map_Forall (fun _ r => Schema.rating_ok r) tbl ->
  map_Forall (fun _ r => Schema.rating_ok r) (Schema.exec refs Schema.reviews_def tbl s).
Proof.
  intros Hall. destruct s as [id r|id changes|id]; simpl.
  - unfold Schema.insert_row. destruct (tbl !! id); [done|].
    destruct (Schema.accepts _ _ _ _ _) eqn:Hacc; [|done]. simpl.
    apply map_Forall_insert_2; [|done]. by apply reviews_accepts_rating in Hacc.
  - unfold Schema.update_row. destruct (tbl !! id); [|done].
    destruct (Schema.accepts _ _ _ _ _) eqn:Hacc; [|done]. simpl.
    apply map_Forall_insert_2; [|done]. by apply reviews_accepts_rating in Hacc.
  - by apply map_Forall_delete.
Qed.

(** C5. The reviews table in force is the one of database_schema.sql, and
    with it, whatever statements are run, every row has an integer rating
    between 1 and 5; an INSERT, or an UPDATE of an existing row, that would
    set another rating is rejected, and the table is left as it was. *)
Theorem reviews_rating_between_1_and_5 (refs : string -> string -> bool) :
  Schema.installed !! "reviews" = Some Schema.reviews_def
  /\ (forall ss : list Schema.statement,
      map_Forall (fun _ r => exists z, Schema.get r "rating" = Schema.VInt z /\ 1 <= z <= 5)
        (fold_left (Schema.exec refs Schema.reviews_def) ss ∅))
  /\ (forall tbl id r,
        ~ (exists z, Schema.get r "rating" = Schema.VInt z /\ 1 <= z <= 5) ->
        Schema.insert_row refs Schema.reviews_def tbl id r = None
        /\ Schema.exec refs Schema.reviews_def tbl (Schema.Insert id r) = tbl)
  /\ (forall tbl id changes v,
        changes !! "rating" = Some v ->
        ~ (exists z, v = Schema.VInt z /\ 1 <= z <= 5) ->
        (is_Some (tbl !! id) ->
         Schema.update_row refs Schema.reviews_def tbl id changes = None)
        /\ Schema.exec refs Schema.reviews_def tbl (Schema.Update id changes) = tbl).
Proof.
  split_and!.
  - apply installed_tables.
  - intros ss.
    assert (forall tbl, map_Forall (fun _ r => Schema.rating_ok r) tbl ->
              map_Forall (fun _ r => Schema.rating_ok r)
                (fold_left (Schema.exec refs Schema.reviews_def) ss tbl)) as Hrun.
    { induction ss as [|s ss IH]; intros tbl Hall; simpl; [done|].
      apply IH. by apply reviews_exec_rating. }
    apply Hrun. apply map_Forall_empty.
  - intros tbl id r Hbad.
    assert (Schema.insert_row refs Schema.reviews_def tbl id r = None) as Hnone.
    { unfold Schema.insert_row. destruct (tbl !! id); [done|].
      destruct (Schema.accepts _ _ _ _ _) eqn:Hacc; [|done].
      apply reviews_accepts_rating in Hacc. unfold Schema.rating_ok in Hacc.
      rewrite reviews_defaults_rating in Hacc. done. }
    split; [done|]. simpl. by rewrite Hnone.
  - intros tbl id changes v Hv Hbad.
    assert (forall r, tbl !! id = Some r ->
              Schema.update_row refs Schema.reviews_def tbl id changes = None) as Hnone.
    { intros r Hr. unfold Schema.update_row. rewrite Hr.
      destruct (Schema.accepts _ _ _ _ _) eqn:Hacc; [|done].
      apply reviews_accepts_rating in Hacc as (z & Hz & Hrange).
      unfold Schema.get in Hz.
      rewrite (lookup_union_Some_l changes r "rating" v Hv) in Hz. simpl in Hz.
      exfalso. apply Hbad. eauto. }
    split.
    + intros [r Hr]. by apply (Hnone r).
    + simpl. destruct (tbl !! id) as [r|] eqn:Hr.
      * by rewrite (Hnone r).
      * unfold Schema.update_row. by rewrite Hr.
Qed.

Lemma reviews_rating_between_1_and_5_witness :
  Schema.insert_row (fun _ _ => true) Schema.reviews_def ∅ "r1"
    {[ "rating" := Schema.VInt 6 ]} = None.
Proof.
  destruct (reviews_rating_between_1_and_5 (fun _ _ => true)) as (_ & _ & H & _).
  apply H. intros (z & Hz & Hrange).
  vm_compute in Hz. injection Hz as <-. lia.
Defined.

Example reviews_rating_5_accepted :
  (fun t : gmap string (gmap string Schema.value) =>
     (Schema.get (default ∅ (t !! "r1")) "rating",
      Schema.get (default ∅ (t !! "r1")) "source"))
  <$> Schema.insert_row (fun _ _ => true) Schema.reviews_def ∅ "r1"
        {[ "rating" := Schema.VInt 5 ]}
  = Some (Schema.VInt 5, Schema.VText "google").
Proof. vm_compute. reflexivity. Qed.

(** ** The schema: status of campaigns *)

Lemma campaigns_accepts_status (refs : string -> string -> bool)
    (tbl : gmap string (gmap string Schema.value)) (id : string)
    (r : gmap string Schema.value) :
  Schema.accepts refs Schema.campaigns_def tbl id r = true -> Schema.status_ok r.
Proof.
  unfold Schema.accepts. intros H.
  apply andb_prop in H as [H _]. apply andb_prop in H as [H _].
  apply andb_prop in H as [_ H].
  unfold Schema.campaigns_def in H. cbn [forallb Schema.row_ok] in H.
  repeat (apply andb_prop in H as [? H]).
  unfold Schema.status_ok.
  destruct (Schema.get r "status") as [|s|z|b] eqn:E; [by left | | done | done].
  right. exists s. split; [done|].
  match goal with
  | H : Schema.check_passes (Schema.sql_in (Schema.VText s) _) = true |- _ =>
      simpl in H; destruct (bool_decide _) eqn:Hd in H; [|discriminate H];
      by apply bool_decide_eq_true in Hd
  end.
Qed.

Lemma campaigns_exec_status (refs : string -> string -> bool)
    (tbl : gmap string (gmap string Schema.value)) (s : Schema.statement) :
  map_Forall (fun _ r => Schema.status_ok r) tbl ->
  map_Forall (fun _ r => Schema.status_ok r) (Schema.exec refs Schema.campaigns_def tbl s).
Proof.
  intros Hall. destruct s as [id r|id changes|id]; simpl.
  - unfold Schema.insert_row. destruct (tbl !! id); [done|].
    destruct (Schema.accepts _ _ _ _ _) eqn:Hacc; [|done]. simpl.
    apply map_Forall_insert_2; [|done]. by apply campaigns_accepts_status in Hacc.
  - unfold Schema.update_row. destruct (tbl !! id); [|done].
    destruct (Schema.accepts _ _ _ _ _) eqn:Hacc; [|done]. simpl.
    apply map_Forall_insert_2; [|done]. by apply campaigns_accepts_status in Hacc.
  - by apply map_Forall_delete.
Qed.

Lemma offered_iff (status : string) (a : CampaignExecution.action) :
  a ∈ CampaignExecution.offered status <->
  match a with
  | CampaignExecution.start => CampaignExecution.canStart status
  | CampaignExecution.pause => CampaignExecution.canPause status
  | CampaignExecution.resume => CampaignExecution.canResume status
  | CampaignExecution.stop => CampaignExecution.canStop status
  end = true.
Proof.
  unfold CampaignExecution.offered.
  destruct (CampaignExecution.canStart status), (CampaignExecution.canPause status),
    (CampaignExecution.canResume status), (CampaignExecution.canStop status);
    destruct a; simpl;
    (split; [intros Hin; first [reflexivity | by repeat (apply elem_of_cons in Hin as [Hin|Hin]; [discriminate Hin|]); apply elem_of_nil in Hin]
            | intros Heq; first [discriminate Heq | repeat first [apply list_elem_of_here | apply list_elem_of_further]]]).
Qed.

(** C3, as stated, fails: the status column is nullable and a CHECK
    constraint is not violated by NULL, so a campaign inserted with an
    explicit NULL status is stored. *)
Lemma campaign_status_counterexample :
  ~ (forall (refs : string -> string -> bool) (ss : list Schema.statement),
        map_Forall (fun _ r => exists s, Schema.get r "status" = Schema.VText s
                                         /\ s ∈ Schema.campaign_statuses)
          (fold_left (Schema.exec refs Schema.campaigns_def) ss ∅)).
Proof.
  intros H.
  pose (tbl := fold_left (Schema.exec (fun _ _ => true) Schema.campaigns_def)
                 [Schema.Insert "c1"
                    {[ "name" := Schema.VText "Spring";
                       "channel" := Schema.VText "email";
                       "message_template" := Schema.VText "Hi {{name}}";
                       "status" := Schema.VNull ]}] ∅).
  assert ((fun r => Schema.get r "status") <$> tbl !! "c1" = Some Schema.VNull) as Hnull
    by (vm_compute; reflexivity).
  destruct (tbl !! "c1") as [row|] eqn:Erow; [|discriminate Hnull].
  destruct (H _ _ "c1" row Erow) as (s & Hs & _).
  simpl in Hnull. congruence.
Qed.

(** C3, amended. The campaigns table in force is the one of
    database_schema.sql, and with it, whatever statements are run, the
    status of every campaign is NULL or one of
    'draft', 'scheduled', 'active', 'paused', 'completed', 'cancelled' (the
    default is 'draft'). The CampaignExecution component offers start only
    when the status is 'draft' or 'scheduled', pause only when 'active',
    resume only when 'paused', stop only when 'active' or 'paused'; each
    button sends a POST to /api/campaigns/{id}/{action}. *)
Theorem campaign_status_and_actions :
  Schema.installed !! "campaigns" = Some Schema.campaigns_def
  /\ (forall (refs : string -> string -> bool) (ss : list Schema.statement),
      map_Forall (fun _ r =>
                    Schema.get r "status" = Schema.VNull
                    \/ exists s, Schema.get r "status" = Schema.VText s
                                 /\ s ∈ Schema.campaign_statuses)
        (fold_left (Schema.exec refs Schema.campaigns_def) ss ∅))
  /\ (forall r : gmap string Schema.value,
        r !! "status" = None ->
        Schema.get (Schema.apply_defaults Schema.campaigns_def r) "status"
        = Schema.VText "draft")
  /\ (forall (status : string) (a : CampaignExecution.action),
        a ∈ CampaignExecution.offered status <->
        match a with
        | CampaignExecution.start => status = "draft" \/ status = "scheduled"
        | CampaignExecution.pause => status = "active"
        | CampaignExecution.resume => status = "paused"
        | CampaignExecution.stop => status = "active" \/ status = "paused"
        end)
  /\ (forall (campaignId : string) (a : CampaignExecution.action),
        CampaignExecution.action_request campaignId a
        = ("POST", ("/api/campaigns/" ++ campaignId ++ "/"
                      ++ CampaignExecution.action_name a)%string)).
Proof.
  split_and!.
  - apply installed_tables.
  - intros refs ss.
    assert (forall tbl, map_Forall (fun _ r => Schema.status_ok r) tbl ->
              map_Forall (fun _ r => Schema.status_ok r)
                (fold_left (Schema.exec refs Schema.campaigns_def) ss tbl)) as Hrun.
    { induction ss as [|s ss IH]; intros tbl Hall; simpl; [done|].
      apply IH. by apply campaigns_exec_status. }
    apply Hrun. apply map_Forall_empty.
  - intros r Hr. unfold Schema.apply_defaults, Schema.campaigns_def. simpl.
    rewrite Hr. unfold Schema.get.
    repeat case_match; simplify_map_eq; reflexivity.
  - intros status a. rewrite offered_iff.
    unfold CampaignExecution.canStart, CampaignExecution.canPause,
      CampaignExecution.canResume, CampaignExecution.canStop.
    destruct a; rewrite ?orb_true_iff, !String.eqb_eq; reflexivity.
  - reflexivity.
Qed.

Example campaign_default_status :
  (fun t : gmap string (gmap string Schema.value) =>
     Schema.get (default ∅ (t !! "c1")) "status")
  <$> Schema.insert_row (fun _ _ => true) Schema.campaigns_def ∅ "c1"
        {[ "name" := Schema.VText "Spring"; "channel" := Schema.VText "email";
           "message_template" := Schema.VText "Hi {{name}}" ]}
  = Some (Schema.VText "draft")
  /\ Schema.insert_row (fun _ _ => true) Schema.campaigns_def ∅ "c1"
       {[ "name" := Schema.VText "Spring"; "channel" := Schema.VText "email";
          "message_template" := Schema.VText "Hi {{name}}";
          "status" := Schema.VText "running" ]}
     = None.
Proof. split; vm_compute; reflexivity. Qed.

(** ** The schema: events and their messages *)

Lemma events_accepts_ref (d : Schema.db)
    (tbl : gmap string (gmap string Schema.value)) (id : string)
    (r : gmap string Schema.value) :
  Schema.accepts (Schema.refs_of d) Schema.events_def tbl id r = true -> Schema.ref_ok d r.
Proof.
  unfold Schema.accepts. intros H. apply andb_prop in H as [_ H].
  unfold Schema.events_def in H. cbn [forallb Schema.fk_ok] in H.
  unfold Schema.ref_ok.
  destruct (Schema.get r "message_id") as [|m|z|b] eqn:E; [by left | | done | done].
  right. exists m. split; [done|].
  apply andb_prop in H as [_ H]. apply andb_prop in H as [H _].
  unfold Schema.refs_of in H. simpl in H. by apply bool_decide_eq_true in H.
Qed.

Lemma ref_ok_mono (d d' : Schema.db) (e : gmap string Schema.value) :
  (forall m, is_Some (Schema.messages d !! m) -> is_Some (Schema.messages d' !! m)) ->
  Schema.ref_ok d e -> Schema.ref_ok d' e.
Proof. intros Hm [Hn | (m & Hm' & Hs)]; [by left | right; eauto]. Qed.

Lemma exec_keeps_rows (refs : string -> string -> bool) (def : list Schema.constraint)
    (tbl : gmap string (gmap string Schema.value)) (s : Schema.statement) (k : string) :
  (forall id, s <> Schema.Delete id) ->
  is_Some (tbl !! k) -> is_Some (Schema.exec refs def tbl s !! k).
Proof.
  intros Hnd Hk. destruct s as [id r|id changes|id]; simpl.
  - unfold Schema.insert_row. destruct (tbl !! id); [done|].
    destruct (Schema.accepts _ _ _ _ _); [|done]. simpl.
    rewrite lookup_insert_is_Some. destruct (decide (id = k)); auto.
  - unfold Schema.update_row. destruct (tbl !! id); [|done].
    destruct (Schema.accepts _ _ _ _ _); [|done]. simpl.
    rewrite lookup_insert_is_Some. destruct (decide (id = k)); auto.
  - by destruct (Hnd id).
Qed.

Lemma exec_db_refs (d : Schema.db) (s : Schema.db_statement) :
  map_Forall (fun _ e => Schema.ref_ok d e) (Schema.events d) ->
  map_Forall (fun _ e => Schema.ref_ok (Schema.exec_db d s) e) (Schema.events (Schema.exec_db d s)).
Proof.
  intros Hall. destruct s as [s|s].
  - destruct s as [id r|id changes|id].
    + intros k e Hk. apply (ref_ok_mono d); [|by apply (Hall k)].
      intros m.
      by apply (exec_keeps_rows (Schema.refs_of d) Schema.messages_def
                  (Schema.messages d) (Schema.Insert id r) m).
    + intros k e Hk. apply (ref_ok_mono d); [|by apply (Hall k)].
      intros m.
      by apply (exec_keeps_rows (Schema.refs_of d) Schema.messages_def
                  (Schema.messages d) (Schema.Update id changes) m).
    + simpl. intros k e [Hk Hne]%map_lookup_filter_Some. simpl in Hne.
      destruct (Hall k e Hk) as [Hn | (m & Hm & Hs)]; [by left|].
      right. exists m. split; [done|]. simpl.
      rewrite lookup_delete_ne; [done|]. intros ->. by rewrite Hm in Hne.
  - assert (forall e, Schema.ref_ok d e -> Schema.ref_ok (Schema.exec_db d (Schema.OnEvents s)) e) as Hsame.
    { intros e. by apply ref_ok_mono. }
    destruct s as [id r|id changes|id]; simpl.
    + unfold Schema.insert_row. destruct (Schema.events d !! id); [done|].
      destruct (Schema.accepts _ _ _ _ _) eqn:Hacc; [|done]. simpl.
      apply map_Forall_insert_2; [|done]. by apply events_accepts_ref in Hacc.
    + unfold Schema.update_row. destruct (Schema.events d !! id); [|done].
      destruct (Schema.accepts _ _ _ _ _) eqn:Hacc; [|done]. simpl.
      apply map_Forall_insert_2; [|done]. by apply events_accepts_ref in Hacc.
    + by apply map_Forall_delete.
Qed.

(** C4, as stated, fails: message_id is nullable, and an event inserted
    without a message_id is stored although it references no message. *)
Lemma event_message_counterexample :
  ~ (forall ss : list Schema.db_statement,
        let d := Schema.run_db (Schema.Db ∅ ∅) ss in
        map_Forall (fun _ e => exists m, Schema.get e "message_id" = Schema.VText m
                                         /\ is_Some (Schema.messages d !! m))
          (Schema.events d)).
Proof.
  intros H.
  pose (d := Schema.run_db (Schema.Db ∅ ∅)
               [Schema.OnEvents
                  (Schema.Insert "e1" {[ "event_type" := Schema.VText "sent" ]})]).
  assert ((fun e => Schema.get e "message_id") <$> Schema.events d !! "e1"
          = Some Schema.VNull) as Hnull by (vm_compute; reflexivity).
  destruct (Schema.events d !! "e1") as [e|] eqn:Ee; [|discriminate Hnull].
  destruct (H _ "e1" e Ee) as (m & Hm & _).
  simpl in Hnull. congruence.
Qed.

(** C4, amended. The events and messages tables in force are those of
    database_schema.sql (messages with the retry_count column of migration
    003). Whatever statements are run on them, every events row whose
    message_id is not NULL references an existing messages row. Deleting a
    message deletes all events referencing it and no others, so no events
    row references a deleted message. An INSERT of an event that references
    a missing message is rejected. *)
Theorem events_reference_messages :
  (Schema.installed !! "events" = Some Schema.events_def
   /\ Schema.installed !! "messages" = Some Schema.messages_def)
  /\ (forall ss : list Schema.db_statement,
      let d := Schema.run_db (Schema.Db ∅ ∅) ss in
      map_Forall (fun _ e =>
                    Schema.get e "message_id" = Schema.VNull
                    \/ exists m, Schema.get e "message_id" = Schema.VText m
                                 /\ is_Some (Schema.messages d !! m))
        (Schema.events d))
  /\ (forall (d : Schema.db) (id : string),
        let d' := Schema.exec_db d (Schema.OnMessages (Schema.Delete id)) in
        Schema.messages d' !! id = None
        /\ map_Forall (fun _ e => Schema.get e "message_id" <> Schema.VText id)
             (Schema.events d')
        /\ (forall k e, Schema.events d !! k = Some e ->
                        Schema.get e "message_id" <> Schema.VText id ->
                        Schema.events d' !! k = Some e))
  /\ (forall (d : Schema.db) (id m : string) (r : gmap string Schema.value),
        r !! "message_id" = Some (Schema.VText m) ->
        Schema.messages d !! m = None ->
        Schema.exec_db d (Schema.OnEvents (Schema.Insert id r)) = d).
Proof.
  split_and!.
  - apply installed_tables.
  - apply installed_tables.
  - intros ss.
    assert (forall d, map_Forall (fun _ e => Schema.ref_ok d e) (Schema.events d) ->
              map_Forall (fun _ e => Schema.ref_ok (Schema.run_db d ss) e)
                (Schema.events (Schema.run_db d ss))) as Hrun.
    { induction ss as [|s ss IH]; intros d Hall; simpl; [done|].
      apply IH. by apply exec_db_refs. }
    apply Hrun. apply map_Forall_empty.
  - intros d id. simpl. split_and!.
    + apply lookup_delete_eq.
    + intros k e [_ Hne]%map_lookup_filter_Some. done.
    + intros k e Hk Hne. by apply map_lookup_filter_Some.
  - intros d id m r Hr Hm. destruct d as [msgs evs]. simpl in Hm. simpl. f_equal.
    unfold Schema.insert_row. destruct (evs !! id); [done|].
    destruct (Schema.accepts _ _ _ _ _) eqn:Hacc; [|done].
    apply events_accepts_ref in Hacc as [Hn | (m' & Hm' & Hs)].
    + exfalso. revert Hn. unfold Schema.apply_defaults, Schema.events_def. simpl.
      unfold Schema.get. destruct (r !! "payload");
        rewrite ?lookup_insert_ne by done; by rewrite Hr.
    + exfalso. revert Hm'. unfold Schema.apply_defaults, Schema.events_def. simpl.
      unfold Schema.get. destruct (r !! "payload");
        rewrite ?lookup_insert_ne by done; rewrite Hr; simpl;
        intros [= <-]; simpl in Hs; rewrite Hm in Hs; by destruct Hs as [? ?].
Qed.

Example delete_message_cascades :
  let d := Schema.run_db (Schema.Db ∅ ∅)
    [ Schema.OnMessages
        (Schema.Insert "m1" {[ "content" := Schema.VText "Hi";
                               "channel" := Schema.VText "email" ]});
      Schema.OnEvents
        (Schema.Insert "e1" {[ "message_id" := Schema.VText "m1";
                               "event_type" := Schema.VText "sent" ]});
      Schema.OnEvents
        (Schema.Insert "e2" {[ "message_id" := Schema.VText "m2";
                               "event_type" := Schema.VText "sent" ]}) ] in
  (fun e => Schema.get e "message_id") <$> Schema.events d !! "e1"
  = Some (Schema.VText "m1")
  /\ Schema.events d !! "e2" = None
  /\ Schema.events (Schema.exec_db d (Schema.OnMessages (Schema.Delete "m1"))) !! "e1"
     = None.
Proof. split_and!; vm_compute; reflexivity. Qed.

(** ** The retry policy *)

Lemma attempt_inv (m : Retry.message) (delivered : bool) :
  Retry.retry_inv m -> Retry.retry_inv (Retry.attempt m delivered).
Proof.
  intros [Hrange Hfailed]. unfold Retry.attempt.
  destruct (Retry.status m =? "queued")%string; [|done].
  destruct delivered; [split; [done | discriminate]|].
  unfold Retry.on_failure, Retry.max_retries.
  destruct (Z.ltb_spec (Retry.retry_count m) 3); split; simpl; try lia; try discriminate.
Qed.

Lemma run_inv (m : Retry.message) (outcomes : list bool) :
  Retry.retry_inv m -> Retry.retry_inv (Retry.run m outcomes).
Proof.
  revert m. induction outcomes as [|o rest IH]; intros m H; [done|].
  apply IH. by apply attempt_inv.
Qed.

Lemma run_not_queued (m : Retry.message) (outcomes : list bool) :
  (Retry.status m =? "queued")%string = false -> Retry.run m outcomes = m.
Proof.
  intros H. induction outcomes as [|o rest IH]; [done|].
  unfold Retry.run in *. simpl. unfold Retry.attempt at 2. by rewrite H.
Qed.

Lemma delays_not_queued (m : Retry.message) (outcomes : list bool) :
  (Retry.status m =? "queued")%string = false -> Retry.delays m outcomes = [].
Proof.
  intros H. induction outcomes as [|o rest IH]; [done|].
  simpl. unfold Retry.attempt. by rewrite H, H.
Qed.

Lemma run_cons (m : Retry.message) (o : bool) (rest : list bool) :
  Retry.run m (o :: rest) = Retry.run (Retry.attempt m o) rest.
Proof. reflexivity. Qed.

Lemma delays_cons (m : Retry.message) (o : bool) (rest : list bool) :
  Retry.delays m (o :: rest)
  = (if (Retry.status (Retry.attempt m o) =? "queued")%string
     then [Retry.scheduled_at (Retry.attempt m o) - Retry.scheduled_at m] else [])
    ++ Retry.delays (Retry.attempt m o) rest.
Proof. simpl. by destruct (_ =? _)%string. Qed.

Lemma attempt_retry (rc sch : Z) :
  rc < 3 ->
  Retry.attempt (Retry.Message "queued" rc sch) false
  = Retry.Message "queued" (rc + 1) (sch + Retry.backoff_minutes rc).
Proof.
  intros H. unfold Retry.attempt, Retry.on_failure, Retry.max_retries. simpl.
  by destruct (Z.ltb_spec rc 3); [|lia].
Qed.

Lemma attempt_give_up (rc sch : Z) :
  3 <= rc ->
  Retry.attempt (Retry.Message "queued" rc sch) false = Retry.Message "failed" rc sch.
Proof.
  intros H. unfold Retry.attempt, Retry.on_failure, Retry.max_retries. simpl.
  by destruct (Z.ltb_spec rc 3); [lia|].
Qed.

Lemma delays_run (m : Retry.message) (outcomes : list bool) :
  0 <= Retry.retry_count m <= 3 ->
  exists k : nat,
    Retry.retry_count (Retry.run m outcomes) = Retry.retry_count m + Z.of_nat k
    /\ Retry.delays m outcomes
       = take k (drop (Z.to_nat (Retry.retry_count m)) [1; 5; 15]).
Proof.
  revert m. induction outcomes as [|o rest IH]; intros m Hrange.
  { exists 0%nat. simpl. split; [lia|done]. }
  destruct (Retry.status m =? "queued")%string eqn:Hq.
  2:{ exists 0%nat. rewrite run_not_queued, delays_not_queued by done.
      simpl. split; [lia|done]. }
  apply String.eqb_eq in Hq. destruct m as [st rc sch]. simpl in Hq, Hrange. subst st.
  rewrite run_cons, delays_cons.
  destruct o.
  { exists 0%nat. change (Retry.attempt (Retry.Message "queued" rc sch) true)
      with (Retry.Message "sent" rc sch).
    rewrite run_not_queued, delays_not_queued by done. simpl. split; [lia|done]. }
  destruct (Z.lt_ge_cases rc 3) as [Hlt|Hge].
  - rewrite attempt_retry by done.
    destruct (IH (Retry.Message "queued" (rc + 1) (sch + Retry.backoff_minutes rc)))
      as (k & Hk & Hd); [simpl; lia|].
    exists (S k). rewrite Hk, Hd. cbn [Retry.retry_count Retry.status Retry.scheduled_at].
    split; [lia|].
    replace (sch + Retry.backoff_minutes rc - sch) with (Retry.backoff_minutes rc) by lia.
    assert (rc = 0 \/ rc = 1 \/ rc = 2) as [-> | [-> | ->]] by lia; reflexivity.
  - rewrite attempt_give_up by done.
    exists 0%nat. rewrite run_not_queued, delays_not_queued by done.
    simpl. split; [lia|done].
Qed.

(** C1. In the retry policy of the guide a message is sent again after a
    failed delivery at most 3 times, the retries following 1, 5 and 15
    minutes after the failure before them; retry_count never exceeds 3; and
    once the third retry has failed the message is failed and no further
    attempt changes it. *)
Theorem retry_three_times_with_backoff (t0 : Z) (outcomes : list bool) :
  let m := Retry.run (Retry.fresh t0) outcomes in
  0 <= Retry.retry_count m <= 3
  /\ (exists k : nat,
        (k <= 3)%nat
        /\ Retry.retry_count m = Z.of_nat k
        /\ Retry.delays (Retry.fresh t0) outcomes = take k [1; 5; 15])
  /\ (Retry.status m = "failed" ->
      Retry.retry_count m = 3 /\ forall more, Retry.run m more = m)
  /\ (forall more,
        Retry.run (Retry.fresh t0) ([false; false; false; false] ++ more)
        = Retry.Message "failed" 3 (t0 + 1 + 5 + 15)
        /\ Retry.delays (Retry.fresh t0) ([false; false; false; false] ++ more)
           = [1; 5; 15]).
Proof.
  assert (Retry.retry_inv (Retry.fresh t0)) as Hfresh.
  { split; simpl; [lia | discriminate]. }
  pose proof (run_inv _ outcomes Hfresh) as [Hrange Hfailed].
  cbv zeta. split_and!.
  - lia.
  - lia.
  - destruct (delays_run (Retry.fresh t0) outcomes) as (k & Hk & Hd); [simpl; lia|].
    simpl in Hk, Hd. exists k. split_and!; [lia | lia | done].
  - intros Hs. split; [by apply Hfailed|].
    intros more. apply run_not_queued. by rewrite Hs.
  - intros more. split.
    + unfold Retry.fresh. cbn [app].
      rewrite !run_cons, !attempt_retry, attempt_give_up by lia.
      by apply run_not_queued.
    + unfold Retry.fresh. cbn [app].
      rewrite !delays_cons, !attempt_retry, attempt_give_up by lia.
      rewrite delays_not_queued by done. simpl.
      change (Retry.backoff_minutes 0) with 1.
      change (Retry.backoff_minutes (0 + 1)) with 5.
      change (Retry.backoff_minutes (0 + 1 + 1)) with 15.
      repeat f_equal; lia.
Qed.

Example retry_after_two_failures :
  Retry.run (Retry.fresh 0) [false; false; true] = Retry.Message "sent" 2 6
  /\ Retry.delays (Retry.fresh 0) [false; false; true] = [1; 5].
Proof. split; reflexivity. Qed.

(** The schema alone does not bound the counter: [retry_count] is an
    INTEGER with default 0 and no CHECK. *)
Example retry_count_unchecked :
  (fun t : gmap string (gmap string Schema.value) =>
     Schema.get (default ∅ (t !! "m1")) "retry_count")
  <$> Schema.insert_row (fun _ _ => true) Schema.messages_def ∅ "m1"
        {[ "content" := Schema.VText "Hi"; "channel" := Schema.VText "email";
           "retry_count" := Schema.VInt 7 ]}
  = Some (Schema.VInt 7).
Proof. vm_compute. reflexivity. Qed.

(* ===================================================================== *)
(** ** The address pattern of the process route *)
(* ===================================================================== *)

Lemma star_class_matches (p : ascii -> bool) (s : string) :
  Regex.matches (Regex.Star (Regex.Class p)) s <-> Text.every p s = true.
Proof.
  split.
  - intros H. remember (Regex.Star (Regex.Class p)) as r eqn:Hr.
    induction H as [ | | | | | | r0 s1 s2 H1 _ H2 IH2]; try discriminate Hr.
    + reflexivity.
    + injection Hr as ->. inversion H1 as [ |p' c Hc| | | | | ]; subst.
      change (Text.every p (String c s2) = true). simpl.
      rewrite Hc. simpl. apply IH2. reflexivity.
  - revert s. induction s as [|c s IH]; intros H.
    + constructor.
    + simpl in H. apply andb_true_iff in H as [Hc Hs].
      change (String c s) with ((String c EmptyString ++ s)%string).
      constructor; [constructor; exact Hc | apply IH; exact Hs].
Qed.

Lemma plus_class_matches (p : ascii -> bool) (s : string) :
  Regex.matches (Regex.Plus (Regex.Class p)) s
  <-> s <> EmptyString /\ Text.every p s = true.
Proof.
  unfold Regex.Plus. split.
  - intros H. inversion H as [ | |r1 r2 s1 s2 H1 H2| | | | ]; subst.
    inversion H1 as [ |p' c Hc| | | | | ]; subst.
    apply star_class_matches in H2.
    change ((String c EmptyString ++ s2)%string) with (String c s2).
    split; [discriminate|]. simpl. rewrite Hc. exact H2.
  - intros [Hne H]. destruct s as [|c s]; [done|].
    simpl in H. apply andb_true_iff in H as [Hc Hs].
    change (String c s) with ((String c EmptyString ++ s)%string).
    constructor; [constructor; exact Hc | apply star_class_matches; exact Hs].
Qed.

Lemma chr_matches (c : ascii) (s : string) :
  Regex.matches (Regex.Chr c) s <-> s = String c EmptyString.
Proof.
  unfold Regex.Chr. split.
  - intros H. inversion H as [ |p' d Hd| | | | | ]; subst.
    apply Ascii.eqb_eq in Hd. by subst.
  - intros ->. constructor. apply Ascii.eqb_refl.
Qed.

(** X1. The pattern the process route tests addresses with accepts exactly
    the strings made of a local part, [@], a domain, a dot and a last part,
    the three parts being non-empty and free of white space and of [@]. *)
Theorem email_re_accepts (s : string) :
  Regex.test Regex.email_re s = true
  <-> exists a b c : string,
        s = (a ++ "@" ++ b ++ "." ++ c)%string
        /\ a <> "" /\ b <> "" /\ c <> ""
        /\ Text.every Regex.not_space_at a = true
        /\ Text.every Regex.not_space_at b = true
        /\ Text.every Regex.not_space_at c = true.
Proof.
  rewrite test_matches. unfold Regex.email_re. split.
  - intros H.
    inversion H as [ | |r1 r2 a s2 Ha H2| | | | ]; subst.
    inversion H2 as [ | |r1 r2 at_ s3 Hat H3| | | | ]; subst.
    inversion H3 as [ | |r1 r2 b s4 Hb H4| | | | ]; subst.
    inversion H4 as [ | |r1 r2 dot c Hdot Hc| | | | ]; subst.
    apply plus_class_matches in Ha as [? ?].
    apply plus_class_matches in Hb as [? ?].
    apply plus_class_matches in Hc as [? ?].
    apply chr_matches in Hat as ->. apply chr_matches in Hdot as ->.
    exists a, b, c. split_and!; done.
  - intros (a & b & c & -> & Ha & Hb & Hc & Ha' & Hb' & Hc').
    constructor; [by apply plus_class_matches|].
    change ("@" ++ b ++ "." ++ c)%string with (("@" ++ (b ++ ("." ++ c)))%string).
    constructor; [by apply chr_matches|].
    constructor; [by apply plus_class_matches|].
    constructor; [by apply chr_matches | by apply plus_class_matches].
Qed.

(* ===================================================================== *)
(** ** Which cell ends up in which customer field *)
(* ===================================================================== *)

Lemma truthy_ne (s : string) : Js.truthy s = true <-> s <> "".
Proof. destruct s; simpl; split; congruence. Qed.

Lemma inherited_not_proto (header key : string) :
  Js.inherited header = Some key -> String.eqb key "__proto__" = false.
Proof.
  intros [H| ->]%inherited_key; [|reflexivity].
  apply String.eqb_neq. intros ->. discriminate.
Qed.

(** [Mapping.field_of] says where the [forEach] stores a column. *)
Lemma field_of_get (cm : gmap string string) (header : string) :
  Mapping.field_of cm header
  = match CsvProcess.get cm header with
    | Some mappedField =>
        if CsvProcess.truthy mappedField
           && negb (CsvProcess.equals mappedField "ignore")
           && negb (String.eqb (CsvProcess.key_of mappedField) "__proto__")
        then Some (CsvProcess.key_of mappedField) else None
    | None => None
    end.
Proof.
  unfold Mapping.field_of, CsvProcess.get.
  destruct (cm !! header) as [k|].
  - unfold CsvProcess.truthy, CsvProcess.equals, CsvProcess.key_of.
    assert (Js.truthy k = negb (String.eqb k "")) as -> by (by destruct k).
    by destruct (String.eqb k ""), (String.eqb k "ignore"),
         (String.eqb k "__proto__").
  - destruct (Js.inherited header) as [key|] eqn:Hkey; [|reflexivity].
    simpl. by rewrite (inherited_not_proto _ _ Hkey).
Qed.

Lemma map_column_write (cm : gmap string string) (rowArray : list string)
    (header : string) (index : nat) (acc : gmap string string * bool) :
  (CsvProcess.map_column cm rowArray header index acc).1
  = match Mapping.write cm rowArray header index with
    | Some (k, v) => <[k := v]> acc.1
    | None => acc.1
    end.
Proof.
  unfold CsvProcess.map_column, Mapping.write. rewrite field_of_get.
  destruct (CsvProcess.get cm header) as [f|]; [|reflexivity].
  unfold CsvProcess.assign.
  destruct (CsvProcess.truthy f), (CsvProcess.equals f "ignore"),
    (Js.truthy_opt (rowArray !! index)),
    (String.eqb (CsvProcess.key_of f) "__proto__");
    simpl; try reflexivity;
    destruct (Js.truthy (Js.trim (default "" (rowArray !! index)))); reflexivity.
Qed.

Lemma write_Some (cm : gmap string string) (rowArray : list string)
    (header : string) (index : nat) (k v : string) :
  Mapping.write cm rowArray header index = Some (k, v)
  <-> Mapping.field_of cm header = Some k
      /\ exists cell, rowArray !! index = Some cell /\ Js.trim cell = v /\ v <> "".
Proof.
  unfold Mapping.write. split.
  - destruct (Mapping.field_of cm header) as [f|]; [|discriminate].
    destruct (rowArray !! index) as [cell|]; [|discriminate].
    simpl. destruct (Js.truthy cell); [|discriminate].
    destruct (Js.truthy (Js.trim cell)) eqn:Hv; [|discriminate].
    intros [= <- <-]. apply truthy_ne in Hv.
    split; [done|]. by exists cell.
  - intros (-> & cell & -> & <- & Hv). simpl.
    destruct cell as [|c cell]; [done|]. simpl Js.truthy at 1. cbv iota.
    apply truthy_ne in Hv. by rewrite Hv.
Qed.

(** What a column can be stored in. *)
Lemma field_of_Some (cm : gmap string string) (header k : string) :
  Mapping.field_of cm header = Some k
  <-> (cm !! header = Some k /\ k <> "" /\ k <> "ignore" /\ k <> "__proto__")
      \/ (cm !! header = None /\ Js.inherited header = Some k).
Proof.
  unfold Mapping.field_of. destruct (cm !! header) as [f|].
  - destruct (String.eqb_spec f "") as [->|H1]; simpl.
    { split; [discriminate|]. by intros [(? & ? & _)|[? _]]; simplify_eq. }
    destruct (String.eqb_spec f "ignore") as [->|H2]; simpl.
    { split; [discriminate|]. by intros [(? & _ & ? & _)|[? _]]; simplify_eq. }
    destruct (String.eqb_spec f "__proto__") as [->|H3]; simpl.
    { split; [discriminate|]. by intros [(? & _ & _ & ?)|[? _]]; simplify_eq. }
    split.
    + intros [= <-]. by left.
    + by intros [([= <-] & _)|[? _]].
  - split; [by right | by intros [([=] & _)|[_ ?]]].
Qed.

Lemma field_of_never (cm : gmap string string) (header k : string) :
  Mapping.field_of cm header = Some k ->
  k <> "" /\ k <> "ignore" /\ k <> "__proto__" /\ (k = "name" -> cm !! header = Some "name").
Proof.
  intros [(Hcm & ? & ? & ?)|(_ & Hk)]%field_of_Some.
  - split_and!; try done. by intros ->.
  - pose proof (inherited_not_proto _ _ Hk) as Hp. apply String.eqb_neq in Hp.
    destruct (inherited_key _ _ Hk) as [Hf| ->].
    + split_and!; try done; intros ->; discriminate.
    + split_and!; try done; discriminate.
Qed.

Lemma map_columns_lookup (cm : gmap string string) (rowArray headers : list string)
    (idx : nat) (acc : gmap string string * bool) (k v : string) :
  (CsvProcess.map_columns cm rowArray headers idx acc).1 !! k = Some v
  <-> (exists i h,
          headers !! i = Some h
          /\ Mapping.write cm rowArray h (idx + i) = Some (k, v)
          /\ forall j h' v', (i < j)%nat -> headers !! j = Some h' ->
               Mapping.write cm rowArray h' (idx + j) <> Some (k, v'))
      \/ (acc.1 !! k = Some v
          /\ forall j h' v', headers !! j = Some h' ->
               Mapping.write cm rowArray h' (idx + j) <> Some (k, v')).
Proof.
  revert idx acc. induction headers as [|h hs IH]; intros idx acc.
  - simpl. split.
    + intros H. right. split; [exact H|]. intros j h' v' Hj. by destruct j.
    + intros [(i & h & Hi & _)|[H _]]; [by destruct i | exact H].
  - simpl CsvProcess.map_columns. rewrite IH. rewrite map_column_write. split.
    + intros [(i & h0 & Hi & Hw & Hlater)|[Hacc Hnone]].
      * left. exists (S i), h0. split; [exact Hi|].
        split; [by rewrite Nat.add_succ_r|].
        intros j h' v' Hlt Hj. destruct j as [|j]; [lia|]. simpl in Hj.
        rewrite Nat.add_succ_r. apply (Hlater j h' v'); [lia | exact Hj].
      * destruct (Mapping.write cm rowArray h idx) as [[k0 v0]|] eqn:Hw.
        -- destruct (decide (k0 = k)) as [->|Hne].
           ++ rewrite lookup_insert_eq in Hacc. injection Hacc as ->.
              left. exists 0%nat, h. split; [reflexivity|].
              split; [by rewrite Nat.add_0_r|].
              intros j h' v' Hlt Hj. destruct j as [|j]; [lia|]. simpl in Hj.
              rewrite Nat.add_succ_r. by apply (Hnone j h' v').
           ++ rewrite lookup_insert_ne in Hacc by done.
              right. split; [exact Hacc|].
              intros j h' v' Hj. destruct j as [|j].
              ** simpl in Hj. injection Hj as <-. rewrite Nat.add_0_r, Hw. congruence.
              ** simpl in Hj. rewrite Nat.add_succ_r. by apply (Hnone j h' v').
        -- right. split; [exact Hacc|].
           intros j h' v' Hj. destruct j as [|j].
           ++ simpl in Hj. injection Hj as <-. by rewrite Nat.add_0_r, Hw.
           ++ simpl in Hj. rewrite Nat.add_succ_r. by apply (Hnone j h' v').
    + intros [(i & h0 & Hi & Hw & Hlater)|[Hacc Hnone]].
      * destruct i as [|i].
        -- simpl in Hi. injection Hi as <-. rewrite Nat.add_0_r in Hw.
           right. rewrite Hw. rewrite lookup_insert_eq. split; [reflexivity|].
           intros j h' v' Hj. specialize (Hlater (S j) h' v').
           rewrite Nat.add_succ_r in Hlater. apply Hlater; [lia | exact Hj].
        -- simpl in Hi. left. exists i, h0. split; [exact Hi|].
           split; [by rewrite Nat.add_succ_r in Hw|].
           intros j h' v' Hlt Hj. specialize (Hlater (S j) h' v').
           rewrite Nat.add_succ_r in Hlater. apply Hlater; [lia | exact Hj].
      * right. split.
        -- pose proof (Hnone 0%nat h) as H0. rewrite Nat.add_0_r in H0.
           destruct (Mapping.write cm rowArray h idx) as [[k0 v0]|] eqn:Hw; [|exact Hacc].
           destruct (decide (k0 = k)) as [->|Hne].
           ++ by specialize (H0 v0 eq_refl).
           ++ by rewrite lookup_insert_ne.
        -- intros j h' v' Hj. specialize (Hnone (S j) h' v').
           rewrite Nat.add_succ_r in Hnone. by apply Hnone.
Qed.


(* ===================================================================== *)
(** ** Runs of the process route *)
(* ===================================================================== *)

Lemma customer_of_no_name (cm : gmap string string) (headers rowArray : list string) :
  (forall header, cm !! header <> Some "name") ->
  CsvProcess.customer_of cm headers rowArray !! "name" = None.
Proof.
  intros Hno. destruct (CsvProcess.customer_of cm headers rowArray !! "name") as [v|] eqn:H;
    [|reflexivity].
  unfold CsvProcess.customer_of in H. rewrite map_columns_lookup in H. simpl in H.
  destruct H as [(i & h & Hi & Hw & _)|[H _]]; [|by rewrite lookup_empty in H].
  apply write_Some in Hw as (Hf & _).
  apply field_of_never in Hf as (_ & _ & _ & Hcm).
  by destruct (Hno h); apply Hcm.
Qed.

Lemma omap_cons_eq {A B : Type} (f : A -> option B) (x : A) (l : list A) :
  omap f (x :: l) = match f x with Some y => y :: omap f l | None => omap f l end.
Proof. reflexivity. Qed.

Lemma results_from_all_rejected (sv : Store.services) (cm : gmap string string)
    (headers : list string) (data : list (list string)) (n : Z) :
  (forall rowArray m, rowArray ∈ data ->
     CsvProcess.process_row sv cm headers rowArray m
     = inl (Store.RowError m "Name is required")) ->
  omap CsvProcess.right_of (CsvProcess.results_from sv cm headers n data) = []
  /\ omap CsvProcess.left_of (CsvProcess.results_from sv cm headers n data)
     = (fun k => Store.RowError (n + Z.of_nat k + 1) "Name is required")
         <$> seq 0 (length data).
Proof.
  revert n. induction data as [|rowArray data IH]; intros n Hall; [done|].
  simpl CsvProcess.results_from. rewrite Hall by left.
  destruct (IH (n + 1)) as [IHr IHl]; [intros; apply Hall; by right|].
  split.
  - rewrite omap_cons_eq. simpl. exact IHr.
  - rewrite omap_cons_eq. simpl CsvProcess.left_of. cbv iota beta.
    rewrite IHl. simpl length. simpl seq. rewrite fmap_cons. f_equal; [f_equal; lia|].
    rewrite <- fmap_S_seq, <- list_fmap_compose.
    apply list_fmap_ext. intros _ k _. simpl. f_equal. lia.
Qed.

Lemma insert_loop_nil (fuel : nat) (sv : Store.services) (org : string) (i : nat)
    (s : CsvProcess.insert_state) :
  CsvProcess.insert_loop fuel sv org [] i s = Some s.
Proof. destruct fuel; reflexivity. Qed.

(** X3. When the column mapping is an object with string values that maps
    no column to the field [name], the process route imports nothing: it
    answers 200, every data row gets the entry (row number, 'Name is
    required'), the customers table is unchanged, processed_rows is 0, and
    the job ends 'failed' as soon as the file has a data row. *)
Theorem process_without_name_mapping (sv : Store.services) (w : Store.world)
    (req : CsvProcess.request) (cm : gmap string string) (rows : list (list string)) :
  CsvProcess.processable sv w req cm rows ->
  (forall header, cm !! header <> Some "name") ->
  exists id job,
    CsvProcess.query_id req = Some id
    /\ (CsvProcess.handler sv w req).1
       = Some (Store.Response 200 (Store.JobBody (Some job)))
    /\ Store.upload_jobs (CsvProcess.handler sv w req).2 !! id = Some job
    /\ Store.customers (CsvProcess.handler sv w req).2 = Store.customers w
    /\ Store.job_processed_rows job = 0
    /\ Store.job_total_rows job = Z.of_nat (length rows) - 1
    /\ Store.job_errors job
       = (if decide (length rows <= 1)%nat then None
          else Some ((fun k => Store.RowError (Z.of_nat k + 2) "Name is required")
                       <$> seq 0 (length rows - 1)))
    /\ Store.job_status job
       = Some (if decide (length rows <= 1)%nat then "completed" else "failed").
Proof.
  intros Hp Hno.
  apply processable_run in Hp as (id & org & job0 & s & Hid & Hjob & Horg & Hloop & ->).
  assert (CsvProcess.st_customers (CsvProcess.read_rows sv cm rows) = []
          /\ CsvProcess.st_errors (CsvProcess.read_rows sv cm rows)
             = (fun k => Store.RowError (Z.of_nat k + 2) "Name is required")
                 <$> seq 0 (length rows - 1)) as [Hc He].
  { rewrite read_rows_customers, read_rows_errors.
    destruct rows as [|headers data]; [done|].
    simpl CsvProcess.row_results.
    destruct (results_from_all_rejected sv cm headers data 1) as [Hr Hl].
    { intros rowArray m _. apply process_row_no_name.
      by rewrite customer_of_no_name. }
    split; [exact Hr|]. rewrite Hl.
    replace (length (headers :: data) - 1)%nat with (length data) by (simpl; lia).
    apply list_fmap_ext. intros _ k _. f_equal. lia. }
  rewrite Hc in Hloop. rewrite insert_loop_nil in Hloop. injection Hloop as <-.
  exists id. eexists. split_and!; try done.
  - simpl. by rewrite lookup_insert_eq.
  - simpl. by rewrite read_rows_totalRows.
  - simpl. rewrite He. rewrite length_fmap, length_seq.
    destruct (decide (length rows <= 1)%nat) as [Hle|Hgt].
    + replace (length rows - 1)%nat with 0%nat by lia. reflexivity.
    + destruct (length rows - 1)%nat as [|n] eqn:Hn; [lia|]. reflexivity.
  - simpl. rewrite He. unfold CsvProcess.finalStatus.
    rewrite length_fmap, length_seq.
    destruct (decide (length rows <= 1)%nat) as [Hle|Hgt].
    + replace (length rows - 1)%nat with 0%nat by lia. reflexivity.
    + destruct (length rows - 1)%nat as [|n] eqn:Hn; [lia|]. reflexivity.
Qed.

(** X4. A file without data rows (only a header row, or no row at all) is
    processed to a 'completed' job with no errors and nothing imported; its
    total_rows is the number of rows minus one, so -1 for a file without any
    row. *)
Theorem process_file_without_data_rows (sv : Store.services) (w : Store.world)
    (req : CsvProcess.request) (cm : gmap string string) (rows : list (list string)) :
  CsvProcess.processable sv w req cm rows ->
  (length rows <= 1)%nat ->
  exists id job,
    CsvProcess.query_id req = Some id
    /\ (CsvProcess.handler sv w req).1
       = Some (Store.Response 200 (Store.JobBody (Some job)))
    /\ Store.upload_jobs (CsvProcess.handler sv w req).2 !! id = Some job
    /\ Store.customers (CsvProcess.handler sv w req).2 = Store.customers w
    /\ Store.job_status job = Some "completed"
    /\ Store.job_errors job = None
    /\ Store.job_processed_rows job = 0
    /\ Store.job_total_rows job = Z.of_nat (length rows) - 1
    /\ (rows = [] -> Store.job_total_rows job = -1).
Proof.
  intros Hp Hlen.
  apply processable_run in Hp as (id & org & job0 & s & Hid & Hjob & Horg & Hloop & ->).
  assert (CsvProcess.st_customers (CsvProcess.read_rows sv cm rows) = []
          /\ CsvProcess.st_errors (CsvProcess.read_rows sv cm rows) = []) as [Hc He].
  { rewrite read_rows_customers, read_rows_errors.
    destruct rows as [|headers [|? ?]]; [done | done | simpl in Hlen; lia]. }
  rewrite Hc, He in Hloop. rewrite insert_loop_nil in Hloop. injection Hloop as <-.
  exists id. eexists. split_and!; try done.
  - simpl. by rewrite lookup_insert_eq.
  - simpl. by rewrite read_rows_totalRows.
  - intros ->. reflexivity.
Qed.

(** X6. Processing is not repeatable: after a run the route went through
    with, replaying the same request is answered 400 'Upload job already
    processed', no later request for that job changes the persisted state,
    and the uploaded file is gone. *)
Theorem process_is_not_repeatable (sv : Store.services) (w : Store.world)
    (req : CsvProcess.request) (cm : gmap string string) (rows : list (list string)) :
  CsvProcess.processable sv w req cm rows ->
  let w1 := (CsvProcess.handler sv w req).2 in
  CsvProcess.handler sv w1 req
  = (Some (Store.Response 400 (Store.ErrorBody "Upload job already processed")), w1)
  /\ (forall (sv' : Store.services) (req' : CsvProcess.request),
        CsvProcess.query_id req' = CsvProcess.query_id req ->
        (CsvProcess.handler sv' w1 req').2 = w1)
  /\ (exists id job,
        CsvProcess.query_id req = Some id
        /\ Store.upload_jobs w !! id = Some job
        /\ Store.files w1 !! Store.job_file_path job = None).
Proof.
  intros Hp. pose proof (processable_run _ _ _ _ _ Hp)
    as (id & org & job0 & s & Hid & Hjob & Horg & Hloop & Hrun).
  destruct Hp as (id' & user & job0' & mappingStr & content & Hm & Hid' & Htid & Hauth
                  & Hporg & Hjob' & Hst & Hform & Hfield & Hfield' & Hcm & Hfile & Hcsv).
  rewrite Hid in Hid'. injection Hid' as <-.
  rewrite Hjob in Hjob'. injection Hjob' as <-.
  rewrite Hrun. simpl.
  set (job1 := CsvProcess.finish_job _ _ _).
  set (w1 := Store.World _ _ _ _).
  assert (Store.upload_jobs w1 !! id = Some job1) as Hj1 by apply lookup_insert_eq.
  assert (Store.job_status job1 <> Some "pending") as Hnp.
  { simpl. destruct (finalStatus_cases (CsvProcess.ins_errors s)
                       (CsvProcess.insertedCount s)) as [-> | ->]; discriminate. }
  split_and!.
  - destruct (process_not_pending sv w1 req id job1 Hid Hj1 Hnp) as (Hw & _ & H400).
    destruct (H400 Hm user Hauth) as (msg & Hr & Hmsg); [exact Hporg|].
    rewrite (surjective_pairing (CsvProcess.handler sv w1 req)), Hw, Hr.
    by rewrite (Hmsg Htid).
  - intros sv' req' Hq. rewrite Hid in Hq.
    by destruct (process_not_pending sv' w1 req' id job1 Hq Hj1 Hnp) as (Hw & _).
  - exists id, job0. split_and!; [done | done |]. simpl. apply lookup_delete_eq.
Qed.



(* ===================================================================== *)
(** ** The upload route: failures and the fields of the preview *)
(* ===================================================================== *)


Lemma every_trimStart (p : ascii -> bool) (s : string) :
  Text.every p s = true -> Text.every p (Js.trimStart s) = true.
Proof.
  induction s as [|c s IH]; [done|]. simpl. intros H.
  destruct (Js.is_space c); [|exact H].
  apply andb_true_iff in H as [_ H]. by apply IH.
Qed.

Lemma every_trimEnd (p : ascii -> bool) (s : string) :
  Text.every p s = true -> Text.every p (Js.trimEnd s) = true.
Proof.
  induction s as [|c s IH]; [done|]. simpl. intros H.
  apply andb_true_iff in H as [Hc H]. specialize (IH H).
  destruct (Js.trimEnd s) as [|d t].
  - destruct (Js.is_space c); [done|]. simpl. by rewrite Hc.
  - change (Text.every p (String c (String d t)) = true).
    simpl. simpl in IH. by rewrite Hc, IH.
Qed.

Lemma every_trim (p : ascii -> bool) (s : string) :
  Text.every p s = true -> Text.every p (Js.trim s) = true.
Proof. intros H. by apply every_trimEnd, every_trimStart. Qed.

Lemma every_remove_all (p : ascii -> bool) (c : ascii) (s : string) :
  Text.every p s = true -> Text.every p (Js.remove_all c s) = true.
Proof.
  induction s as [|d s IH]; [done|]. simpl. intros H.
  apply andb_true_iff in H as [Hd H]. specialize (IH H).
  destruct (Ascii.eqb d c); [exact IH|]. simpl. by rewrite Hd, IH.
Qed.

Lemma free_of_remove_all (c : ascii) (s : string) :
  Text.free_of c (Js.remove_all c s) = true.
Proof.
  unfold Text.free_of. induction s as [|d s IH]; [done|]. simpl.
  destruct (Ascii.eqb d c) eqn:E; [exact IH|]. simpl. by rewrite E, IH.
Qed.

Lemma split_free_of (sep : ascii) (s : string) :
  Forall (fun piece => Text.free_of sep piece = true) (Js.split sep s).
Proof.
  unfold Text.free_of. induction s as [|c s IH]; simpl.
  - by repeat constructor.
  - destruct (Ascii.eqb c sep) eqn:E.
    + constructor; [done | exact IH].
    + destruct (Js.split sep s) as [|piece pieces].
      * repeat constructor. simpl. by rewrite E.
      * inversion IH as [|? ? Hp Hps]; subst. constructor; [|exact Hps].
        simpl. by rewrite E, Hp.
Qed.

Lemma split_length (sep : ascii) (s : string) :
  length (Js.split sep s) = S (Text.count sep s).
Proof.
  induction s as [|c s IH]; [done|]. simpl.
  destruct (Ascii.eqb c sep).
  - simpl. by rewrite IH.
  - destruct (Js.split sep s); [done|]. exact IH.
Qed.

Lemma fields_of_clean (line : string) :
  length (CsvUpload.fields_of line) = S (Text.count Js.comma line)
  /\ Forall (fun f => Text.free_of Js.comma f = true /\ Text.free_of Js.dquote f = true)
       (CsvUpload.fields_of line).
Proof.
  unfold CsvUpload.fields_of. split.
  - by rewrite length_fmap, split_length.
  - apply Forall_fmap. eapply Forall_impl; [apply split_free_of|].
    intros piece Hp. simpl. split.
    + by apply every_remove_all, every_trim.
    + apply free_of_remove_all.
Qed.

(** X9. The upload route splits lines at every comma, whether inside double
    quotes or not: a line with n commas gives n + 1 fields, and no header
    and no cell of the sample rows it returns contains a comma or a double
    quote. *)
Theorem upload_preview_fields (sv : Store.services) (w : Store.world)
    (req : CsvUpload.request) :
  (forall line,
      length (CsvUpload.fields_of line) = S (Text.count Js.comma line))
  /\ forall id headers sample_rows total_rows,
       (CsvUpload.POST sv w req).1
       = Store.Response 200 (Store.UploadBody id headers sample_rows total_rows) ->
       headers <> []
       /\ Forall (fun f => Text.free_of Js.comma f = true
                           /\ Text.free_of Js.dquote f = true) headers
       /\ Forall (Forall (fun f => Text.free_of Js.comma f = true
                                   /\ Text.free_of Js.dquote f = true)) sample_rows.
Proof.
  split; [intros line; apply fields_of_clean|].
  intros id headers sample_rows total_rows H.
  assert (Store.status (CsvUpload.POST sv w req).1 = 200) as H200 by (by rewrite H).
  apply upload_200 in H200
    as (user & org & name & content & first & rest & id' & _ & _ & _ & _ & _ & _ & Heq).
  cbv zeta in Heq. rewrite Heq in H. simpl in H. injection H as <- <- <- <-.
  destruct (fields_of_clean first) as [Hlen Hclean].
  split_and!.
  - intros Hnil. by rewrite Hnil in Hlen.
  - exact Hclean.
  - apply Forall_fmap, Forall_forall. intros line _. apply fields_of_clean.
Qed.

(* ===================================================================== *)
(** ** The routes that require a session *)
(* ===================================================================== *)

(** X10. Every route that asks for a session answers a request without a
    session with 401 'Unauthorized' and passes nothing to the backend. *)
Theorem session_routes_without_session
    (BACKEND_URL NEXT_PUBLIC_BACKEND_URL NEXTAUTH_URL : string)
    (getSession : option string -> option SessionRoutes.session)
    (fetch : SessionRoutes.backend_request -> Proxy.fetch_result)
    (org_id_of : string -> option (option string))
    (select_job : SessionRoutes.session -> string -> option Store.upload_job)
    (files : gmap string string) (req : SessionRoutes.request) :
  getSession (SessionRoutes.cookie_header req) = None ->
  Forall (fun route =>
            route req
            = (SessionRoutes.Response 401 (SessionRoutes.Error "Unauthorized"), []))
    (SessionRoutes.session_routes BACKEND_URL NEXT_PUBLIC_BACKEND_URL NEXTAUTH_URL
       getSession fetch org_id_of select_job files).
Proof.
  intros Hs. unfold SessionRoutes.session_routes.
  repeat constructor;
    unfold SessionRoutes.connection_status_GET, SessionRoutes.guests_GET,
      SessionRoutes.guests_POST, SessionRoutes.confirm_POST,
      SessionRoutes.analytics_GET, SessionRoutes.conversation_messages_POST;
    by rewrite Hs.
Qed.

Ltac solve_calls :=
  repeat first
    [ apply Forall_nil_2
    | apply Forall_cons_2;
      [ first [ left; split; reflexivity | right; split_and!; reflexivity ] | ] ].

(** X11. With a session, every request a session route passes to the backend
    carries the session's access token as Bearer token; the one other
    request is the guests route's call of the ensure-org route, which
    carries the incoming cookies instead. *)
Theorem session_routes_forward_token
    (BACKEND_URL NEXT_PUBLIC_BACKEND_URL NEXTAUTH_URL : string)
    (getSession : option string -> option SessionRoutes.session)
    (fetch : SessionRoutes.backend_request -> Proxy.fetch_result)
    (org_id_of : string -> option (option string))
    (select_job : SessionRoutes.session -> string -> option Store.upload_job)
    (files : gmap string string) (req : SessionRoutes.request)
    (s : SessionRoutes.session) :
  getSession (SessionRoutes.cookie_header req) = Some s ->
  Forall (fun route =>
            Forall (fun call =>
                      (SessionRoutes.authorization call
                       = Some ("Bearer " ++ SessionRoutes.access_token s)%string
                       /\ SessionRoutes.cookie call = None)
                      \/ (SessionRoutes.url call
                          = (NEXTAUTH_URL ++ "/api/users/ensure-org")%string
                          /\ SessionRoutes.authorization call = None
                          /\ SessionRoutes.cookie call
                             = Some (default "" (SessionRoutes.cookie_header req))))
              (route req).2)
    (SessionRoutes.session_routes BACKEND_URL NEXT_PUBLIC_BACKEND_URL NEXTAUTH_URL
       getSession fetch org_id_of select_job files).
Proof.
  intros Hs. unfold SessionRoutes.session_routes.
  rewrite !Forall_cons. split_and!; [ | | | | | | apply Forall_nil_2].
  - unfold SessionRoutes.connection_status_GET. rewrite Hs. simpl. solve_calls.
  - unfold SessionRoutes.guests_GET. rewrite Hs. simpl. solve_calls.
  - unfold SessionRoutes.guests_POST. rewrite Hs. cbv zeta.
    destruct (fetch _) as [|st [orgData|]]; simpl;
      [solve_calls | | destruct (negb (Proxy.ok st)); solve_calls].
    destruct (negb (Proxy.ok st)); simpl; [solve_calls|].
    destruct (org_id_of orgData) as [[o|]|]; simpl; [ | solve_calls | solve_calls].
    destruct (SessionRoutes.json_body req); simpl; solve_calls.
  - unfold SessionRoutes.confirm_POST. rewrite Hs. cbv zeta.
    destruct (SessionRoutes.column_mapping req); [|solve_calls].
    destruct (select_job s _); [|solve_calls].
    destruct (files !! _); [|solve_calls]. simpl. solve_calls.
  - unfold SessionRoutes.analytics_GET. rewrite Hs. simpl. solve_calls.
  - unfold SessionRoutes.conversation_messages_POST. rewrite Hs. cbv zeta.
    destruct (SessionRoutes.json_body req); simpl; solve_calls.
Qed.

Lemma ok_or_throw_status (caught : SessionRoutes.response) (r : Proxy.fetch_result) :
  SessionRoutes.ok_or_throw caught r = caught
  \/ exists st data, r = Proxy.FetchResponse st (Some data) /\ Proxy.ok st = true
                     /\ SessionRoutes.ok_or_throw caught r
                        = SessionRoutes.Response 200 (SessionRoutes.Relay data).
Proof.
  destruct r as [|st [data|]]; simpl; [by left | | by destruct (negb _); left].
  destruct (Proxy.ok st) eqn:E; simpl; [|by left].
  right. by exists st, data.
Qed.

(** X12. The conversations analytics route and the route adding a message to
    a conversation never pass a backend error on: whatever the backend
    answers, their status is 200, 401 or 500, and with a session every
    backend answer that is not OK (and every failed fetch) is answered 500
    with the route's fixed error, while an OK answer with a JSON body is
    answered 200 with that body. *)
Theorem throwing_routes_hide_backend_errors
    (NEXT_PUBLIC_BACKEND_URL : string)
    (getSession : option string -> option SessionRoutes.session)
    (fetch : SessionRoutes.backend_request -> Proxy.fetch_result)
    (req : SessionRoutes.request) :
  let analytics :=
    SessionRoutes.analytics_GET NEXT_PUBLIC_BACKEND_URL getSession fetch req in
  let messages :=
    SessionRoutes.conversation_messages_POST NEXT_PUBLIC_BACKEND_URL getSession fetch req in
  (SessionRoutes.status analytics.1 ∈ [200; 401; 500]
   /\ SessionRoutes.status messages.1 ∈ [200; 401; 500])
  /\ (forall s, getSession (SessionRoutes.cookie_header req) = Some s ->
        (forall call, call ∈ analytics.2 ->
           (forall st json, fetch call = Proxy.FetchResponse st json -> Proxy.ok st = false) ->
           analytics.1
           = SessionRoutes.Response 500 (SessionRoutes.Error "Failed to fetch analytics"))
        /\ (forall call, call ∈ messages.2 ->
              (forall st json, fetch call = Proxy.FetchResponse st json ->
                               Proxy.ok st = false) ->
              messages.1
              = SessionRoutes.Response 500 (SessionRoutes.Error "Failed to add message"))
        /\ (forall call st data, call ∈ analytics.2 ->
              fetch call = Proxy.FetchResponse st (Some data) -> Proxy.ok st = true ->
              analytics.1 = SessionRoutes.Response 200 (SessionRoutes.Relay data))
        /\ (forall call st data, call ∈ messages.2 ->
              fetch call = Proxy.FetchResponse st (Some data) -> Proxy.ok st = true ->
              messages.1 = SessionRoutes.Response 200 (SessionRoutes.Relay data))).
Proof.
  cbv zeta. unfold SessionRoutes.analytics_GET, SessionRoutes.conversation_messages_POST.
  destruct (getSession (SessionRoutes.cookie_header req)) as [s|]; cbv zeta.
  2:{ split; [split; simpl; set_solver | intros s [=]]. }
  split.
  - split.
    + simpl. destruct (ok_or_throw_status
                         (SessionRoutes.Response 500
                            (SessionRoutes.Error "Failed to fetch analytics"))
                         (fetch (SessionRoutes.BackendRequest
                                   (NEXT_PUBLIC_BACKEND_URL
                                    +:+ "/api/conversations/analytics/overview?days="
                                    +:+ (if Js.truthy_opt (SessionRoutes.days req)
                                         then default "" (SessionRoutes.days req)
                                         else "30"))
                                   "GET" (SessionRoutes.bearer s) None None)))
        as [-> | (st & data & _ & _ & ->)]; simpl; set_solver.
    + destruct (SessionRoutes.json_body req) as [body|]; simpl; [|set_solver].
      destruct (ok_or_throw_status
                  (SessionRoutes.Response 500 (SessionRoutes.Error "Failed to add message"))
                  (fetch (SessionRoutes.BackendRequest
                            (NEXT_PUBLIC_BACKEND_URL +:+ "/api/conversations/"
                             +:+ SessionRoutes.params_id req +:+ "/messages")
                            "POST" (SessionRoutes.bearer s) None
                            (Some (SessionRoutes.JsonBody body)))))
        as [-> | (st & data & _ & _ & ->)]; simpl; set_solver.
  - intros s' [= <-]. split_and!.
    + simpl. intros call ->%list_elem_of_singleton Hnot.
      destruct (fetch _) as [|st json] eqn:E; simpl; [done|].
      by rewrite (Hnot st json eq_refl).
    + destruct (SessionRoutes.json_body req) as [body|]; simpl; [|done].
      intros call ->%list_elem_of_singleton Hnot.
      destruct (fetch _) as [|st json] eqn:E; simpl; [done|].
      by rewrite (Hnot st json eq_refl).
    + simpl. intros call st data ->%list_elem_of_singleton E Hok.
      rewrite E. simpl. by rewrite Hok.
    + destruct (SessionRoutes.json_body req) as [body|]; simpl;
        [|by intros ? ? ? ?%elem_of_nil].
      intros call st data ->%list_elem_of_singleton E Hok.
      rewrite E. simpl. by rewrite Hok.
Qed.

(** X13. The Google connection-status route, the guests [GET] route, the
    WhatsApp configuration route and the upload confirm route pass a
    backend error on: when the backend answers with a status that is not OK
    and a JSON body, the route answers with that status and that body. *)
Theorem relaying_routes_pass_backend_errors
    (BACKEND_URL NEXT_PUBLIC_BACKEND_URL : string)
    (getSession : option string -> option SessionRoutes.session)
    (fetch : SessionRoutes.backend_request -> Proxy.fetch_result)
    (select_job : SessionRoutes.session -> string -> option Store.upload_job)
    (files : gmap string string) (req : SessionRoutes.request)
    (s : SessionRoutes.session) (st : Z) (error : string) :
  getSession (SessionRoutes.cookie_header req) = Some s ->
  Proxy.ok st = false -> 200 <= st <= 599 ->
  (forall call, fetch call = Proxy.FetchResponse st (Some error)) ->
  let passed := SessionRoutes.Response st (SessionRoutes.Relay error) in
  (SessionRoutes.connection_status_GET NEXT_PUBLIC_BACKEND_URL getSession fetch req).1
  = passed
  /\ (SessionRoutes.guests_GET BACKEND_URL getSession fetch req).1 = passed
  /\ (is_Some (SessionRoutes.json_body req) ->
      (SessionRoutes.configure_whatsapp_POST BACKEND_URL fetch req).1 = passed)
  /\ (forall job,
        is_Some (SessionRoutes.column_mapping req) ->
        select_job s (SessionRoutes.params_id req) = Some job ->
        is_Some (files !! Store.job_file_path job) ->
        (SessionRoutes.confirm_POST BACKEND_URL getSession fetch select_job files req).1
        = passed).
Proof.
  intros Hs Hok Hst Hfetch passed.
  assert (forall caught okst call,
            SessionRoutes.relay caught okst (fetch call) = passed) as Hrelay.
  { intros caught okst call. rewrite Hfetch. simpl. rewrite Hok. simpl.
    unfold SessionRoutes.NextResponse_json.
    destruct Hst as [?%Z.leb_le ?%Z.leb_le]. by rewrite H, H0. }
  unfold SessionRoutes.connection_status_GET, SessionRoutes.guests_GET,
    SessionRoutes.configure_whatsapp_POST, SessionRoutes.confirm_POST.
  rewrite Hs. cbv zeta. split_and!.
  - apply Hrelay.
  - apply Hrelay.
  - intros [body ->]. apply Hrelay.
  - intros job [m ->] -> [content ->]. apply Hrelay.
Qed.

(** X14. The guests [POST] route answers 201 exactly when the ensure-org
    route answered OK with an organization id, the request has a JSON body
    and the backend answered OK with a JSON body, which is then passed on
    whatever 2xx status the backend gave; and unless the ensure-org route
    answered OK with an organization id the guest is not passed to the
    backend at all and the answer is 500. *)
Theorem guests_POST_after_ensure_org
    (BACKEND_URL NEXTAUTH_URL : string)
    (getSession : option string -> option SessionRoutes.session)
    (fetch : SessionRoutes.backend_request -> Proxy.fetch_result)
    (org_id_of : string -> option (option string))
    (req : SessionRoutes.request) (s : SessionRoutes.session) :
  getSession (SessionRoutes.cookie_header req) = Some s ->
  let r := SessionRoutes.guests_POST BACKEND_URL NEXTAUTH_URL getSession fetch
             org_id_of req in
  let ensured := SessionRoutes.org_ensured NEXTAUTH_URL fetch org_id_of req in
  (SessionRoutes.status r.1 = 201
   <-> ensured
       /\ exists body st data,
            SessionRoutes.json_body req = Some body
            /\ fetch (SessionRoutes.create_guest_call BACKEND_URL s body)
               = Proxy.FetchResponse st (Some data)
            /\ Proxy.ok st = true)
  /\ (forall body st data,
        ensured ->
        SessionRoutes.json_body req = Some body ->
        fetch (SessionRoutes.create_guest_call BACKEND_URL s body)
        = Proxy.FetchResponse st (Some data) ->
        Proxy.ok st = true ->
        r = (SessionRoutes.Response 201 (SessionRoutes.Relay data),
             [SessionRoutes.ensure_org_call NEXTAUTH_URL req;
              SessionRoutes.create_guest_call BACKEND_URL s body]))
  /\ (~ ensured ->
      SessionRoutes.status r.1 = 500
      /\ r.2 = [SessionRoutes.ensure_org_call NEXTAUTH_URL req]).
Proof.
  intros Hs. cbv zeta.
  unfold SessionRoutes.guests_POST, SessionRoutes.org_ensured. rewrite Hs. cbv zeta.
  fold (SessionRoutes.ensure_org_call NEXTAUTH_URL req).
  destruct (fetch (SessionRoutes.ensure_org_call NEXTAUTH_URL req))
    as [|st0 [orgData|]] eqn:Eorg.
  1:{ split_and!; [split; [discriminate | by intros [(? & ? & ? & ? & _) _]]
                  | by intros ? ? ? (? & ? & ? & ? & _) | done]. }
  2:{ assert (forall A (x y : A), (if negb (Proxy.ok st0) then x else y) = x \/ True)
        by (intros; by right).
      split_and!.
      - split; [by destruct (negb _) | by intros [(? & ? & ? & ? & _) _]].
      - by intros ? ? ? (? & ? & ? & ? & _).
      - intros _. by destruct (negb _). }
  destruct (Proxy.ok st0) eqn:Eok; simpl.
  2:{ split_and!; [split; [discriminate|] | | done].
      - intros [(? & ? & ? & [= <- <-] & ? & _) _]. congruence.
      - intros ? ? ? (? & ? & ? & [= <- <-] & ? & _). congruence. }
  destruct (org_id_of orgData) as [[o|]|] eqn:Eid.
  2,3: split_and!; [split; [discriminate|] | | done].
  2,4: intros [(? & ? & ? & [= <- <-] & _ & ?) _]; congruence.
  2,3: intros ? ? ? (? & ? & ? & [= <- <-] & _ & ?); congruence.
  assert (exists st orgData0 o0,
            Proxy.FetchResponse st0 (Some orgData) = Proxy.FetchResponse st (Some orgData0)
            /\ Proxy.ok st = true /\ org_id_of orgData0 = Some (Some o0)) as Hens
    by (by exists st0, orgData, o).
  destruct (SessionRoutes.json_body req) as [body|] eqn:Ebody.
  2:{ split_and!; [split; [discriminate|] | done | done].
      by intros [_ (? & ? & ? & ? & _)]. }
  fold (SessionRoutes.create_guest_call BACKEND_URL s body).
  split_and!.
  - split.
    + destruct (fetch (SessionRoutes.create_guest_call BACKEND_URL s body))
        as [|st [data|]] eqn:Eg; simpl; [discriminate | | discriminate].
      destruct (Proxy.ok st) eqn:Eok'; simpl.
      * intros _. split; [exact Hens|]. by exists body, st, data.
      * unfold SessionRoutes.NextResponse_json.
        destruct (_ && _); simpl; [|discriminate].
        intros ->. by vm_compute in Eok'.
    + intros [_ (body' & st & data & [= <-] & Eg & Eok')].
      rewrite Eg. simpl. by rewrite Eok'.
  - intros body' st data _ [= <-] Eg Eok'. rewrite Eg. simpl. by rewrite Eok'.
  - intros Hn. by destruct Hn.
Qed.

(** X15. The upload confirm route answers 404 without contacting the backend
    when the job is not found with the user's session or its file is not on
    disk; every request it does pass on is for such a job and carries the
    file's content, the job's file name and the column mapping. *)
Theorem confirm_POST_missing_job_or_file
    (BACKEND_URL : string)
    (getSession : option string -> option SessionRoutes.session)
    (fetch : SessionRoutes.backend_request -> Proxy.fetch_result)
    (select_job : SessionRoutes.session -> string -> option Store.upload_job)
    (files : gmap string string) (req : SessionRoutes.request)
    (s : SessionRoutes.session) (mapping : option string) :
  getSession (SessionRoutes.cookie_header req) = Some s ->
  SessionRoutes.column_mapping req = Some mapping ->
  let r := SessionRoutes.confirm_POST BACKEND_URL getSession fetch select_job files req in
  (select_job s (SessionRoutes.params_id req) = None ->
   r = (SessionRoutes.Response 404 (SessionRoutes.Error "Upload job not found"), []))
  /\ (forall job,
        select_job s (SessionRoutes.params_id req) = Some job ->
        files !! Store.job_file_path job = None ->
        r = (SessionRoutes.Response 404 (SessionRoutes.Error "File not found"), []))
  /\ (forall call, call ∈ r.2 ->
        exists job content,
          select_job s (SessionRoutes.params_id req) = Some job
          /\ files !! Store.job_file_path job = Some content
          /\ call = SessionRoutes.BackendRequest
                      (BACKEND_URL ++ "/api/upload/csv/process/"
                         ++ SessionRoutes.params_id req)%string
                      "POST" (Some ("Bearer " ++ SessionRoutes.access_token s)%string) None
                      (Some (SessionRoutes.FormData content (Store.job_filename job)
                               (default "undefined" mapping)))).
Proof.
  intros Hs Hm. cbv zeta. unfold SessionRoutes.confirm_POST. rewrite Hs, Hm. cbv zeta.
  destruct (select_job s (SessionRoutes.params_id req)) as [job|]; simpl.
  2:{ split_and!; [done | done | by intros ? ?%elem_of_nil]. }
  destruct (files !! Store.job_file_path job) as [content|] eqn:Ef; simpl.
  2:{ split_and!; [done | by intros ? [= <-]; rewrite Ef | by intros ? ?%elem_of_nil]. }
  split_and!; [done | by intros ? [= <-]; rewrite Ef |].
  intros call ->%list_elem_of_singleton. by exists job, content.
Qed.

(* ===================================================================== *)
(** ** Organizations *)
(* ===================================================================== *)

Lemma create_and_link_cases (sv : Orgs.services) (w : Orgs.world) (id org_name : string)
    (answer : string -> Orgs.body) :
  let row := Orgs.OrgRow org_name "UTC" "US" in
  (Orgs.create_and_link sv w id org_name answer
   = (Orgs.Response 500 (Orgs.Error "Failed to create organization"), w))
  \/ (exists org,
        Orgs.new_org_id sv w row = Some org /\ Orgs.orgs w !! org = None
        /\ let w1 := Orgs.World (Orgs.users w) (<[org := row]> (Orgs.orgs w)) in
           (Orgs.update_fails sv w1 id org = true
            /\ Orgs.create_and_link sv w id org_name answer
               = (Orgs.Response 500 (Orgs.Error "Failed to update user"), w1))
           \/ (Orgs.update_fails sv w1 id org = false
               /\ Orgs.create_and_link sv w id org_name answer
                  = (Orgs.Response 200 (answer org), Orgs.set_org w1 id org))).
Proof.
  cbv zeta. unfold Orgs.create_and_link, Orgs.insert_org.
  destruct (Orgs.new_org_id sv w _) as [org|]; [|by left].
  destruct (Orgs.orgs w !! org) eqn:E; [by left|].
  right. exists org. split_and!; [done | done |].
  destruct (Orgs.update_fails sv _ id org); [by left | by right].
Qed.

(** X16. The ensure-org route is idempotent: once it has answered 200 with
    an organization id, a further call with the same session answers 200
    with the same id and changes nothing, whatever the database would do. *)
Theorem ensure_org_idempotent (sv sv' : Orgs.services) (w w1 : Orgs.world)
    (cookie : option string) (o : string) :
  Orgs.ensure_org_POST sv w cookie = (Orgs.Response 200 (Orgs.OrgId o), w1) ->
  o <> "" ->
  Orgs.getSession sv' cookie = Orgs.getSession sv cookie ->
  Orgs.ensure_org_POST sv' w1 cookie = (Orgs.Response 200 (Orgs.OrgId o), w1).
Proof.
  unfold Orgs.ensure_org_POST. intros H Ho ->.
  destruct (Orgs.getSession sv cookie) as [s|]; [|discriminate].
  destruct (Orgs.users w !! SessionRoutes.user_id s) as [userData|] eqn:Eu; [|discriminate].
  destruct (Js.truthy_opt (Orgs.org_id userData)) eqn:Et.
  - injection H as <- <-. by rewrite Eu, Et.
  - destruct (create_and_link_cases sv w (SessionRoutes.user_id s)
                ((if Js.truthy_opt (Orgs.full_name userData)
                  then default "" (Orgs.full_name userData)
                  else Orgs.local_part (Orgs.email userData)) +:+ "'s Organization")
                Orgs.OrgId)
      as [E | (org & _ & _ & [[_ E] | [_ E]])]; rewrite E in H; try discriminate.
    injection H as <- <-. simpl.
    rewrite lookup_alter_eq, Eu. simpl.
    apply truthy_ne in Ho. by rewrite Ho.
Qed.


(** X18. Signing up a user whose address is already confirmed posts to the
    create-user route twice with the same body, and each post the route
    accepts creates an organization of its own: with a database that
    accepts both, two organizations are created and the user ends up linked
    to the second one. A user whose address is not confirmed yet causes no
    post at all. *)
Theorem signUp_creates_two_orgs (sv : Orgs.services) (w : Orgs.world)
    (u : Orgs.auth_user) (fullName o1 o2 : string) :
  let row := Orgs.OrgRow (fullName ++ "'s Organization")%string "UTC" "US" in
  let w1 := Orgs.World (Orgs.users w) (<[o1 := row]> (Orgs.orgs w)) in
  let w2 := Orgs.World (Orgs.users (Orgs.set_org w1 (Orgs.au_id u) o1))
              (<[o2 := row]> (<[o1 := row]> (Orgs.orgs w))) in
  fullName <> "" ->
  Orgs.new_org_id sv w row = Some o1 -> Orgs.orgs w !! o1 = None ->
  Orgs.update_fails sv w1 (Orgs.au_id u) o1 = false ->
  Orgs.new_org_id sv (Orgs.set_org w1 (Orgs.au_id u) o1) row = Some o2 ->
  Orgs.orgs w !! o2 = None -> o2 <> o1 ->
  Orgs.update_fails sv w2 (Orgs.au_id u) o2 = false ->
  (Js.truthy_opt (Orgs.email_confirmed_at u) = true ->
   let es := (Orgs.signUp (Orgs.SignUpData (Some u)) fullName).1 in
   Orgs.posts es
   = [("/api/users/create",
       Orgs.CreateBody (Orgs.au_id u) (Orgs.au_email u) (Some fullName));
      ("/api/users/create",
       Orgs.CreateBody (Orgs.au_id u) (Orgs.au_email u) (Some fullName))]
   /\ Orgs.orgs (Orgs.serve_all sv w es) = <[o2 := row]> (<[o1 := row]> (Orgs.orgs w))
   /\ (forall user, Orgs.users w !! Orgs.au_id u = Some user ->
         Orgs.org_id <$> Orgs.users (Orgs.serve_all sv w es) !! Orgs.au_id u
         = Some (Some o2)))
  /\ (Js.truthy_opt (Orgs.email_confirmed_at u) = false ->
      let es := (Orgs.signUp (Orgs.SignUpData (Some u)) fullName).1 in
      Orgs.posts es = []
      /\ Orgs.serve_all sv w es = w).
Proof.
  cbv zeta. intros Hname Hn1 Hf1 Hu1 Hn2 Hf2 Hne Hu2. split.
  - intros Hc. unfold Orgs.signUp. rewrite Hc. simpl negb. cbv iota.
    assert (Orgs.users_create_POST sv w
              (Some (Orgs.CreateBody (Orgs.au_id u) (Orgs.au_email u) (Some fullName)))
            = (Orgs.Response 200 (Orgs.Created o1),
               Orgs.set_org
                 (Orgs.World (Orgs.users w)
                    (<[o1 := Orgs.OrgRow (fullName +:+ "'s Organization") "UTC" "US"]>
                       (Orgs.orgs w))) (Orgs.au_id u) o1)) as E1.
    { unfold Orgs.users_create_POST. simpl.
      apply truthy_ne in Hname. rewrite Hname. simpl.
      unfold Orgs.create_and_link, Orgs.insert_org. by rewrite Hn1, Hf1, Hu1. }
    assert (Orgs.users_create_POST sv
              (Orgs.set_org
                 (Orgs.World (Orgs.users w)
                    (<[o1 := Orgs.OrgRow (fullName +:+ "'s Organization") "UTC" "US"]>
                       (Orgs.orgs w))) (Orgs.au_id u) o1)
              (Some (Orgs.CreateBody (Orgs.au_id u) (Orgs.au_email u) (Some fullName)))
            = (Orgs.Response 200 (Orgs.Created o2),
               Orgs.set_org
                 (Orgs.World
                    (Orgs.users
                       (Orgs.set_org
                          (Orgs.World (Orgs.users w)
                             (<[o1 := Orgs.OrgRow (fullName +:+ "'s Organization")
                                        "UTC" "US"]> (Orgs.orgs w))) (Orgs.au_id u) o1))
                    (<[o2 := Orgs.OrgRow (fullName +:+ "'s Organization") "UTC" "US"]>
                       (<[o1 := Orgs.OrgRow (fullName +:+ "'s Organization") "UTC" "US"]>
                          (Orgs.orgs w)))) (Orgs.au_id u) o2)) as E2.
    { unfold Orgs.users_create_POST. simpl.
      apply truthy_ne in Hname. rewrite Hname. simpl.
      unfold Orgs.create_and_link, Orgs.insert_org. rewrite Hn2. simpl.
      rewrite lookup_insert_ne by done. rewrite Hf2. simpl in Hu2. by rewrite Hu2. }
    split_and!.
    + reflexivity.
    + unfold Orgs.serve_all, Orgs.create_post. cbn [fst app fold_left Orgs.serve].
      change (String.eqb "/api/users/create" "/api/users/create") with true. cbv iota.
      rewrite E1. cbn [snd]. rewrite E2. reflexivity.
    + intros user Huser. unfold Orgs.serve_all, Orgs.create_post.
      cbn [fst app fold_left Orgs.serve].
      change (String.eqb "/api/users/create" "/api/users/create") with true. cbv iota.
      rewrite E1. cbn [snd]. rewrite E2.
      simpl. rewrite !lookup_alter_eq, Huser. reflexivity.
  - intros Hc. unfold Orgs.signUp. rewrite Hc. simpl. split; reflexivity.
Qed.

(** X19. After the ensure-org route has answered 200 with an organization
    id, the CSV upload and process routes find that organization for the
    user: neither answers 'User not associated with an organization' to a
    request that carries a token of that user. *)
Theorem ensure_org_then_csv_routes (osv : Orgs.services) (w w1 : Orgs.world)
    (cookie : option string) (o : string) (s : SessionRoutes.session)
    (sv : Store.services) (h : option string)
    (jobs : gmap string Store.upload_job) (customers : list (gmap string string))
    (files : gmap string string) :
  Orgs.ensure_org_POST osv w cookie = (Orgs.Response 200 (Orgs.OrgId o), w1) ->
  o <> "" ->
  Orgs.getSession osv cookie = Some s ->
  Store.authenticate sv h = inr (SessionRoutes.user_id s) ->
  let sw := Store.World (Orgs.profiles w1) jobs customers files in
  Store.profile_org sw (SessionRoutes.user_id s) = Some o
  /\ (forall form,
        Store.payload (CsvUpload.POST sv sw (CsvUpload.Request h form)).1
        <> Store.ErrorBody "User not associated with an organization")
  /\ (forall method id form_parses field,
        (CsvProcess.handler sv sw (CsvProcess.Request method id h form_parses field)).1
        <> Some (Store.Response 400
                   (Store.ErrorBody "User not associated with an organization"))).
Proof.
  intros H Ho Hs Hauth sw.
  assert (Store.profile_org sw (SessionRoutes.user_id s) = Some o) as Hp.
  { unfold Store.profile_org, sw, Orgs.profiles. simpl. rewrite lookup_fmap.
    unfold Orgs.ensure_org_POST in H. rewrite Hs in H.
    destruct (Orgs.users w !! SessionRoutes.user_id s) as [userData|] eqn:Eu; [|discriminate].
    destruct (Js.truthy_opt (Orgs.org_id userData)) eqn:Et.
    - injection H as <- <-. rewrite Eu. simpl.
      destruct (Orgs.org_id userData) as [org|]; [|discriminate]. simpl in *.
      by rewrite Et.
    - destruct (create_and_link_cases osv w (SessionRoutes.user_id s)
                  ((if Js.truthy_opt (Orgs.full_name userData)
                    then default "" (Orgs.full_name userData)
                    else Orgs.local_part (Orgs.email userData)) +:+ "'s Organization")
                  Orgs.OrgId)
        as [E | (org & _ & _ & [[_ E] | [_ E]])]; rewrite E in H; try discriminate.
      injection H as <- <-. simpl. rewrite lookup_alter_eq, Eu. simpl.
      apply truthy_ne in Ho. by rewrite Ho. }
  split_and!; [exact Hp | |].
  - intros form. unfold CsvUpload.POST. simpl. rewrite Hauth, Hp.
    destruct form as [ | |value|name content]; simpl; try discriminate.
    + destruct (Js.truthy value); discriminate.
    + destruct (negb (Js.endsWith name ".csv")); [discriminate|].
      unfold CsvUpload.clean_up.
      repeat (destruct (Store.fs_throws sv _ _ _); [discriminate|]).
      destruct (CsvUpload.lines_of content).
      { destruct (Store.fs_throws sv _ _ _); discriminate. }
      destruct (Store.new_job_id sv _ _) as [id|].
      2:{ destruct (Store.fs_throws sv _ _ _); discriminate. }
      simpl. destruct (jobs !! id); [|discriminate].
      destruct (Store.fs_throws sv _ _ _); discriminate.
  - intros method id form_parses field. unfold CsvProcess.handler. simpl.
    destruct (negb (String.eqb method "POST")); [discriminate|].
    destruct id as [id|]; [|discriminate].
    destruct (negb (Js.truthy id)); [discriminate|].
    rewrite Hauth, Hp.
    destruct (CsvProcess.find_job sw id o) as [job|]; [|discriminate].
    destruct (negb (bool_decide _)); [discriminate|].
    destruct (negb form_parses); [discriminate|].
    destruct (negb (Js.truthy_opt field)); [discriminate|].
    destruct (Store.json_parse sv _) as [cm|]; [|discriminate].
    simpl. destruct (files !! Store.job_file_path job) as [content|]; [|discriminate].
    destruct (Store.csv_parse sv content) as [msg|rows]; [discriminate|].
    unfold CsvProcess.on_end. destruct (CsvProcess.insert_loop _ _ _ _ _ _); discriminate.
Qed.

(* ===================================================================== *)
(** ** The page creating a campaign *)
(* ===================================================================== *)

Lemma isStepValid_1 (f : CreateCampaign.formData) :
  CreateCampaign.isStepValid f 1 = true -> Js.trim (CreateCampaign.name f) <> "".
Proof.
  unfold CreateCampaign.isStepValid. simpl.
  intros [H _]%andb_true_iff. apply negb_true_iff in H. by apply String.eqb_neq in H.
Qed.

Lemma isStepValid_2 (f : CreateCampaign.formData) :
  CreateCampaign.isStepValid f 2 = true ->
  Js.trim (CreateCampaign.message_template f) <> "".
Proof.
  unfold CreateCampaign.isStepValid. simpl.
  intros H. apply negb_true_iff in H. by apply String.eqb_neq in H.
Qed.

Lemma isStepValid_3 (f : CreateCampaign.formData) :
  CreateCampaign.isStepValid f 3 = true -> CreateCampaign.guest_ids f <> [].
Proof.
  unfold CreateCampaign.isStepValid. simpl.
  intros H%Nat.ltb_lt Hnil. rewrite Hnil in H. simpl in H. lia.
Qed.

Ltac wiz H1 H2 H3 :=
  unfold CreateCampaign.inv; simpl; split_and!;
  first [ done | lia | (intros; exfalso; lia) | (intros; apply H1; lia)
        | (intros; apply H2; lia) | (intros; apply H3; lia) ].

Lemma wizard_step_inv (s : CreateCampaign.state) (e : CreateCampaign.event) :
  CreateCampaign.inv s -> CreateCampaign.inv (CreateCampaign.step s e).
Proof.
  intros Hinv. pose proof Hinv as (Hstep & Hch & H1 & H2 & H3 & Hposted).
  simpl in Hch, H1, H2, H3.
  destruct e; unfold CreateCampaign.step; cbv zeta.
  - destruct (_ =? 1) eqn:E; [apply Z.eqb_eq in E | exact Hinv]. wiz H1 H2 H3.
  - destruct (_ =? 1) eqn:E; [apply Z.eqb_eq in E | exact Hinv].
    unfold CreateCampaign.inv; simpl; split_and!;
      first [ done | lia | (intros; exfalso; lia)
            | (destruct c; simpl;
               repeat first [apply list_elem_of_here | apply list_elem_of_further]) ].
  - destruct (_ =? 1) eqn:E; [apply Z.eqb_eq in E | exact Hinv]. wiz H1 H2 H3.
  - destruct (_ =? 1) eqn:E; [apply Z.eqb_eq in E | exact Hinv]. wiz H1 H2 H3.
  - destruct (_ =? 2) eqn:E; [apply Z.eqb_eq in E | exact Hinv]. wiz H1 H2 H3.
  - destruct (_ =? 2) eqn:E; [apply Z.eqb_eq in E | exact Hinv]. wiz H1 H2 H3.
  - destruct (_ =? 3) eqn:E; [apply Z.eqb_eq in E | exact Hinv]. wiz H1 H2 H3.
  - destruct (_ =? 3) eqn:E; [apply Z.eqb_eq in E | exact Hinv]. wiz H1 H2 H3.
  - destruct (_ =? 3) eqn:E; [apply Z.eqb_eq in E | exact Hinv].
    destruct (bool_decide (id ∈ CreateCampaign.guests s)); [|exact Hinv].
    simpl andb. cbv iota. wiz H1 H2 H3.
  - destruct (_ =? 1) eqn:E; [exact Hinv | apply Z.eqb_neq in E]. wiz H1 H2 H3.
  - destruct (_ <? 4) eqn:E4; [apply Z.ltb_lt in E4 | exact Hinv].
    destruct (CreateCampaign.isStepValid _ _) eqn:Ev; [|exact Hinv].
    simpl andb. cbv iota.
    assert (CreateCampaign.currentStep s = 1 \/ CreateCampaign.currentStep s = 2
            \/ CreateCampaign.currentStep s = 3) as [E|[E|E]] by lia;
      rewrite E in Ev.
    + pose proof (isStepValid_1 _ Ev). wiz H1 H2 H3.
    + pose proof (isStepValid_2 _ Ev). wiz H1 H2 H3.
    + pose proof (isStepValid_3 _ Ev). wiz H1 H2 H3.
  - destruct (_ <? 4) eqn:E4; [exact Hinv | apply Z.ltb_ge in E4].
    destruct (CreateCampaign.loading s); [exact Hinv|].
    destruct (CreateCampaign.isStepValid _ _); [|exact Hinv].
    simpl orb. cbv iota.
    unfold CreateCampaign.inv; simpl; split_and!; [lia | lia | done | done | done | done |].
    apply Forall_app. split; [done|]. constructor; [|constructor].
    split_and!; [apply H1 | apply H2 | apply H3 | done]; lia.
  - wiz H1 H2 H3.
  - wiz H1 H2 H3.
Qed.

Lemma wizard_run_inv (es : list CreateCampaign.event) (s : CreateCampaign.state) :
  CreateCampaign.inv s -> CreateCampaign.inv (fold_left CreateCampaign.step es s).
Proof.
  revert s. induction es as [|e es IH]; intros s H; [exact H|].
  simpl. apply IH. by apply wizard_step_inv.
Qed.

Lemma isStepValid_intro (f : CreateCampaign.formData) (k : Z) :
  (k = 1 /\ Js.trim (CreateCampaign.name f) <> "" /\ CreateCampaign.channel_of f = "whatsapp")
  \/ (k = 2 /\ Js.trim (CreateCampaign.message_template f) <> "")
  \/ (k = 3 /\ CreateCampaign.guest_ids f <> []) ->
  CreateCampaign.isStepValid f k = true.
Proof.
  unfold CreateCampaign.isStepValid.
  intros [(-> & H & Hc) | [(-> & H) | (-> & H)]].
  - change (1 =? 1) with true. cbv iota. rewrite Hc.
    apply String.eqb_neq in H. by rewrite H.
  - change (2 =? 1) with false. change (2 =? 2) with true. cbv iota.
    apply String.eqb_neq in H. by rewrite H.
  - change (3 =? 1) with false. change (3 =? 2) with false. change (3 =? 3) with true.
    cbv iota. by destruct (CreateCampaign.guest_ids f).
Qed.

Lemma wizard_Next (k : Z) (f : CreateCampaign.formData) (l : bool)
    (gs : list string) (p : list CreateCampaign.formData) :
  k < 4 /\ CreateCampaign.isStepValid f k = true ->
  CreateCampaign.step (CreateCampaign.State k f l gs p) CreateCampaign.Next
  = CreateCampaign.State (k + 1) f l gs p.
Proof.
  intros [Hk Hv]. unfold CreateCampaign.step. cbn [CreateCampaign.currentStep
    CreateCampaign.form CreateCampaign.with_step CreateCampaign.loading
    CreateCampaign.guests CreateCampaign.posted].
  apply Z.ltb_lt in Hk. by rewrite Hk, Hv.
Qed.

(** X20. Whatever the user does on the page creating a campaign, the step
    shown stays between 1 and 4 and every form the page posts has a name and
    a message template that are not blank, at least one recipient and one of
    the three channels; and a user who fills in a name, a template and
    selects the guests does get the form posted. *)
Theorem wizard_posts_complete_forms :
  (forall es : list CreateCampaign.event,
      1 <= CreateCampaign.currentStep (CreateCampaign.run es) <= 4
      /\ Forall CreateCampaign.complete (CreateCampaign.posted (CreateCampaign.run es)))
  /\ (forall (n t : string) (ids : list string),
        Js.trim n <> "" -> Js.trim t <> "" -> ids <> [] ->
        CreateCampaign.posted
          (CreateCampaign.run
             [ CreateCampaign.GuestsLoaded ids; CreateCampaign.SetName n;
               CreateCampaign.Next; CreateCampaign.SetTemplate t; CreateCampaign.Next;
               CreateCampaign.SelectAll; CreateCampaign.Next; CreateCampaign.Submit ])
        = [CreateCampaign.FormData n "whatsapp" t false (Some 24) ids]).
Proof.
  split.
  - intros es.
    assert (CreateCampaign.inv CreateCampaign.initial) as Hinit.
    { unfold CreateCampaign.inv. simpl. split_and!; first [lia | intros; lia | constructor]. }
    destruct (wizard_run_inv es _ Hinit) as (H & _ & _ & _ & _ & Hp). by split.
  - intros n t ids Hn Ht Hids.
    unfold CreateCampaign.run. cbn [fold_left].
    change (CreateCampaign.step CreateCampaign.initial (CreateCampaign.GuestsLoaded ids))
      with (CreateCampaign.State 1
              (CreateCampaign.FormData "" "whatsapp" "" false (Some 24) []) false ids []).
    change (CreateCampaign.step _ (CreateCampaign.SetName n))
      with (CreateCampaign.State 1
              (CreateCampaign.FormData n "whatsapp" "" false (Some 24) []) false ids []).
    rewrite wizard_Next by (split; [lia | by apply isStepValid_intro; left]).
    change (CreateCampaign.step _ (CreateCampaign.SetTemplate t))
      with (CreateCampaign.State 2
              (CreateCampaign.FormData n "whatsapp" t false (Some 24) []) false ids []).
    rewrite wizard_Next by (split; [lia | by apply isStepValid_intro; right; left]).
    change (CreateCampaign.step _ CreateCampaign.SelectAll)
      with (CreateCampaign.State 3
              (CreateCampaign.FormData n "whatsapp" t false (Some 24) ids) false ids []).
    rewrite wizard_Next by (split; [lia | by apply isStepValid_intro; right; right]).
    reflexivity.
Qed.

Lemma substring_to_app (prefix rest : string) :
  CreateCampaign.substring_to (String.length prefix) (prefix ++ rest)%string = prefix.
Proof.
  induction prefix as [|c prefix IH].
  - change (EmptyString ++ rest)%string with rest. by destruct rest.
  - change (String c prefix ++ rest)%string with (String c (prefix ++ rest)%string).
    simpl. by rewrite IH.
Qed.

Lemma substring_from_app (prefix rest : string) :
  CreateCampaign.substring_from (String.length prefix) (prefix ++ rest)%string = rest.
Proof.
  induction prefix as [|c prefix IH].
  - change (EmptyString ++ rest)%string with rest. by destruct rest.
  - change (String c prefix ++ rest)%string with (String c (prefix ++ rest)%string).
    simpl. exact IH.
Qed.

Lemma string_app_assoc (a b c : string) : ((a ++ b) ++ c = a ++ (b ++ c))%string.
Proof.
  induction a as [|x a IH]; [reflexivity|].
  change ((String x ((a ++ b) ++ c))%string = String x (a ++ (b ++ c))%string).
  by rewrite IH.
Qed.

Lemma string_app_length (a b : string) :
  String.length (a ++ b)%string = (String.length a + String.length b)%nat.
Proof.
  induction a as [|x a IH]; [reflexivity|].
  change (S (String.length (a ++ b)%string) = S (String.length a + String.length b)).
  by rewrite IH.
Qed.

(** X21. Inserting a template variable replaces the selection of the
    textarea: with the text before the selection, the selected text and the
    text after it, the new template is the text before, the variable and the
    text after; with nothing selected the variable is inserted at the
    cursor. *)
Theorem insertVariable_replaces_selection (before selected after variable : string) :
  CreateCampaign.insertVariable (before ++ selected ++ after)%string
    (String.length before) (String.length before + String.length selected) variable
  = (before ++ variable ++ after)%string
  /\ CreateCampaign.insertVariable (before ++ after)%string
       (String.length before) (String.length before) variable
     = (before ++ variable ++ after)%string.
Proof.
  unfold CreateCampaign.insertVariable. split.
  - rewrite substring_to_app. rewrite <- string_app_length.
    replace (before ++ selected ++ after)%string
      with ((before ++ selected) ++ after)%string by apply string_app_assoc.
    by rewrite substring_from_app.
  - by rewrite substring_to_app, substring_from_app.
Qed.

Lemma filter_not_id (id : string) (l : list string) :
  id ∉ l -> List.filter (fun i => negb (String.eqb i id)) l = l.
Proof.
  induction l as [|x l IH]; [done|]. intros [Hne Hl]%not_elem_of_cons. simpl.
  assert (String.eqb x id = false) as -> by (apply String.eqb_neq; congruence).
  simpl. by rewrite IH.
Qed.

Lemma filter_removes_id (id : string) (l : list string) :
  id ∉ List.filter (fun i => negb (String.eqb i id)) l.
Proof.
  induction l as [|x l IH]; simpl; [by intros ?%elem_of_nil|].
  destruct (String.eqb x id) eqn:E; simpl; [exact IH|].
  apply not_elem_of_cons. split; [|exact IH].
  apply String.eqb_neq in E. congruence.
Qed.

Lemma elem_of_filter_id (id x : string) (l : list string) :
  x ∈ List.filter (fun i => negb (String.eqb i id)) l -> x ∈ l.
Proof.
  induction l as [|y l IH]; simpl; [done|].
  destruct (negb (String.eqb y id)).
  - intros [->|H]%elem_of_cons; [apply list_elem_of_here|].
    by apply list_elem_of_further, IH.
  - intros H. by apply list_elem_of_further, IH.
Qed.

Lemma NoDup_filter_id (id : string) (l : list string) :
  NoDup l -> NoDup (List.filter (fun i => negb (String.eqb i id)) l).
Proof.
  induction 1 as [|x l Hx Hl IH]; simpl; [constructor|].
  destruct (negb (String.eqb x id)); [|exact IH].
  constructor; [|exact IH]. intros Hin. apply Hx. by apply elem_of_filter_id in Hin.
Qed.

Lemma selection_step_NoDup (s : CreateCampaign.state) (e : CreateCampaign.event) :
  (forall ids, e = CreateCampaign.GuestsLoaded ids -> NoDup ids) ->
  NoDup (CreateCampaign.guests s)
  /\ NoDup (CreateCampaign.guest_ids (CreateCampaign.form s))
  /\ Forall (fun f => NoDup (CreateCampaign.guest_ids f)) (CreateCampaign.posted s) ->
  NoDup (CreateCampaign.guests (CreateCampaign.step s e))
  /\ NoDup (CreateCampaign.guest_ids (CreateCampaign.form (CreateCampaign.step s e)))
  /\ Forall (fun f => NoDup (CreateCampaign.guest_ids f))
       (CreateCampaign.posted (CreateCampaign.step s e)).
Proof.
  intros He (Hg & Hs & Hp).
  destruct e; unfold CreateCampaign.step; cbv zeta;
    repeat match goal with
           | |- context [if ?b then _ else _] => destruct b eqn:?
           end; simpl; split_and!; try done.
  - constructor.
  - by apply NoDup_filter_id.
  - apply NoDup_app. split_and!; [done | | apply NoDup_singleton].
    intros x Hx ->%list_elem_of_singleton.
    match goal with H : bool_decide (_ ∈ CreateCampaign.guest_ids _) = false |- _ =>
      apply bool_decide_eq_false in H; by apply H end.
  - apply Forall_app. split; [done|]. by repeat constructor.
  - by apply He.
Qed.

(** X22. On the step selecting the recipients no guest is selected twice:
    when the lists of guests fetched have no duplicate ids, neither has the
    selection of any form posted; and clicking the checkbox of a guest that
    is not selected twice in a row gives the selection back as it was. *)
Theorem wizard_guest_selection :
  (forall es : list CreateCampaign.event,
      (forall ids, CreateCampaign.GuestsLoaded ids ∈ es -> NoDup ids) ->
      NoDup (CreateCampaign.guest_ids (CreateCampaign.form (CreateCampaign.run es)))
      /\ Forall (fun f => NoDup (CreateCampaign.guest_ids f))
           (CreateCampaign.posted (CreateCampaign.run es)))
  /\ (forall (s : CreateCampaign.state) (id : string),
        CreateCampaign.currentStep s = 3 ->
        id ∈ CreateCampaign.guests s ->
        id ∉ CreateCampaign.guest_ids (CreateCampaign.form s) ->
        let s1 := CreateCampaign.step s (CreateCampaign.Toggle id) in
        CreateCampaign.guest_ids (CreateCampaign.form s1)
        = CreateCampaign.guest_ids (CreateCampaign.form s) ++ [id]
        /\ CreateCampaign.step s1 (CreateCampaign.Toggle id) = s).
Proof.
  split.
  - intros es Hes. unfold CreateCampaign.run.
    assert (NoDup (CreateCampaign.guests CreateCampaign.initial)
            /\ NoDup (CreateCampaign.guest_ids (CreateCampaign.form CreateCampaign.initial))
            /\ Forall (fun f => NoDup (CreateCampaign.guest_ids f))
                 (CreateCampaign.posted CreateCampaign.initial)) as Hinit
      by (simpl; split_and!; constructor).
    revert Hinit Hes. generalize CreateCampaign.initial.
    induction es as [|e es IH]; intros s Hinit Hes; [by destruct Hinit as (_ & ? & ?)|].
    simpl. apply IH.
    + apply selection_step_NoDup; [|exact Hinit].
      intros ids ->. apply Hes. apply list_elem_of_here.
    + intros ids Hin. apply Hes. by apply list_elem_of_further.
  - intros s id Hstep Hg Hn. cbv zeta.
    destruct s as [cs [n c t a d g] l gs p].
    cbn [CreateCampaign.currentStep CreateCampaign.form CreateCampaign.guests
           CreateCampaign.guest_ids] in Hstep, Hg, Hn. subst cs.
    assert (CreateCampaign.step
              (CreateCampaign.State 3 (CreateCampaign.FormData n c t a d g) l gs p)
              (CreateCampaign.Toggle id)
            = CreateCampaign.State 3 (CreateCampaign.FormData n c t a d (g ++ [id])) l gs p)
      as ->.
    { unfold CreateCampaign.step.
      cbn [CreateCampaign.currentStep CreateCampaign.form CreateCampaign.guests
             CreateCampaign.guest_ids CreateCampaign.with_form CreateCampaign.name
             CreateCampaign.channel_of CreateCampaign.message_template
             CreateCampaign.ai_enabled CreateCampaign.delay_hours
             CreateCampaign.loading CreateCampaign.posted].
      change (3 =? 3) with true.
      by rewrite (bool_decide_eq_true_2 _ Hg), (bool_decide_eq_false_2 _ Hn). }
    split; [reflexivity|].
    unfold CreateCampaign.step.
    cbn [CreateCampaign.currentStep CreateCampaign.form CreateCampaign.guests
           CreateCampaign.guest_ids CreateCampaign.with_form CreateCampaign.name
           CreateCampaign.channel_of CreateCampaign.message_template
           CreateCampaign.ai_enabled CreateCampaign.delay_hours
           CreateCampaign.loading CreateCampaign.posted].
    change (3 =? 3) with true.
    rewrite (bool_decide_eq_true_2 _ Hg).
    rewrite bool_decide_eq_true_2 by (apply elem_of_app; right; apply list_elem_of_here).
    cbn [andb].
    rewrite List.filter_app, filter_not_id by done.
    cbn [List.filter]. rewrite String.eqb_refl. cbn [negb]. by rewrite app_nil_r.
Qed.

(* ===================================================================== *)
(** ** The campaign detail page, the pager, the upload page *)
(* ===================================================================== *)

Lemma detail_buttons_iff (status : string) (a : CampaignDetail.action) :
  a ∈ CampaignDetail.buttons status <->
  match a with
  | CampaignDetail.start => status = "draft"
  | CampaignDetail.pause | CampaignDetail.stop => status = "active"
  | CampaignDetail.resume => status = "paused"
  | CampaignDetail.delete =>
      status = "draft" \/ status = "completed" \/ status = "cancelled"
  end.
Proof.
  unfold CampaignDetail.buttons. simpl existsb.
  rewrite !elem_of_app.
  destruct (String.eqb status "draft") eqn:E1;
    destruct (String.eqb status "active") eqn:E2;
    destruct (String.eqb status "paused") eqn:E3;
    destruct (String.eqb status "completed") eqn:E4;
    destruct (String.eqb status "cancelled") eqn:E5;
    repeat match goal with
           | H : String.eqb _ _ = true |- _ => apply String.eqb_eq in H
           | H : String.eqb _ _ = false |- _ => apply String.eqb_neq in H
           end;
    try (subst; discriminate);
    simpl; rewrite ?elem_of_cons, ?elem_of_nil;
    destruct a; split; intros; subst;
      repeat match goal with
             | H : _ \/ _ |- _ => destruct H
             | H : False |- _ => destruct H
             end; try discriminate; try congruence; auto 10.
Qed.

(** X23. Every lifecycle button the campaign detail page shows is one the
    [CampaignExecution] component offers for the same status, and it sends
    the same request; the page shows Delete only for a draft, completed or
    cancelled campaign, so never while pausing, resuming or stopping is
    offered; a deletion the user does not confirm sends nothing; and while
    an action is under way no button is enabled. *)
Theorem detail_page_actions (campaignId status : string) :
  (forall a, a ∈ CampaignDetail.offered status false ->
     forall b, CampaignDetail.lifecycle a = Some b ->
       b ∈ CampaignExecution.offered status
       /\ forall confirmed,
            CampaignDetail.action_request campaignId a confirmed
            = Some (CampaignExecution.action_request campaignId b))
  /\ (CampaignDetail.delete ∈ CampaignDetail.offered status false ->
      (CampaignExecution.pause ∉ CampaignExecution.offered status)
      /\ (CampaignExecution.resume ∉ CampaignExecution.offered status)
      /\ (CampaignExecution.stop ∉ CampaignExecution.offered status))
  /\ CampaignDetail.action_request campaignId CampaignDetail.delete false = None
  /\ CampaignDetail.offered status true = [].
Proof.
  split_and!; [| |reflexivity|reflexivity].
  - intros a Ha b Hb. simpl in Ha. apply detail_buttons_iff in Ha.
    destruct a; simpl in Hb; try discriminate; injection Hb as <-; subst status;
      (split; [by apply offered_iff | reflexivity]).
  - intros Ha. simpl in Ha. apply detail_buttons_iff in Ha.
    rewrite !offered_iff.
    destruct Ha as [-> | [-> | ->]]; split_and!; by vm_compute.
Qed.

Lemma pager_step_inv (s : Pager.state) (c : Pager.click) :
  1 <= Pager.currentPage s <= Z.max 1 (Pager.total_pages s) ->
  1 <= Pager.currentPage (Pager.step s c) <= Z.max 1 (Pager.total_pages (Pager.step s c))
  /\ Pager.total_pages (Pager.step s c) = Pager.total_pages s.
Proof.
  intros H. unfold Pager.step.
  destruct (1 <? Pager.total_pages s) eqn:E; cbn [negb]; cbv iota; [|by split].
  apply Z.ltb_lt in E.
  destruct c.
  - destruct (Pager.currentPage s =? 1) eqn:E1; [by split|].
    cbn [Pager.currentPage Pager.total_pages]. lia.
  - destruct (Pager.currentPage s =? Pager.total_pages s) eqn:E1; [by split|].
    cbn [Pager.currentPage Pager.total_pages]. lia.
Qed.

(** X24. Clicking Previous and Next never takes the pager of a list out of
    the range 1..total_pages (while the number of pages stays the same);
    Previous on page 1 and Next on the last page do nothing, and elsewhere
    they move by exactly one page. *)
Theorem pager_stays_in_range (s : Pager.state) (clicks : list Pager.click) :
  1 <= Pager.currentPage s <= Z.max 1 (Pager.total_pages s) ->
  let s1 := fold_left Pager.step clicks s in
  (1 <= Pager.currentPage s1 <= Z.max 1 (Pager.total_pages s)
   /\ Pager.total_pages s1 = Pager.total_pages s)
  /\ Pager.currentPage (Pager.step s Pager.Previous)
     = (if Pager.currentPage s =? 1 then 1 else Pager.currentPage s - 1)
  /\ Pager.currentPage (Pager.step s Pager.Next)
     = (if Pager.currentPage s <? Pager.total_pages s
        then Pager.currentPage s + 1 else Pager.currentPage s).
Proof.
  intros H. cbv zeta. split; [|split].
  - revert s H. induction clicks as [|c clicks IH]; intros s H; [by split|].
    simpl. destruct (pager_step_inv s c H) as [H1 H2].
    destruct (IH _ H1) as [H3 H4]. rewrite H2 in H3, H4. by split.
  - unfold Pager.step.
    destruct (1 <? Pager.total_pages s) eqn:E; cbn [negb]; cbv iota.
    + destruct (Pager.currentPage s =? 1) eqn:E1;
        cbn [Pager.currentPage Pager.total_pages]; lia.
    + apply Z.ltb_ge in E. destruct (Pager.currentPage s =? 1) eqn:E1; lia.
  - unfold Pager.step.
    destruct (1 <? Pager.total_pages s) eqn:E; cbn [negb]; cbv iota.
    + destruct (Pager.currentPage s =? Pager.total_pages s) eqn:E1;
        destruct (Pager.currentPage s <? Pager.total_pages s) eqn:E2;
        cbn [Pager.currentPage Pager.total_pages]; lia.
    + apply Z.ltb_ge in E.
      destruct (Pager.currentPage s <? Pager.total_pages s) eqn:E2; lia.
Qed.

Lemma rev_onto_lower (s acc : string) :
  Js.rev_onto (UploadPage.toLowerCase s) (UploadPage.toLowerCase acc)
  = UploadPage.toLowerCase (Js.rev_onto s acc).
Proof.
  revert acc. induction s as [|c s IH]; intros acc; [reflexivity|].
  simpl. rewrite <- IH. reflexivity.
Qed.

Lemma startsWith_cons (a b : ascii) (s p : string) :
  Js.startsWith (String b s) (String a p) = Ascii.eqb a b && Js.startsWith s p.
Proof. reflexivity. Qed.

Lemma startsWith_nil (a : ascii) (p : string) :
  Js.startsWith EmptyString (String a p) = false.
Proof. reflexivity. Qed.

Lemma startsWith_vsc_lower (r : string) :
  Js.startsWith r "vsc." = true -> Js.startsWith (UploadPage.toLowerCase r) "vsc." = true.
Proof.
  intros H.
  destruct r as [|c1 r]; [discriminate|].
  rewrite startsWith_cons in H. apply andb_true_iff in H as [H1 H].
  destruct r as [|c2 r]; [discriminate|].
  rewrite startsWith_cons in H. apply andb_true_iff in H as [H2 H].
  destruct r as [|c3 r]; [discriminate|].
  rewrite startsWith_cons in H. apply andb_true_iff in H as [H3 H].
  destruct r as [|c4 r]; [discriminate|].
  rewrite startsWith_cons in H. apply andb_true_iff in H as [H4 _].
  apply Ascii.eqb_eq in H1, H2, H3, H4. subst. by destruct r.
Qed.

(** X25. The upload page and the upload route check the file name
    differently: every name the route takes (ending in .csv) passes the
    page's check, but the page's check ignores case, so a name such as
    GUESTS.CSV is posted by the page and then refused by the route with 400
    'Only CSV files are allowed', without any change of state. *)
Theorem upload_page_and_route_extension_check :
  (forall name, Js.endsWith name ".csv" = true -> UploadPage.accepts name = true)
  /\ (forall (sv : Store.services) (w : Store.world) (h : option string)
             (name content user org : string),
        Store.authenticate sv h = inr user ->
        Store.profile_org w user = Some org ->
        UploadPage.accepts name = true ->
        Js.endsWith name ".csv" = false ->
        CsvUpload.POST sv w (CsvUpload.Request h (CsvUpload.FormFile name content))
        = (Store.Response 400 (Store.ErrorBody "Only CSV files are allowed"), w))
  /\ (UploadPage.accepts "GUESTS.CSV" = true /\ Js.endsWith "GUESTS.CSV" ".csv" = false).
Proof.
  split_and!.
  - intros name H. unfold UploadPage.accepts, Js.endsWith in *.
    change EmptyString with (UploadPage.toLowerCase EmptyString) at 1.
    rewrite rev_onto_lower. by apply startsWith_vsc_lower.
  - intros sv w h name content user org Hauth Horg _ Hends.
    unfold CsvUpload.POST. simpl. by rewrite Hauth, Horg, Hends.
  - reflexivity.
  - reflexivity.
Qed.

(** X26. For every row the reviews table accepts, the reviews page draws as
    many filled stars as the rating says, followed by the empty ones: five
    stars in all, the first [rating] of them filled. *)
Theorem stars_of_accepted_reviews (refs : string -> string -> bool)
    (tbl : gmap string (gmap string Schema.value)) (id : string)
    (r : gmap string Schema.value) :
  Schema.accepts refs Schema.reviews_def tbl id r = true ->
  exists z,
    Schema.get r "rating" = Schema.VInt z
    /\ ReviewsPage.renderStars z
       = replicate (Z.to_nat z) true ++ replicate (5 - Z.to_nat z) false.
Proof.
  intros H. apply reviews_accepts_rating in H as (z & Hz & Hr).
  exists z. split; [exact Hz|].
  assert (z = 1 \/ z = 2 \/ z = 3 \/ z = 4 \/ z = 5) as [->|[->|[->|[->| ->]]]] by lia;
    reflexivity.
Qed.

Lemma count_cons (s : string) (m : option string) (data : list (option string)) :
  ExecutionStats.count s (m :: data)
  = ((if bool_decide (m = Some s) then 1 else 0) + ExecutionStats.count s data)%nat.
Proof. unfold ExecutionStats.count. simpl. by destruct (bool_decide _). Qed.

(** X27. The six counters [fetchMessages] computes count disjoint sets of
    messages, so they add up to the total less the messages whose status is
    none of the six. A row the messages table accepts has one of the six
    statuses, the status 'cancelled' or no status; a row with status
    'cancelled' is accepted, and it is counted in the total and by none of
    the six counters. *)
Theorem execution_stats_partition :
  (forall data : list (option string),
      let st := ExecutionStats.newStats data in
      ExecutionStats.total st
      = (ExecutionStats.pending st + ExecutionStats.queued st + ExecutionStats.sent st
         + ExecutionStats.delivered st + ExecutionStats.read st
         + ExecutionStats.failed st
         + length (ExecutionStats.uncounted data))%nat)
  /\ (forall refs tbl id r,
        Schema.accepts refs Schema.messages_def tbl id r = true ->
        ExecutionStats.is_counted (ExecutionStats.status_of r) = true
        \/ ExecutionStats.status_of r = Some "cancelled"
        \/ ExecutionStats.status_of r = None)
  /\ (forall refs,
        Schema.accepts refs Schema.messages_def ∅ "m1" Scenario.cancelled_message = true
        /\ ExecutionStats.status_of Scenario.cancelled_message = Some "cancelled")
  /\ (forall data,
        ExecutionStats.uncounted (Some "cancelled" :: data)
        = Some "cancelled" :: ExecutionStats.uncounted data).
Proof.
  split_and!; [| | intros refs; split_and!; vm_compute; reflexivity |].
  - intros data. cbv zeta. unfold ExecutionStats.newStats.
    cbn [ExecutionStats.total ExecutionStats.pending ExecutionStats.queued
           ExecutionStats.sent ExecutionStats.delivered ExecutionStats.read
           ExecutionStats.failed].
    induction data as [|m data IH]; [reflexivity|].
    rewrite !count_cons. cbn [length]. rewrite IH.
    unfold ExecutionStats.uncounted. cbn [List.filter].
    destruct m as [s|].
    + cbn [ExecutionStats.is_counted ExecutionStats.counted existsb].
      destruct (String.eqb s "pending") eqn:E1;
        [apply String.eqb_eq in E1; subst; simpl; lia|].
      destruct (String.eqb s "queued") eqn:E2;
        [apply String.eqb_eq in E2; subst; simpl; lia|].
      destruct (String.eqb s "sent") eqn:E3;
        [apply String.eqb_eq in E3; subst; simpl; lia|].
      destruct (String.eqb s "delivered") eqn:E4;
        [apply String.eqb_eq in E4; subst; simpl; lia|].
      destruct (String.eqb s "read") eqn:E5;
        [apply String.eqb_eq in E5; subst; simpl; lia|].
      destruct (String.eqb s "failed") eqn:E6;
        [apply String.eqb_eq in E6; subst; simpl; lia|].
      apply String.eqb_neq in E1, E2, E3, E4, E5, E6.
      rewrite !bool_decide_eq_false_2 by congruence.
      cbn [orb negb length]. lia.
    + rewrite !bool_decide_eq_false_2 by discriminate.
      cbn [ExecutionStats.is_counted negb length]. lia.
  - intros refs tbl id r H. unfold Schema.accepts in H.
    apply andb_true_iff in H as [H _]. apply andb_true_iff in H as [H _].
    apply andb_true_iff in H as [_ H].
    unfold Schema.messages_def, Schema.messages_schema_def in H.
    rewrite forallb_app in H. apply andb_true_iff in H as [H _].
    rewrite forallb_forall in H.
    specialize (H (Schema.CheckIn "status" ["pending"; "queued"; "sent"; "delivered";
                                            "read"; "failed"; "cancelled"])).
    unfold ExecutionStats.status_of.
    destruct (Schema.get r "status") as [|s|z|b] eqn:Es; [by right; right | | |].
    + assert (s ∈ ["pending"; "queued"; "sent"; "delivered"; "read"; "failed";
                   "cancelled"]) as Hin.
      { assert (Schema.row_ok r (Schema.CheckIn "status"
                  ["pending"; "queued"; "sent"; "delivered"; "read"; "failed";
                   "cancelled"]) = true) as Hok.
        { apply H. simpl. tauto. }
        simpl in Hok. rewrite Es in Hok. simpl in Hok.
        destruct (bool_decide _) eqn:Ed; [|discriminate].
        by apply bool_decide_eq_true in Ed. }
      rewrite !elem_of_cons in Hin. rewrite elem_of_nil in Hin.
      destruct Hin as [->|[->|[->|[->|[->|[->|[->|[]]]]]]]];
        first [by left | by right; left].
    + by right; right.
    + by right; right.
  - reflexivity.
Qed.

(* ===================================================================== *)
(** ** The view [campaign_analytics] *)
(* ===================================================================== *)

Section AnalyticsViewFacts.
Import AnalyticsView.

Variable guests : list guest.
Variable messages : list message.

Lemma joined_cons (c : campaign) (cs : list campaign) :
  joined (c :: cs) guests messages = chunk guests messages c ++ joined cs guests messages.
Proof.
  unfold joined, left_join. simpl flat_map at 2. rewrite flat_map_app. reflexivity.
Qed.

Lemma chunk_campaign (c : campaign) (r : (campaign * option guest) * option message) :
  r ∈ chunk guests messages c -> r.1.1 = c.
Proof.
  unfold chunk. rewrite list_elem_of_In. intros H. apply in_flat_map in H as (cg & Hcg & Hr).
  assert (cg.1 = c) as Hc.
  { unfold with_guests in Hcg. destruct (guests_of c guests) as [|g gs].
    - destruct Hcg as [<-|[]]. reflexivity.
    - apply in_map_iff in Hcg as (g' & <- & _). reflexivity. }
  unfold with_messages in Hr. destruct (messages_of cg.1 messages) as [|m ms].
  - destruct Hr as [<-|[]]. exact Hc.
  - apply in_map_iff in Hr as (m' & <- & _). exact Hc.
Qed.

Lemma joined_campaign (cs : list campaign)
    (r : (campaign * option guest) * option message) :
  r ∈ joined cs guests messages -> r.1.1 ∈ cs.
Proof.
  induction cs as [|c cs IH]; [by intros ?%elem_of_nil|].
  rewrite joined_cons. intros [H|H]%elem_of_app.
  - apply chunk_campaign in H as ->. apply list_elem_of_here.
  - by apply list_elem_of_further, IH.
Qed.

Lemma filter_all {A : Type} (f : A -> bool) (l : list A) :
  (forall x, x ∈ l -> f x = true) -> List.filter f l = l.
Proof.
  induction l as [|x l IH]; intros H; [reflexivity|]. simpl.
  rewrite (H x) by apply list_elem_of_here. f_equal. apply IH.
  intros y Hy. apply H. by apply list_elem_of_further.
Qed.

Lemma filter_none {A : Type} (f : A -> bool) (l : list A) :
  (forall x, x ∈ l -> f x = false) -> List.filter f l = [].
Proof.
  induction l as [|x l IH]; intros H; [reflexivity|]. simpl.
  rewrite (H x) by apply list_elem_of_here. apply IH.
  intros y Hy. apply H. by apply list_elem_of_further.
Qed.

Lemma group_is_chunk (cs : list campaign) (c : campaign) :
  NoDup (c_id <$> cs) -> c ∈ cs ->
  List.filter (fun r => String.eqb (c_id r.1.1) (c_id c)) (joined cs guests messages)
  = chunk guests messages c.
Proof.
  induction cs as [|c0 cs IH]; [by intros _ ?%elem_of_nil|].
  rewrite fmap_cons. intros [Hfresh Hnd]%NoDup_cons Hin.
  rewrite joined_cons, List.filter_app.
  destruct (decide (c_id c0 = c_id c)) as [Heq|Hne].
  - assert (c0 = c) as ->.
    { apply elem_of_cons in Hin as [->|Hin]; [reflexivity|].
      exfalso. apply Hfresh. rewrite Heq. apply list_elem_of_fmap. by exists c. }
    rewrite filter_all, filter_none; [by rewrite app_nil_r | |].
    + intros r Hr. apply String.eqb_neq. intros Hid. apply Hfresh.
      rewrite <- Hid. apply list_elem_of_fmap. exists r.1.1.
      split; [reflexivity | by apply joined_campaign].
    + intros r Hr. apply chunk_campaign in Hr as ->. apply String.eqb_refl.
  - rewrite filter_none.
    + simpl. apply IH; [exact Hnd|].
      apply elem_of_cons in Hin as [->|Hin]; [done | exact Hin].
    + intros r Hr. apply chunk_campaign in Hr as ->. by apply String.eqb_neq.
Qed.

Lemma length_filter_flat_map {A B : Type} (f : A -> list B) (p : B -> bool)
    (l : list A) (k : nat) :
  (forall a, a ∈ l -> length (List.filter p (f a)) = k) ->
  length (List.filter p (flat_map f l)) = (length l * k)%nat.
Proof.
  induction l as [|a l IH]; intros H; [reflexivity|].
  simpl. rewrite List.filter_app, length_app, (H a) by apply list_elem_of_here.
  rewrite IH; [lia|]. intros b Hb. apply H. by apply list_elem_of_further.
Qed.

Lemma with_guests_length (c : campaign) :
  length (with_guests guests c) = Nat.max 1 (length (guests_of c guests)).
Proof.
  unfold with_guests. destruct (guests_of c guests) as [|g gs]; [reflexivity|].
  rewrite length_fmap. simpl. lia.
Qed.

Lemma with_guests_campaign (c : campaign) (cg : campaign * option guest) :
  cg ∈ with_guests guests c ->
  cg.1 = c /\ (is_Some cg.2 <-> guests_of c guests <> []).
Proof.
  unfold with_guests. destruct (guests_of c guests) as [|g gs].
  - intros ->%list_elem_of_singleton. simpl. split; [reflexivity|].
    split; [by intros [? [=]] | done].
  - intros (g' & -> & _)%list_elem_of_fmap. simpl. split; [reflexivity|].
    split; [done | by eexists].
Qed.

Lemma length_filter_fmap {A B : Type} (f : A -> B) (p : B -> bool) (q : A -> bool)
    (l : list A) :
  (forall x, p (f x) = q x) ->
  length (List.filter p (f <$> l)) = length (List.filter q l).
Proof.
  intros H. induction l as [|x l IH]; [reflexivity|].
  rewrite fmap_cons. cbn [List.filter]. rewrite H.
  destruct (q x); cbn [length]; by rewrite IH.
Qed.

Lemma with_messages_count (cg : campaign * option guest)
    (p : (campaign * option guest) * option message -> bool) (q : message -> bool) :
  (forall m, p (cg, Some m) = q m) -> p (cg, None) = false ->
  length (List.filter p (with_messages messages cg))
  = length (List.filter q (messages_of cg.1 messages)).
Proof.
  intros Hq Hnone. unfold with_messages.
  destruct (messages_of cg.1 messages) as [|m ms] eqn:E.
  - simpl. by rewrite Hnone.
  - by apply length_filter_fmap.
Qed.

Lemma with_messages_guests (cg : campaign * option guest) :
  length (List.filter (fun row : (campaign * option guest) * option message =>
                         bool_decide (is_Some row.1.2)) (with_messages messages cg))
  = (if bool_decide (is_Some cg.2)
     then Nat.max 1 (length (messages_of cg.1 messages)) else 0)%nat.
Proof.
  unfold with_messages. destruct (messages_of cg.1 messages) as [|m ms].
  - simpl. by destruct (bool_decide _).
  - destruct (bool_decide (is_Some cg.2)) eqn:E.
    + rewrite filter_all.
      * rewrite length_fmap. cbn [length]. lia.
      * intros x (m' & -> & _)%list_elem_of_fmap. exact E.
    + rewrite filter_none; [reflexivity|].
      intros x (m' & -> & _)%list_elem_of_fmap. exact E.
Qed.

End AnalyticsViewFacts.

(** X28. The view [campaign_analytics] joins a campaign with its guests and,
    independently, with its messages, so each guest is paired with each
    message: for a campaign with n guests and m messages the view reports
    n * max(1, m) guests and m * max(1, n) messages, and a status counter is
    the number of messages in that status times max(1, n). The counts are
    those of the tables only when the campaign has at most one guest and at
    most one message, or none of one kind. *)
Theorem campaign_analytics_counts (guests : list AnalyticsView.guest)
    (messages : list AnalyticsView.message)
    (campaigns : list AnalyticsView.campaign) (c : AnalyticsView.campaign) :
  NoDup (AnalyticsView.c_id <$> campaigns) -> c ∈ campaigns ->
  let n := length (AnalyticsView.guests_of c guests) in
  let ms := AnalyticsView.messages_of c messages in
  let status s :=
    length (List.filter (fun m => bool_decide (AnalyticsView.m_status m = Some s)) ms) in
  AnalyticsView.Row (AnalyticsView.c_id c) (AnalyticsView.c_name c)
    (n * Nat.max 1 (length ms)) (length ms * Nat.max 1 n)
    (status "sent" * Nat.max 1 n) (status "delivered" * Nat.max 1 n)
    (status "read" * Nat.max 1 n) (status "failed" * Nat.max 1 n)
  ∈ AnalyticsView.campaign_analytics campaigns guests messages.
Proof.
  intros Hnd Hin. cbv zeta. unfold AnalyticsView.campaign_analytics.
  apply list_elem_of_fmap. exists c. split; [|exact Hin]. cbv zeta.
  rewrite (group_is_chunk guests messages _ _ Hnd Hin).
  assert (forall s,
            AnalyticsView.count_status s (AnalyticsView.chunk guests messages c)
            = (length (List.filter
                         (fun m => bool_decide (AnalyticsView.m_status m = Some s))
                         (AnalyticsView.messages_of c messages))
               * Nat.max 1 (length (AnalyticsView.guests_of c guests)))%nat) as Hstatus.
  { intros s. unfold AnalyticsView.count_status, AnalyticsView.chunk.
    rewrite (length_filter_flat_map _ _ _
               (length (List.filter
                          (fun m => bool_decide (AnalyticsView.m_status m = Some s))
                          (AnalyticsView.messages_of c messages)))).
    - rewrite with_guests_length. lia.
    - intros cg Hcg. destruct (with_guests_campaign guests _ _ Hcg) as [Hc _].
      rewrite <- Hc.
      apply (with_messages_count messages cg
               (fun row => bool_decide (AnalyticsView.m_status <$> row.2 = Some (Some s)))
               (fun m => bool_decide (AnalyticsView.m_status m = Some s))).
      + intros m. simpl. apply bool_decide_ext. split; congruence.
      + reflexivity. }
  f_equal; try (symmetry; apply Hstatus).
  - unfold AnalyticsView.count_guests, AnalyticsView.chunk.
    destruct (AnalyticsView.guests_of c guests) as [|g gs] eqn:Eg.
    + rewrite (length_filter_flat_map _ _ _ 0%nat); [simpl; lia|].
      intros cg Hcg. destruct (with_guests_campaign guests _ _ Hcg) as [Hc Hsome].
      rewrite with_messages_guests. rewrite bool_decide_eq_false_2; [reflexivity|].
      intros Hs. apply Hsome in Hs. by rewrite Eg in Hs.
    + rewrite (length_filter_flat_map _ _ _
                 (Nat.max 1 (length (AnalyticsView.messages_of c messages)))).
      * rewrite with_guests_length, Eg. simpl length. lia.
      * intros cg Hcg. destruct (with_guests_campaign guests _ _ Hcg) as [Hc Hsome].
        rewrite with_messages_guests, Hc. rewrite bool_decide_eq_true_2; [reflexivity|].
        apply Hsome. by rewrite Eg.
  - unfold AnalyticsView.count_messages, AnalyticsView.chunk.
    rewrite (length_filter_flat_map _ _ _
               (length (AnalyticsView.messages_of c messages))).
    + rewrite with_guests_length. lia.
    + intros cg Hcg. destruct (with_guests_campaign guests _ _ Hcg) as [Hc _].
      rewrite <- Hc.
      rewrite (with_messages_count messages cg _ (fun _ => true)).
      * by rewrite filter_all.
      * intros m. reflexivity.
      * reflexivity.
Qed.

(* ===================================================================== *)
(** ** The properties on sample data *)

Lemma sample_processable :
  CsvProcess.processable Sample.sv Sample.w Sample.process_request
    Sample.mapping Sample.rows.
Proof.
  exists "job-1", "user-1", Sample.pending_job, Sample.mapping_json, Sample.guests_csv.
  split_and!; vm_compute; reflexivity.
Qed.

Lemma process_without_name_mapping_witness :
  Store.customers
    (CsvProcess.handler Scenario.sv Sample.w Scenario.email_only_request).2 = [].
Proof.
  assert (CsvProcess.processable Scenario.sv Sample.w Scenario.email_only_request
            Scenario.email_mapping Sample.rows) as Hp.
  { exists "job-1", "user-1", Sample.pending_job, Scenario.email_mapping_json,
      Sample.guests_csv.
    split_and!; vm_compute; reflexivity. }
  assert (forall header, Scenario.email_mapping !! header <> Some "name") as Hno.
  { intros header. unfold Scenario.email_mapping.
    intros [_ H]%lookup_singleton_Some. discriminate. }
  destruct (process_without_name_mapping _ _ _ _ _ Hp Hno)
    as (id & job & _ & _ & _ & H & _).
  exact H.
Defined.

Lemma process_file_without_data_rows_witness :
  exists job,
    (CsvProcess.handler Scenario.sv (Scenario.with_file Scenario.header_csv)
       Sample.process_request).1
    = Some (Store.Response 200 (Store.JobBody (Some job)))
    /\ Store.job_status job = Some "completed"
    /\ Store.job_total_rows job = 0.
Proof.
  assert (CsvProcess.processable Scenario.sv (Scenario.with_file Scenario.header_csv)
            Sample.process_request Sample.mapping [["Name"; "Email"]]) as Hp.
  { exists "job-1", "user-1", Sample.pending_job, Sample.mapping_json,
      Scenario.header_csv.
    split_and!; vm_compute; reflexivity. }
  destruct (process_file_without_data_rows _ _ _ _ _ Hp ltac:(simpl; lia))
    as (id & job & _ & H & _ & _ & Hs & _ & _ & Ht & _).
  exists job. split_and!; [exact H | exact Hs | exact Ht].
Defined.

Lemma process_is_not_repeatable_witness :
  (CsvProcess.handler Sample.sv
     (CsvProcess.handler Sample.sv Sample.w Sample.process_request).2
     Sample.process_request).1
  = Some (Store.Response 400 (Store.ErrorBody "Upload job already processed")).
Proof.
  exact (f_equal fst (proj1 (process_is_not_repeatable _ _ _ _ _ sample_processable))).
Defined.



Lemma session_routes_without_session_witness :
  Forall (fun route =>
            route Scenario.anonymous
            = (SessionRoutes.Response 401 (SessionRoutes.Error "Unauthorized"), []))
    (SessionRoutes.session_routes "http://backend" "http://backend" "http://frontend"
       Scenario.getSession Scenario.not_found Scenario.org_id_of Scenario.no_job ∅).
Proof.
  apply session_routes_without_session. reflexivity.
Defined.

Lemma session_routes_forward_token_witness :
  Forall (fun call =>
            (SessionRoutes.authorization call = Some "Bearer jwt-1"
             /\ SessionRoutes.cookie call = None)
            \/ (SessionRoutes.url call = "http://frontend/api/users/ensure-org"
                /\ SessionRoutes.authorization call = None
                /\ SessionRoutes.cookie call = Some "sb-token=abc"))
    (SessionRoutes.guests_POST "http://backend" "http://frontend"
       Scenario.getSession Scenario.not_found Scenario.org_id_of Scenario.signed_in).2.
Proof.
  pose proof (session_routes_forward_token "http://backend" "http://backend"
                "http://frontend" Scenario.getSession Scenario.not_found
                Scenario.org_id_of Scenario.no_job ∅ Scenario.signed_in
                Scenario.session eq_refl) as H.
  unfold SessionRoutes.session_routes in H.
  apply Forall_cons_1 in H as [_ H]. apply Forall_cons_1 in H as [_ H].
  apply Forall_cons_1 in H as [H _]. exact H.
Defined.

Lemma relaying_routes_pass_backend_errors_witness :
  (SessionRoutes.guests_GET "http://backend" Scenario.getSession Scenario.not_found
     Scenario.signed_in).1
  = SessionRoutes.Response 404 (SessionRoutes.Relay "{detail:Not found}").
Proof.
  destruct (relaying_routes_pass_backend_errors "http://backend" "http://backend"
              Scenario.getSession Scenario.not_found Scenario.no_job ∅
              Scenario.signed_in Scenario.session 404 "{detail:Not found}"
              eq_refl eq_refl ltac:(lia) ltac:(reflexivity))
    as (_ & H & _).
  exact H.
Defined.

Lemma guests_POST_after_ensure_org_witness :
  SessionRoutes.status
    (SessionRoutes.guests_POST "http://backend" "http://frontend"
       Scenario.getSession Scenario.not_found Scenario.org_id_of Scenario.signed_in).1
  = 500.
Proof.
  destruct (guests_POST_after_ensure_org "http://backend" "http://frontend"
              Scenario.getSession Scenario.not_found Scenario.org_id_of
              Scenario.signed_in Scenario.session eq_refl)
    as (_ & _ & H).
  apply H. intros (st & orgData & o & Hf & Hok & _).
  injection Hf as <- _. discriminate Hok.
Defined.

Lemma confirm_POST_missing_job_or_file_witness :
  SessionRoutes.confirm_POST "http://backend" Scenario.getSession Scenario.not_found
    Scenario.no_job ∅ Scenario.signed_in
  = (SessionRoutes.Response 404 (SessionRoutes.Error "Upload job not found"), []).
Proof.
  destruct (confirm_POST_missing_job_or_file "http://backend" Scenario.getSession
              Scenario.not_found Scenario.no_job ∅ Scenario.signed_in
              Scenario.session (Some "{}") eq_refl eq_refl)
    as (H & _).
  apply H. reflexivity.
Defined.

Lemma sample_ensure_org :
  Orgs.ensure_org_POST Scenario.osv Scenario.ow (Some "sb-token=abc")
  = (Orgs.Response 200 (Orgs.OrgId "org-1"),
     (Orgs.ensure_org_POST Scenario.osv Scenario.ow (Some "sb-token=abc")).2).
Proof. vm_compute. reflexivity. Qed.

Lemma ensure_org_idempotent_witness :
  let w1 := (Orgs.ensure_org_POST Scenario.osv Scenario.ow (Some "sb-token=abc")).2 in
  Orgs.ensure_org_POST Scenario.osv w1 (Some "sb-token=abc")
  = (Orgs.Response 200 (Orgs.OrgId "org-1"), w1).
Proof.
  apply (ensure_org_idempotent Scenario.osv Scenario.osv Scenario.ow).
  - exact sample_ensure_org.
  - discriminate.
  - reflexivity.
Defined.


Lemma signUp_creates_two_orgs_witness :
  let row := Orgs.OrgRow "Ann's Organization" "UTC" "US" in
  Orgs.orgs
    (Orgs.serve_all Scenario.osv Scenario.ow
       (Orgs.signUp (Orgs.SignUpData (Some Scenario.ann)) "Ann").1)
  = <[ "org-2" := row ]> (<[ "org-1" := row ]> (Orgs.orgs Scenario.ow)).
Proof.
  intros row.
  assert ("Ann" <> "") as Hname by discriminate.
  assert ("org-2" <> "org-1") as Hne by discriminate.
  destruct (signUp_creates_two_orgs Scenario.osv Scenario.ow Scenario.ann "Ann"
              "org-1" "org-2" Hname eq_refl eq_refl eq_refl eq_refl eq_refl Hne eq_refl)
    as [H _].
  destruct (H eq_refl) as (_ & Horgs & _). exact Horgs.
Defined.

Lemma ensure_org_then_csv_routes_witness :
  let w1 := (Orgs.ensure_org_POST Scenario.osv Scenario.ow (Some "sb-token=abc")).2 in
  Store.profile_org (Store.World (Orgs.profiles w1) ∅ [] ∅) "user-1" = Some "org-1".
Proof.
  intros w1.
  destruct (ensure_org_then_csv_routes Scenario.osv Scenario.ow w1
              (Some "sb-token=abc") "org-1" Scenario.session Sample.sv
              (Some "Bearer secret") ∅ [] ∅) as (H & _).
  - exact sample_ensure_org.
  - discriminate.
  - reflexivity.
  - vm_compute. reflexivity.
  - exact H.
Defined.

Lemma pager_stays_in_range_witness :
  Pager.currentPage
    (fold_left Pager.step [Pager.Next; Pager.Next; Pager.Next; Pager.Previous]
       (Pager.State 1 3)) <= 3.
Proof.
  assert (1 <= Pager.currentPage (Pager.State 1 3)
          <= Z.max 1 (Pager.total_pages (Pager.State 1 3))) as Hs.
  { simpl. lia. }
  destruct (pager_stays_in_range (Pager.State 1 3)
              [Pager.Next; Pager.Next; Pager.Next; Pager.Previous] Hs)
    as [[[_ H] _] _].
  exact H.
Defined.

Lemma stars_of_accepted_reviews_witness :
  exists z,
    Schema.get Scenario.review "rating" = Schema.VInt z
    /\ ReviewsPage.renderStars z
       = replicate (Z.to_nat z) true ++ replicate (5 - Z.to_nat z) false.
Proof.
  apply (stars_of_accepted_reviews (fun _ _ => true) ∅ "r1").
  vm_compute. reflexivity.
Defined.

Lemma campaign_analytics_counts_witness :
  AnalyticsView.Row "c1" "Spring" 6 6 4 0 2 0
  ∈ AnalyticsView.campaign_analytics [Scenario.spring] Scenario.guests Scenario.messages.
Proof.
  assert (NoDup (AnalyticsView.c_id <$> [Scenario.spring])) as Hnd.
  { apply NoDup_singleton. }
  exact (campaign_analytics_counts Scenario.guests Scenario.messages [Scenario.spring]
           Scenario.spring Hnd (list_elem_of_here _ _)).
Defined.
